(** * xmlui-bundler: a shallow embedding of [xmlui-bundler.go]

    The bundler downloads four archives, extracts them and rearranges
    the extracted entries below the working directory.  This file
    embeds the Go functions of [xmlui-bundler.go] as Rocq functions
    over an explicit file-system state and states the properties of the
    specification about them.

    Conventions of the embedding:
    - [runtime.GOOS], [runtime.GOARCH], the environment variable
      [GITHUB_TOKEN], [os.Args[0]] and the working directory are fields
      of an environment record;
    - a Go [(value, error)] result is a sum or a pair with an
      [option error];
    - the file system is a finite map from absolute, cleaned paths
      (lists of components) to nodes; the operations of package [os]
      are functions on that map, with the structural failures of the
      system calls (missing path, wrong kind of node, occupied target)
      written out.  Permission, quota and device failures are outside
      the model, and so are the process umask (which can only clear
      bits of a creation mode) and the Windows path separator;
    - the decoders of [archive/zip], [compress/gzip] with
      [archive/tar], and the HTTP client are parameters: an archive is
      seen through the entries its reader yields. *)

From stdpp Require Import base gmap list strings fin_maps pretty.
From Stdlib Require Import ZArith NArith String Ascii.

Open Scope string_scope.
Open Scope list_scope.

(** ** Package [strings] *)

Module strings.

(** [strings.HasPrefix(s, prefix)] *)
Definition HasPrefix (s pre : string) : bool := String.prefix pre s.

(** [strings.HasSuffix(s, suffix)] *)
Definition HasSuffix (s suf : string) : bool :=
  (String.length suf <=? String.length s)%nat &&
  String.eqb
    (String.substring (String.length s - String.length suf)
                      (String.length suf) s)
    suf.

(** [strings.Contains(s, substr)] *)
Definition Contains (s sub : string) : bool :=
  match String.index 0 sub s with
  | Some _ => true
  | None => bool_decide (sub = "")
  end.

End strings.

(** ** Constants *)

Definition repoName : string := "xmlui-invoice".
Definition branchName : string := "main".
Definition appZipURL : string :=
  "https://codeload.github.com/jonudell/" +:+ repoName +:+
  "/zip/refs/heads/" +:+ branchName.
Definition xmluiRepoZip : string :=
  "https://codeload.github.com/xmlui-com/xmlui/zip/refs/heads/main".

(** ** Platform resolver

    [runtime.GOOS] and [runtime.GOARCH] are the two arguments. *)

Definition getPlatformSpecificMCPURL (GOOS GOARCH : string) : string :=
  let baseURL :=
    "https://github.com/jonudell/xmlui-mcp/releases/download/v1.0.0/" in
  let arch := GOARCH in
  if String.eqb GOOS "darwin" then
    if String.eqb arch "arm64" then baseURL +:+ "xmlui-mcp-mac-arm.tar.gz"
    else baseURL +:+ "xmlui-mcp-mac-amd.tar.gz"
  else if String.eqb GOOS "linux" then
    baseURL +:+ "xmlui-mcp-linux-amd64.zip"
  else if String.eqb GOOS "windows" then
    baseURL +:+ "xmlui-mcp-windows-amd64.zip"
  else baseURL +:+ "xmlui-mcp-mac-arm.tar.gz".

Definition getPlatformSpecificServerURL (GOOS GOARCH : string) : string :=
  let baseURL :=
    "https://github.com/JonUdell/xmlui-test-server/releases/download/v1.0.0/" in
  let arch := GOARCH in
  if String.eqb GOOS "darwin" then
    if String.eqb arch "arm64" then baseURL +:+ "xmlui-test-server-mac-arm.tar.gz"
    else baseURL +:+ "xmlui-test-server-mac-amd.tar.gz"
  else if String.eqb GOOS "linux" then
    baseURL +:+ "xmlui-test-server-linux-amd64.tar.gz"
  else if String.eqb GOOS "windows" then
    baseURL +:+ "xmlui-test-server-windows-amd64.zip"
  else baseURL +:+ "xmlui-test-server-mac-arm.tar.gz".

(** The asset the resolvers fall back to. *)
Definition defaultMCPURL : string :=
  "https://github.com/jonudell/xmlui-mcp/releases/download/v1.0.0/xmlui-mcp-mac-arm.tar.gz".
Definition defaultServerURL : string :=
  "https://github.com/JonUdell/xmlui-test-server/releases/download/v1.0.0/xmlui-test-server-mac-arm.tar.gz".

(** An operating system one of the [case] labels names. *)
Definition recognizedOS (GOOS : string) : Prop :=
  GOOS = "darwin" ∨ GOOS = "linux" ∨ GOOS = "windows".

(** ** Paths (package [path/filepath])

    A path is the list of the components of an absolute, cleaned path:
    [["home"; "u"; "mcp"]] stands for [/home/u/mcp] and [[]] for the
    root. *)

Abbreviation path := (list string).

Module filepath.

(** The components of a slash-separated name, the last one in [cur]. *)
Fixpoint split_from (cur : string) (s : string) : list string :=
  match s with
  | EmptyString => [cur]
  | String c s' =>
      if Ascii.eqb c "/"%char then cur :: split_from "" s'
      else split_from (cur +:+ String c "") s'
  end.

Definition split (s : string) : list string := split_from "" s.

(** One step of [filepath.Clean] on a rooted path: empty and [.]
    components vanish, [..] removes the component before it and
    vanishes at the root. *)
Definition enter (p : path) (c : string) : path :=
  if String.eqb c "" then p
  else if String.eqb c "." then p
  else if String.eqb c ".." then removelast p
  else p ++ [c].

(** [filepath.Join(p, name)]: the cleaned concatenation. *)
Definition Join (p : path) (name : string) : path :=
  foldl enter p (split name).

Fixpoint no_slash (s : string) : bool :=
  match s with
  | EmptyString => true
  | String c s' => negb (Ascii.eqb c "/"%char) && no_slash s'
  end.

(** A name a directory entry can bear: not empty, not [.] or [..],
    without a separator. *)
Definition valid_name (c : string) : bool :=
  negb (String.eqb c "") && negb (String.eqb c ".")
  && negb (String.eqb c "..") && no_slash c.

(** [filepath.Dir(p)] *)
Definition Dir (p : path) : path := removelast p.

(** [filepath.Base(p)] *)
Definition Base (p : path) : string := List.last p "/".

(** The last component that is not empty of the components listed
    from the last one, and [/] when there is none. *)
Fixpoint last_element (reversed : list string) : string :=
  match reversed with
  | [] => "/"
  | c :: rest => if String.eqb c "" then last_element rest else c
  end.

(** [filepath.Base(s)] of a name as the program holds it, which is not
    cleaned: [.] for the empty name; otherwise the trailing separators
    are dropped and what follows the last separator is returned, and
    [/] for a name of separators only. *)
Definition Base_string (s : string) : string :=
  if String.eqb s "" then "." else last_element (List.rev (split s)).

(** The path as the string the Go program holds. *)
Definition to_string (p : path) : string :=
  match p with
  | [] => "/"
  | _ => String.concat "" ((λ c, "/" +:+ c) <$> p)
  end.

End filepath.

(** ** Errors *)

Inductive errno := ENOENT | EEXIST | ENOTDIR | EISDIR | EINVAL.

Inductive error :=
| PathError (op : string) (p : path) (e : errno)
    (** [*fs.PathError] of package [os] *)
| LinkError (op : string) (old new : path) (e : errno)
    (** [*os.LinkError] *)
| Errorf (msg : string)
    (** a value made by [fmt.Errorf] *)
| LibError (msg : string).
    (** an error value of [net/http], [archive/zip], [compress/gzip],
        [archive/tar] or of a reader *)

Definition errno_string (e : errno) : string :=
  match e with
  | ENOENT => "no such file or directory"
  | EEXIST => "file exists"
  | ENOTDIR => "not a directory"
  | EISDIR => "is a directory"
  | EINVAL => "invalid argument"
  end.

(** [err.Error()], what [%v] prints. *)
Definition error_string (e : error) : string :=
  match e with
  | PathError op p en =>
      op +:+ " " +:+ filepath.to_string p +:+ ": " +:+ errno_string en
  | LinkError op old new en =>
      op +:+ " " +:+ filepath.to_string old +:+ " " +:+ filepath.to_string new
         +:+ ": " +:+ errno_string en
  | Errorf msg => msg
  | LibError msg => msg
  end.

(** ** The file system (package [os]) *)

Inductive node :=
| File (data : string) (perm : N)
| Dir.

Abbreviation fs := (gmap path node).

Record DirEntry := { Name : string; IsDir : bool }.

Module os.

Definition ModePerm : N := 511.   (* 0777 *)

(** The node a path names; the root is a directory. *)
Definition node_at (f : fs) (p : path) : option node :=
  match p with
  | [] => Some Dir
  | _ => f !! p
  end.

Definition is_dir (f : fs) (p : path) : bool :=
  match node_at f p with Some Dir => true | _ => false end.

(** [os.Stat(p)]: [None] stands for the error. *)
Definition Stat (f : fs) (p : path) : option node := node_at f p.

(** [os.MkdirAll(p, perm)]: walks down from [done], creating the
    missing directories; stops at a component that is a file. *)
Fixpoint mkdir_walk (done : path) (rest : list string) (f : fs)
  : fs * option error :=
  match rest with
  | [] => (f, None)
  | c :: rest' =>
      let here := done ++ [c] in
      match f !! here with
      | Some Dir => mkdir_walk here rest' f
      | Some (File _ _) => (f, Some (PathError "mkdir" here ENOTDIR))
      | None => mkdir_walk here rest' (<[here := Dir]> f)
      end
  end.

Definition MkdirAll (p : path) (perm : N) (f : fs) : fs * option error :=
  mkdir_walk [] p f.

(** [os.Create(p)]: creates or truncates the file.  The handle it
    returns is the path. *)
Definition Create (p : path) (f : fs) : fs * (error + path) :=
  match node_at f p with
  | Some Dir => (f, inl (PathError "open" p EISDIR))
  | Some (File _ perm) => (<[p := File "" perm]> f, inr p)
  | None =>
      match node_at f (filepath.Dir p) with
      | Some Dir => (<[p := File "" 438]> f, inr p)   (* 0666 *)
      | Some (File _ _) => (f, inl (PathError "open" p ENOTDIR))
      | None => (f, inl (PathError "open" p ENOENT))
      end
  end.

(** [out.Write(b)] on the handle [p]. *)
Definition Write (p : path) (b : string) (f : fs) : fs :=
  match f !! p with
  | Some (File d perm) => <[p := File (d +:+ b) perm]> f
  | _ => f
  end.

(** [os.Chmod(p, mode)] *)
Definition Chmod (p : path) (mode : N) (f : fs) : fs * option error :=
  match node_at f p with
  | Some (File d _) => (<[p := File d mode]> f, None)
  | Some Dir => (f, None)
  | None => (f, Some (PathError "chmod" p ENOENT))
  end.

(** [os.ReadFile(p)] *)
Definition ReadFile (p : path) (f : fs) : error + string :=
  match node_at f p with
  | Some (File d _) => inr d
  | Some Dir => inl (PathError "read" p EISDIR)
  | None => inl (PathError "open" p ENOENT)
  end.

(** [os.WriteFile(p, data, perm)] *)
Definition WriteFile (p : path) (data : string) (perm : N) (f : fs)
  : fs * option error :=
  match node_at f p with
  | Some Dir => (f, Some (PathError "open" p EISDIR))
  | Some (File _ perm0) => (<[p := File data perm0]> f, None)
  | None =>
      match node_at f (filepath.Dir p) with
      | Some Dir => (<[p := File data perm]> f, None)
      | Some (File _ _) => (f, Some (PathError "open" p ENOTDIR))
      | None => (f, Some (PathError "open" p ENOENT))
      end
  end.

(** [p] or something below it. *)
Definition under (p : path) (q : path) : Prop := p `prefix_of` q.

(** [os.RemoveAll(p)]: removes [p] and everything below it; a missing
    [p] is no error. *)
Definition RemoveAll (p : path) (f : fs) : fs * option error :=
  (filter (λ kv : path * node, ¬ under p kv.1) f, None).

(** Insertion of a name into a list sorted by [String.leb]. *)
Fixpoint insert_name (e : DirEntry) (l : list DirEntry) : list DirEntry :=
  match l with
  | [] => [e]
  | e' :: l' =>
      if String.leb (Name e) (Name e') then e :: l
      else e' :: insert_name e l'
  end.

Definition sort_names (l : list DirEntry) : list DirEntry :=
  foldr insert_name [] l.

(** The entry of [dir] a binding of the map stands for, if any. *)
Definition entry_of (dir : path) (kv : path * node) : option DirEntry :=
  match List.rev kv.1 with
  | n :: rd =>
      if bool_decide (List.rev rd = dir) then
        Some {| Name := n;
                IsDir := match kv.2 with Dir => true | _ => false end |}
      else None
  | [] => None
  end.

(** [os.ReadDir(p)]: the entries of the directory, sorted by name. *)
Definition ReadDir (p : path) (f : fs) : error + list DirEntry :=
  match node_at f p with
  | Some Dir => inr (sort_names (omap (entry_of p) (map_to_list f)))
  | Some (File _ _) => inl (PathError "open" p ENOTDIR)
  | None => inl (PathError "open" p ENOENT)
  end.

(** The bindings below [old], rooted at [new] instead. *)
Definition rebase (old new : path) (kv : path * node) : path * node :=
  (new ++ drop (List.length old) kv.1, kv.2).

Definition move_tree (old new : path) (f : fs) : fs :=
  list_to_map
    (rebase old new <$> map_to_list (filter (λ kv : path * node, under old kv.1) f))
  ∪ filter (λ kv : path * node, ¬ under old kv.1 ∧ ¬ under new kv.1) f.

(** [os.Rename(old, new)].  The Go wrapper refuses a [new] that is an
    existing directory before it calls [rename(2)]; the system call
    replaces an existing file, refuses to put a directory in the place
    of a file or below itself, and needs the directory of [new]. *)
Definition Rename (old new : path) (f : fs) : fs * option error :=
  match node_at f new with
  | Some Dir =>
      match node_at f old with
      | None => (f, Some (LinkError "rename" old new ENOENT))
      | Some _ => (f, Some (LinkError "rename" old new EEXIST))
      end
  | tgt =>
      match node_at f old with
      | None => (f, Some (LinkError "rename" old new ENOENT))
      | Some src =>
          if negb (is_dir f (filepath.Dir new)) then
            (f, Some (LinkError "rename" old new
                        (match node_at f (filepath.Dir new) with
                         | None => ENOENT | _ => ENOTDIR end)))
          else if bool_decide (old = new) then (f, None)
          else
            match src, tgt with
            | Dir, Some (File _ _) =>
                (f, Some (LinkError "rename" old new ENOTDIR))
            | Dir, _ =>
                if bool_decide (under old new) then
                  (f, Some (LinkError "rename" old new EINVAL))
                else (move_tree old new f, None)
            | File _ _, _ => (move_tree old new f, None)
            end
      end
  end.

End os.

(** Every component of every path of the file system is a proper
    name, as in a file system the kernel maintains. *)
Definition names_valid (f : fs) : Prop :=
  map_Forall (λ (p : path) (_ : node),
                Forall (λ c, filepath.valid_name c = true) p) f.

(** ** Readers, archives and the HTTP client

    A reader is seen through what reading it to the end yields: the
    bytes delivered and the error, if any, that ended the reading
    before the end of the stream. *)

Record reader := { rd_data : string; rd_err : option error }.

Module io.

(** [io.Copy(out, in)]: the bytes read are written, the error of the
    reader is returned. *)
Definition Copy (out : path) (rd : reader) (f : fs) : fs * option error :=
  (os.Write out (rd_data rd) f, rd_err rd).

(** [io.ReadAll(r)] *)
Definition ReadAll (rd : reader) : error + string :=
  match rd_err rd with
  | Some e => inl e
  | None => inr (rd_data rd)
  end.

End io.

(** An entry of [zip.Reader.File]: its name, [FileInfo().IsDir()] and
    the result of [Open()]. *)
Record zipFile :=
  { zf_Name : string; zf_IsDir : bool; zf_Open : error + reader }.

(** A [tar.Header]: its name and [FileInfo().IsDir()]. *)
Record tarHeader := { th_Name : string; th_IsDir : bool }.

(** What the successive calls of [tarReader.Next()] yield: [io.EOF], an
    error, or a header with the reader of the entry's content. *)
Inductive tarStream :=
| TarEOF
| TarFail (e : error)
| TarEntry (h : tarHeader) (body : reader) (rest : tarStream).

Record request := { req_url : string; req_auth : option (string * string) }.

Record response := { StatusCode : Z; Status : string; Body : reader }.

Module http.
Definition StatusOK : Z := 200.
Definition StatusUnauthorized : Z := 401.
End http.

(** The environment of a run. *)
Record env := {
  GOOS : string;                       (* runtime.GOOS *)
  GOARCH : string;                     (* runtime.GOARCH *)
  GITHUB_TOKEN : string;               (* os.Getenv("GITHUB_TOKEN") *)
  Args0 : string;                      (* os.Args[0] *)
  Getwd : path;                        (* os.Getwd() *)
  http_NewRequest : string → option error;
    (* the error of http.NewRequest("GET", url, nil), if any *)
  client_Do : request → error + response;
  zip_NewReader : string → error + list zipFile;
  gzip_NewReader : string → error + tarStream
    (* gzip.NewReader, then what tar.NewReader of it yields *)
}.

(** Standard output: the lines printed so far. *)
Abbreviation stdout := (list string).

(** ** Fetcher *)

Definition privateHost : string := "codeload.github.com/xmlui-com/xmlui".

Definition downloadWithProgress (E : env) (url filename : string)
    (out : stdout) : stdout * (error + string) :=
  let out := out ++ ["Downloading " +:+ filename +:+ "..."] in
  let out := out ++ ["  From: " +:+ url] in
  match http_NewRequest E url with
  | Some err => (out, inl err)
  | None =>
      let req := {| req_url := url; req_auth := None |} in
      let '(out, req) :=
        if strings.Contains url privateHost then
          let token := GITHUB_TOKEN E in
          if negb (String.eqb token "") then
            (out ++ ["  Using authentication token for private repository"],
             {| req_url := url; req_auth := Some (token, "x-oauth-basic") |})
          else
            (out ++ ["  Warning: No authentication token found for private repository"],
             req)
        else (out, req) in
      match client_Do E req with
      | inl err => (out, inl err)
      | inr resp =>
          if negb (StatusCode resp =? http.StatusOK)%Z then
            if strings.Contains url privateHost
               && (StatusCode resp =? http.StatusUnauthorized)%Z then
              (out, inl (Errorf
                 ("authentication failed for private repository: " +:+ url
                  +:+ " (status: " +:+ Status resp +:+ ") - check PAT_TOKEN")))
            else
              (out, inl (Errorf
                 ("request failed: " +:+ Status resp +:+ " for URL: " +:+ url)))
          else
            match io.ReadAll (Body resp) with
            | inl err => (out, inl err)
            | inr data =>
                (out ++ ["  Downloaded: " +:+ pretty (String.length data)
                         +:+ " bytes"],
                 inr data)
            end
      end
  end.

(** ** Archive extractor *)

(** The loop of [unzipTo] over [r.File]. *)
Fixpoint unzip_files (files : list zipFile) (dest : path) (f : fs)
  : fs * option error :=
  match files with
  | [] => (f, None)
  | zf :: rest =>
      let fpath := filepath.Join dest (zf_Name zf) in
      if zf_IsDir zf then
        let f := (os.MkdirAll fpath os.ModePerm f).1 in
        unzip_files rest dest f
      else
        let f := (os.MkdirAll (filepath.Dir fpath) os.ModePerm f).1 in
        match zf_Open zf with
        | inl err => (f, Some err)
        | inr in_ =>
            match os.Create fpath f with
            | (f, inl err) => (f, Some err)
            | (f, inr out) =>
                let f := (io.Copy out in_ f).1 in
                unzip_files rest dest f
            end
        end
  end.

Definition unzipTo (E : env) (data : string) (dest : path) (f : fs)
  : fs * option error :=
  match zip_NewReader E data with
  | inl err => (f, Some err)
  | inr files => unzip_files files dest f
  end.

(** The test of [untarGzTo] for the executable bit. *)
Definition wantsExec (fpath : path) : bool :=
  strings.HasSuffix (filepath.to_string fpath) ".sh"
  || String.eqb (filepath.Base fpath) "xmlui-mcp"
  || String.eqb (filepath.Base fpath) "xmlui-mcp-client"
  || String.eqb (filepath.Base fpath) "xmlui-test-server".

(** The loop of [untarGzTo] over [tarReader.Next()]. *)
Fixpoint untar_entries (s : tarStream) (dest : path) (f : fs)
  : fs * option error :=
  match s with
  | TarEOF => (f, None)
  | TarFail err => (f, Some err)
  | TarEntry hdr body rest =>
      let fpath := filepath.Join dest (th_Name hdr) in
      if th_IsDir hdr then
        let f := (os.MkdirAll fpath os.ModePerm f).1 in
        untar_entries rest dest f
      else
        let f := (os.MkdirAll (filepath.Dir fpath) os.ModePerm f).1 in
        match os.Create fpath f with
        | (f, inl err) => (f, Some err)
        | (f, inr out) =>
            match io.Copy out body f with
            | (f, Some err) => (f, Some err)
            | (f, None) =>
                let f :=
                  if wantsExec fpath then (os.Chmod fpath 493 f).1  (* 0755 *)
                  else f in
                untar_entries rest dest f
            end
        end
  end.

Definition untarGzTo (E : env) (data : string) (dest : path) (f : fs)
  : fs * option error :=
  match gzip_NewReader E data with
  | inl err => (f, Some err)
  | inr s => untar_entries s dest f
  end.

(** ** Layout assembler *)

(** The loop of [moveIntoPlace] over the entries of [srcParent]. *)
Fixpoint moveIntoPlace_entries (entries : list DirEntry)
    (srcParent : path) (repoName : string) (installDir : path) (f : fs)
  : fs * (error + path) :=
  match entries with
  | [] => (f, inl (Errorf "repo dir not found"))
  | e :: rest =>
      if strings.HasPrefix (Name e) (repoName +:+ "-") then
        let tmp := filepath.Join srcParent (Name e) in
        let final := filepath.Join installDir repoName in
        match os.Rename tmp final f with
        | (f, Some err) => (f, inl err)
        | (f, None) => (f, inr final)
        end
      else moveIntoPlace_entries rest srcParent repoName installDir f
  end.

Definition moveIntoPlace (srcParent : path) (repoName : string)
    (installDir : path) (f : fs) : fs * (error + path) :=
  match os.ReadDir srcParent f with
  | inl err => (f, inl err)
  | inr entries =>
      moveIntoPlace_entries entries srcParent repoName installDir f
  end.

(** The loop of [copyFiles] over the entries of [src]; [copy] is the
    recursive call. *)
Fixpoint copy_entries (copy : path → path → fs → fs * option error)
    (entries : list DirEntry) (src dst : path) (f : fs)
  : fs * option error :=
  match entries with
  | [] => (f, None)
  | entry :: rest =>
      let srcPath := filepath.Join src (Name entry) in
      let dstPath := filepath.Join dst (Name entry) in
      if IsDir entry then
        let f := (os.MkdirAll dstPath 493 f).1 in
        match copy srcPath dstPath f with
        | (f, Some err) => (f, Some err)
        | (f, None) => copy_entries copy rest src dst f
        end
      else
        match os.ReadFile srcPath f with
        | inl err => (f, Some err)
        | inr data =>
            match os.WriteFile dstPath data 420 f with   (* 0644 *)
            | (f, Some err) => (f, Some err)
            | (f, None) => copy_entries copy rest src dst f
            end
        end
  end.

(** [copyFiles(src, dst)].  The recursion follows the directory tree;
    [depth] bounds its nesting, and a tree deeper than that ends the
    copy with an error. *)
Fixpoint copyFiles (depth : nat) (src dst : path) (f : fs)
  : fs * option error :=
  match depth with
  | O => (f, Some (LibError "copyFiles: directory tree too deep"))
  | S depth' =>
      match os.ReadDir src f with
      | inl err => (f, Some err)
      | inr entries => copy_entries (copyFiles depth') entries src dst f
      end
  end.

(** A nesting bound no directory tree of [f] exceeds. *)
Definition tree_depth (f : fs) : nat :=
  S (foldr Nat.max 0 ((λ kv : path * node, List.length kv.1) <$> map_to_list f)).

(** ** Orchestrator

    [main] runs on a world, the file system with standard output, and
    either runs to its end or leaves through [os.Exit]. *)

Record world := { w_fs : fs; w_out : stdout }.

Inductive outcome (A : Type) :=
| Done (a : A)
| Exit (code : Z).
Arguments Done {A} a.
Arguments Exit {A} code.

Definition M (A : Type) : Type := world → world * outcome A.

#[global] Instance M_ret : MRet M := λ A a w, (w, Done a).

#[global] Instance M_bind : MBind M := λ A B k m w,
  match m w with
  | (w', Done a) => k a w'
  | (w', Exit c) => (w', Exit c)
  end.

(** [fmt.Println] or [fmt.Printf] of one line. *)
Definition Println (s : string) : M unit :=
  λ w, ({| w_fs := w_fs w; w_out := w_out w ++ [s] |}, Done tt).

(** An operation of package [os] or one of the functions above run on
    the file system of the world. *)
Definition on_fs {A} (op : fs → fs * A) : M A :=
  λ w, let '(f, a) := op (w_fs w) in
       ({| w_fs := f; w_out := w_out w |}, Done a).

Definition on_out {A} (op : stdout → stdout * A) : M A :=
  λ w, let '(o, a) := op (w_out w) in
       ({| w_fs := w_fs w; w_out := o |}, Done a).

Definition on_world (op : world → world) : M unit :=
  λ w, (op w, Done tt).

Definition os_Exit {A} (code : Z) : M A := λ w, (w, Exit code).

(** [if err != nil { fmt.Println(msg, err); os.Exit(1) }] *)
Definition orExit {A} (msg : string) (r : error + A) : M A :=
  match r with
  | inl err => Println (msg +:+ " " +:+ error_string err);; os_Exit 1
  | inr a => mret a
  end.

Definition checkExit (msg : string) (r : option error) : M unit :=
  match r with
  | Some err => Println (msg +:+ " " +:+ error_string err);; os_Exit 1
  | None => mret tt
  end.

(** The directories [main] names, as functions of [installDir]. *)
Definition tmpDir (installDir : path) : path :=
  filepath.Join installDir "xmlui-source".
Definition mcpDir (installDir : path) : path :=
  filepath.Join installDir "mcp".
Definition docsDir (installDir : path) : path :=
  filepath.Join (mcpDir installDir) "docs".
Definition srcDir (installDir : path) : path :=
  filepath.Join (mcpDir installDir) "src".
Definition tmpMCP (installDir : path) : path :=
  filepath.Join installDir "mcpTmp".

(** Step 1: the application archive (lines 191-206). *)
Definition main_app (E : env) (installDir : path) : M path :=
  Println "Step 1/5: Downloading XMLUI invoice app...";;
  r ← on_out (downloadWithProgress E appZipURL "XMLUI invoice app");
  appZip ← orExit "Failed to download app:" r;
  err ← on_fs (unzipTo E appZip installDir);
  checkExit "Failed to extract app:" err;;
  r ← on_fs (moveIntoPlace installDir repoName installDir);
  orExit "Failed to organize app directory:" r.

(** The search for the root of the extracted component library. *)
Fixpoint findSourceRoot (entries : list DirEntry) (tmpDir : path)
  : option path :=
  match entries with
  | [] => None
  | e :: rest =>
      if IsDir e && strings.HasPrefix (Name e) "xmlui-" then
        Some (filepath.Join tmpDir (Name e))
      else findSourceRoot rest tmpDir
  end.

(** Step 2 up to the cleanup (lines 208-255). *)
Definition main_components_body (E : env) (installDir : path) : M unit :=
  Println "Step 2/5: Downloading XMLUI components...";;
  r ← on_out (downloadWithProgress E xmluiRepoZip "XMLUI repo");
  xmluiZip ← orExit "Failed to download XMLUI source:" r;
  on_fs (os.MkdirAll (tmpDir installDir) 493);;
  err ← on_fs (unzipTo E xmluiZip (tmpDir installDir));
  checkExit "Failed to extract XMLUI source:" err;;
  r ← on_fs (λ f, (f, os.ReadDir (tmpDir installDir) f));
  let entries := match r with inr entries => entries | inl _ => [] end in
  let sourceRoot := findSourceRoot entries (tmpDir installDir) in
  on_fs (os.MkdirAll (mcpDir installDir) 493);;
  on_fs (os.MkdirAll (docsDir installDir) 493);;
  on_fs (os.MkdirAll (srcDir installDir) 493);;
  match sourceRoot with
  | Some sourceRoot =>
      let docsComponents :=
        filepath.Join (filepath.Join (docsDir installDir) "pages") "components" in
      let srcComponents := filepath.Join (srcDir installDir) "components" in
      on_fs (os.MkdirAll docsComponents 493);;
      on_fs (os.MkdirAll srcComponents 493);;
      on_fs (λ f, copyFiles (tree_depth f)
               (filepath.Join (filepath.Join (filepath.Join sourceRoot "docs")
                                 "pages") "components")
               docsComponents f);;
      on_fs (λ f, copyFiles (tree_depth f)
               (filepath.Join (filepath.Join (filepath.Join sourceRoot "xmlui")
                                 "src") "components")
               srcComponents f);;
      Println "✓ Extracted components"
  | None => mret tt
  end.

(** Step 2 (lines 208-258): the body, then [os.RemoveAll(tmpDir)]. *)
Definition main_components (E : env) (installDir : path) : M unit :=
  main_components_body E installDir;;
  on_fs (os.RemoveAll (tmpDir installDir));;
  mret tt.

(** The files [main] expects in the tool archive (lines 283-288). *)
Definition expectedFiles (E : env) : list string :=
  if String.eqb (GOOS E) "windows" then
    ["xmlui-mcp.exe"; "xmlui-mcp-client.exe"; "run-mcp-client.bat"]
  else
    ["xmlui-mcp"; "xmlui-mcp-client"; "prepare-binaries.sh"; "run-mcp-client.sh"].

(** The relocation loop (lines 290-303).  It has no way out but its
    end, so it is a function from worlds to worlds. *)
Fixpoint relocate (E : env) (installDir : path) (names : list string)
    (w : world) : world :=
  match names with
  | [] => w
  | name :: rest =>
      let src := filepath.Join (tmpMCP installDir) name in
      let dst := filepath.Join (mcpDir installDir) name in
      match os.Rename src dst (w_fs w) with
      | (f, Some err) =>
          relocate E installDir rest
            {| w_fs := f;
               w_out := w_out w ++
                 ["  Skipping " +:+ name +:+ " (not found?): "
                  +:+ error_string err] |}
      | (f, None) =>
          let out := w_out w ++
            ["  Moved " +:+ name +:+ " to " +:+ filepath.to_string dst] in
          let f :=
            if negb (String.eqb (GOOS E) "windows")
               && (strings.HasSuffix name ".sh"
                   || negb (strings.Contains name "."))
            then (os.Chmod dst 493 f).1
            else f in
          relocate E installDir rest {| w_fs := f; w_out := out |}
      end
  end.

(** Step 3 up to the cleanup (lines 260-303). *)
Definition main_tools_body (E : env) (installDir : path) : M unit :=
  Println "Step 3/5: Downloading MCP tools...";;
  let mcpUrl := getPlatformSpecificMCPURL (GOOS E) (GOARCH E) in
  r ← on_out (downloadWithProgress E mcpUrl "MCP tools");
  mcpArchive ← orExit "Failed to download MCP tools:" r;
  on_fs (os.MkdirAll (tmpMCP installDir) 493);;
  err ← (if strings.HasSuffix mcpUrl ".zip"
         then on_fs (unzipTo E mcpArchive (tmpMCP installDir))
         else on_fs (untarGzTo E mcpArchive (tmpMCP installDir)));
  checkExit "Failed to extract MCP tools:" err;;
  on_world (relocate E installDir (expectedFiles E)).

(** Step 3 (lines 260-306): the body, then [os.RemoveAll(tmpMCP)]. *)
Definition main_tools (E : env) (installDir : path) : M unit :=
  main_tools_body E installDir;;
  on_fs (os.RemoveAll (tmpMCP installDir));;
  mret tt.

(** One of the two moves of lines 308-319. *)
Definition moveStray (installDir : path) (name : string) (target : path)
  : M unit :=
  st ← on_fs (λ f, (f, os.Stat f (filepath.Join installDir name)));
  match st with
  | Some _ =>
      err ← on_fs (os.Rename (filepath.Join installDir name) target);
      match err with
      | Some err =>
          Println ("Warning: Could not move " +:+ name +:+ " directory: "
                   +:+ error_string err)
      | None => mret tt
      end
  | None => mret tt
  end.

(** Lines 308-319. *)
Definition main_stray (installDir : path) : M unit :=
  moveStray installDir "docs" (docsDir installDir);;
  moveStray installDir "src" (srcDir installDir).

(** Step 4: the server archive (lines 321-344). *)
Definition main_server (E : env) (appDir : path) : M unit :=
  Println "Step 4/5: Downloading XMLUI test server...";;
  let serverURL := getPlatformSpecificServerURL (GOOS E) (GOARCH E) in
  r ← on_out (downloadWithProgress E serverURL "test server");
  serverArchive ← orExit "Failed to download server:" r;
  err ← (if strings.HasSuffix serverURL ".zip"
         then on_fs (unzipTo E serverArchive appDir)
         else on_fs (untarGzTo E serverArchive appDir));
  checkExit "Failed to extract server:" err;;
  let startScriptPath := filepath.Join appDir "start.sh" in
  if negb (String.eqb (GOOS E) "windows") then
    on_fs (os.Chmod startScriptPath 493);; mret tt
  else mret tt.

Definition dquote : string := String (Ascii.ascii_of_nat 34) "".
Definition crlf : string :=
  String (Ascii.ascii_of_nat 13) (String (Ascii.ascii_of_nat 10) "").
Definition lf : string := String (Ascii.ascii_of_nat 10) "".

(** The cleanup script (lines 346-373). *)
Definition main_cleanup (E : env) (installDir : path) : M unit :=
  let self := filepath.Base_string (Args0 E) in
  (if String.eqb (GOOS E) "windows" then
     let cleanupScript := "@echo off" +:+ crlf in
     let cleanupScript :=
       cleanupScript +:+ "echo Cleaning up temporary files..." +:+ crlf in
     let cleanupScript :=
       cleanupScript +:+ "if exist " +:+ dquote +:+ self +:+ dquote
       +:+ " del " +:+ dquote +:+ self +:+ dquote +:+ crlf in
     let cleanupScript := cleanupScript +:+ "if exist *.zip del *.zip" +:+ crlf in
     let cleanupScript := cleanupScript +:+ "del cleanup.bat" +:+ crlf in
     on_fs (os.WriteFile (filepath.Join installDir "cleanup.bat")
              cleanupScript 493);;
     Println "Note: Run cleanup.bat to remove the bundler executable and temporary files"
   else
     let cleanupScript := "#!/bin/sh" +:+ lf in
     let cleanupScript :=
       cleanupScript +:+ "echo Cleaning up temporary files..." +:+ lf in
     let cleanupScript :=
       cleanupScript +:+ "rm -f " +:+ dquote +:+ self +:+ dquote +:+ lf in
     let cleanupScript := cleanupScript +:+ "rm -f *.zip" +:+ lf in
     let cleanupScript := cleanupScript +:+ "rm -f *.tar.gz" +:+ lf in
     let cleanupScript := cleanupScript +:+ "rm -f cleanup.sh" +:+ lf in
     on_fs (os.WriteFile (filepath.Join installDir "cleanup.sh")
              cleanupScript 493);;
     on_fs (os.Chmod (filepath.Join installDir "cleanup.sh") 493);;
     Println "Note: Run ./cleanup.sh to remove the bundler executable and temporary files");;
  Println "✓ Organized layout complete";;
  Println "";;
  Println ("Install location: " +:+ filepath.to_string installDir).

Definition main (E : env) : M unit :=
  let installDir := Getwd E in
  on_fs (os.MkdirAll installDir 493);;
  appDir ← main_app E installDir;
  main_components E installDir;;
  main_tools E installDir;;
  main_stray installDir;;
  main_server E appDir;;
  main_cleanup E installDir.

(** The exit status of a run: 0 at the end of [main]. *)
Definition exit_status (r : world * outcome unit) : Z :=
  match r.2 with Done _ => 0 | Exit c => c end.

(** The stream that yields the entries of [pre], then what [s] yields. *)
Fixpoint tar_prepend (pre : list (tarHeader * reader)) (s : tarStream)
  : tarStream :=
  match pre with
  | [] => s
  | (h, body) :: pre' => TarEntry h body (tar_prepend pre' s)
  end.

(** Every file of [f1], the one at [fpath] apart, is in [f2] with the
    content and the mode it has in [f1]. *)
Definition files_kept (fpath : path) (f1 f2 : fs) : Prop :=
  ∀ q d m, q ≠ fpath → f1 !! q = Some (File d m) → f2 !! q = Some (File d m).

(** The two lines the relocation loop prints for a file. *)
Definition skipLine (name : string) (err : error) : string :=
  "  Skipping " +:+ name +:+ " (not found?): " +:+ error_string err.
Definition movedLine (name : string) (dst : path) : string :=
  "  Moved " +:+ name +:+ " to " +:+ filepath.to_string dst.

(** A line is the skip message of [name]. *)
Definition isSkipLineFor (name line : string) : bool :=
  strings.HasPrefix line ("  Skipping " +:+ name +:+ " (not found?): ").

(** What the relocation loop has done for [name] between the file
    system [f] it started on and the one [f'] it ended on, with the
    line [l] it printed for it: the line is of one of the two kinds; a
    file missing from the staging directory is skipped; a file present
    there is moved, provided [mcp] is a directory and no directory
    bears the name in it; and what is present there is skipped and
    stays where it is when [mcp] is no directory or a directory bears
    the name in it. *)
Definition relocated (d : path) (f f' : fs) (name l : string) : Prop :=
  let src := tmpMCP d ++ [name] in
  let dst := mcpDir d ++ [name] in
  (l = movedLine name dst ∨ ∃ err, l = skipLine name err)
  ∧ (f !! src = None →
     l = skipLine name (LinkError "rename" src dst ENOENT)
     ∧ f' !! src = None
     ∧ f' !! dst = f !! dst)
  ∧ (∀ c m, f !! src = Some (File c m) →
     os.is_dir f (mcpDir d) = true →
     os.node_at f dst ≠ Some Dir →
     l = movedLine name dst
     ∧ f' !! src = None
     ∧ ∃ m', f' !! dst = Some (File c m'))
  ∧ (∀ n, f !! src = Some n →
     os.is_dir f (mcpDir d) = false ∨ os.node_at f dst = Some Dir →
     (∃ err, l = skipLine name err)
     ∧ f' !! src = Some n
     ∧ f' !! dst = f !! dst).

(** Every file of [f'] has the creation mode 0666 or the mode it has
    in [f]. *)
Definition modes_from (f f' : fs) : Prop :=
  ∀ q d m, f' !! q = Some (File d m) →
           m = 438%N ∨ ∃ d', f !! q = Some (File d' m).

(** [p] is a file with mode 0755. *)
Definition executable_at (p : path) (f : fs) : Prop :=
  ∃ d, f !! p = Some (File d 493).

(** Some execute bit of the permission is set (0111). *)
Definition executable (n : node) : bool :=
  match n with
  | File _ perm => negb (N.land perm 73 =? 0)%N
  | Dir => false
  end.

(** ** A sample run

    An environment and a few file systems on which the functions are
    evaluated below.  The archives are named by their content: the
    decoders map each name to the entries of the archive. *)

Module Sample.

Definition zfile (n d : string) : zipFile :=
  {| zf_Name := n; zf_IsDir := false;
     zf_Open := inr {| rd_data := d; rd_err := None |} |}.

Definition zdir (n : string) : zipFile :=
  {| zf_Name := n; zf_IsDir := true;
     zf_Open := inr {| rd_data := ""; rd_err := None |} |}.

Definition tfile (n d : string) (rest : tarStream) : tarStream :=
  TarEntry {| th_Name := n; th_IsDir := false |}
           {| rd_data := d; rd_err := None |} rest.

Definition tdir (n : string) (rest : tarStream) : tarStream :=
  TarEntry {| th_Name := n; th_IsDir := true |}
           {| rd_data := ""; rd_err := None |} rest.

(** The body the sample server sends for a URL. *)
Definition body_of (url : string) : string :=
  if String.eqb url appZipURL then "APP"
  else if String.eqb url xmluiRepoZip then "XMLUI"
  else if strings.Contains url "xmlui-mcp" then "MCP"
  else "SERVER".

Definition serve_ok (req : request) : error + response :=
  inr {| StatusCode := 200; Status := "200 OK";
         Body := {| rd_data := body_of (req_url req); rd_err := None |} |}.

Definition serve_unauthorized (req : request) : error + response :=
  inr {| StatusCode := 401; Status := "401 Unauthorized";
         Body := {| rd_data := ""; rd_err := None |} |}.

(** A server that sends the tool archive for every URL, an archive
    without [start.sh]. *)
Definition serve_tools (req : request) : error + response :=
  inr {| StatusCode := 200; Status := "200 OK";
         Body := {| rd_data := "MCP"; rd_err := None |} |}.

(** A server that answers by the credential: 200 to a request that
    carries one, 401 to a request without. *)
Definition serve_by_credential (req : request) : error + response :=
  match req_auth req with
  | Some _ => serve_ok req
  | None => serve_unauthorized req
  end.

Definition zip_of (data : string) : error + list zipFile :=
  if String.eqb data "APP" then
    inr [zdir "xmlui-invoice-main/";
         zfile "xmlui-invoice-main/Main.xmlui" "<App/>";
         zfile "xmlui-invoice-main/start.sh" "#!/bin/sh"]
  else if String.eqb data "XMLUI" then
    inr [zdir "xmlui-main/";
         zfile "xmlui-main/docs/pages/components/Button.md" "# Button";
         zfile "xmlui-main/xmlui/src/components/Button/Button.tsx" "tsx"]
  else if String.eqb data "MCP" then
    inr [zfile "xmlui-mcp" "ELF"; zfile "xmlui-mcp-client" "ELF";
         zfile "run-mcp-client.sh" "#!/bin/sh"]
  else if String.eqb data "TRUNCATED" then
    inr [zfile "a.txt" "A";
         {| zf_Name := "b.txt"; zf_IsDir := false;
            zf_Open := inr {| rd_data := "B";
                              rd_err := Some (LibError "unexpected EOF") |} |};
         zfile "c.txt" "C"]
  else inl (LibError "zip: not a valid zip file").

Definition targz_of (data : string) : error + tarStream :=
  if String.eqb data "SERVER" then
    inr (tfile "xmlui-test-server" "ELF" (tfile "start.sh" "#!/bin/sh" TarEOF))
  else if String.eqb data "MCP" then
    inr (tfile "xmlui-mcp" "ELF" (tfile "xmlui-mcp-client" "ELF"
           (tfile "run-mcp-client.sh" "#!/bin/sh" TarEOF)))
  else if String.eqb data "DIR-THEN-FILE" then
    inr (tdir "d" (tfile "e.txt" "later" TarEOF))
  else if String.eqb data "TRUNCATED" then
    inr (tfile "a.txt" "A"
           (TarEntry {| th_Name := "b.txt"; th_IsDir := false |}
              {| rd_data := "B"; rd_err := Some (LibError "unexpected EOF") |}
              (tfile "c.txt" "C" TarEOF)))
  else inl (LibError "gzip: invalid header").

Definition sampleEnv (goos : string)
    (serve : request → error + response) : env :=
  {| GOOS := goos; GOARCH := "amd64"; GITHUB_TOKEN := "";
     Args0 := "./xmlui-bundler"; Getwd := ["w"];
     http_NewRequest := λ _, None;
     client_Do := serve;
     zip_NewReader := zip_of;
     gzip_NewReader := targz_of |}.

Definition linux : env := sampleEnv "linux" serve_ok.
Definition linux_unauthorized : env := sampleEnv "linux" serve_unauthorized.

(** An empty working directory [/w]. *)
Definition fresh : fs := {[ ["w"] := Dir ]}.

(** A working directory with a stray [docs] directory. *)
Definition with_docs : fs :=
  <[ ["w"; "docs"; "a.md"] := File "notes" 420 ]>
    (<[ ["w"; "docs"] := Dir ]> fresh).

(** A working directory in which the bundler has run before and the
    application archive has just been extracted again. *)
Definition second_run : fs :=
  <[ ["w"; "xmlui-invoice-main"; "Main.xmlui"] := File "<App/>" 438 ]>
    (<[ ["w"; "xmlui-invoice-main"] := Dir ]>
       (<[ ["w"; "xmlui-invoice"; "Main.xmlui"] := File "<App/>" 438 ]>
          (<[ ["w"; "xmlui-invoice"] := Dir ]> fresh))).

(** A working directory with two extracted application trees and a
    plain file whose name also begins with the prefix. *)
Definition two_trees : fs :=
  <[ ["w"; "xmlui-invoice-main"; "Main.xmlui"] := File "<App/>" 438 ]>
    (<[ ["w"; "xmlui-invoice-main"] := Dir ]>
       (<[ ["w"; "xmlui-invoice-dev"; "Main.xmlui"] := File "<Dev/>" 438 ]>
          (<[ ["w"; "xmlui-invoice-dev"] := Dir ]>
             (<[ ["w"; "xmlui-invoice-notes"] := File "todo" 420 ]> fresh)))).

(** A working directory in which a plain file comes first among the
    names with the prefix. *)
Definition file_first : fs :=
  <[ ["w"; "xmlui-invoice-main"] := Dir ]>
    (<[ ["w"; "xmlui-invoice-a.txt"] := File "todo" 420 ]> fresh).

(** A working directory with a plain file named [d]. *)
Definition with_file_d : fs := <[ ["w"; "d"] := File "x" 420 ]> fresh.

(** A staging directory with two of the four expected files. *)
Definition staged : fs :=
  <[ ["w"; "mcpTmp"; "run-mcp-client.sh"] := File "#!/bin/sh" 438 ]>
    (<[ ["w"; "mcpTmp"; "xmlui-mcp"] := File "ELF" 438 ]>
       (<[ ["w"; "mcpTmp"] := Dir ]> (<[ ["w"; "mcp"] := Dir ]> fresh))).

(** The same, with a directory named [xmlui-mcp] in [mcp]. *)
Definition name_taken : fs := <[ ["w"; "mcp"; "xmlui-mcp"] := Dir ]> staged.

End Sample.

(** ** Further definitions for the properties of the whole program *)

(** The request [downloadWithProgress] hands to the client (lines
    65-78): basic authentication with the token is set for a URL of the
    private host when the token is not empty. *)
Definition requestFor (E : env) (url : string) : request :=
  if strings.Contains url privateHost && negb (String.eqb (GITHUB_TOKEN E) "")
  then {| req_url := url; req_auth := Some (GITHUB_TOKEN E, "x-oauth-basic") |}
  else {| req_url := url; req_auth := None |}.

(** The environment with another HTTP client, and with another token. *)
Definition withClient (E : env) (c : request → error + response) : env :=
  {| GOOS := GOOS E; GOARCH := GOARCH E; GITHUB_TOKEN := GITHUB_TOKEN E;
     Args0 := Args0 E; Getwd := Getwd E;
     http_NewRequest := http_NewRequest E; client_Do := c;
     zip_NewReader := zip_NewReader E; gzip_NewReader := gzip_NewReader E |}.

Definition withToken (E : env) (token : string) : env :=
  {| GOOS := GOOS E; GOARCH := GOARCH E; GITHUB_TOKEN := token;
     Args0 := Args0 E; Getwd := Getwd E;
     http_NewRequest := http_NewRequest E; client_Do := client_Do E;
     zip_NewReader := zip_NewReader E; gzip_NewReader := gzip_NewReader E |}.

(** The names of the entries a tar stream yields. *)
Fixpoint tar_names (s : tarStream) : list string :=
  match s with
  | TarEOF | TarFail _ => []
  | TarEntry h _ rest => th_Name h :: tar_names rest
  end.

(** [f'] differs from [f] outside [dest] at most by directories made
    on the way down to [dest]. *)
Definition confined (dest : path) (f f' : fs) : Prop :=
  ∀ q, ¬ os.under dest q →
    f' !! q = f !! q
    ∨ (f !! q = None ∧ f' !! q = Some Dir ∧ q `prefix_of` dest).

(** A node without its permission. *)
Definition content_of (n : node) : option string :=
  match n with
  | File d _ => Some d
  | Dir => None
  end.

(** Two file systems with the same paths, kinds of node and contents. *)
Definition same_content (f g : fs) : Prop :=
  ∀ q, content_of <$> f !! q = content_of <$> g !! q.

(** An archive as a list of entries, name, directory flag and content,
    and its two readings. *)
Definition as_zip (es : list (string * bool * string)) : list zipFile :=
  (λ e, {| zf_Name := e.1.1; zf_IsDir := e.1.2;
           zf_Open := inr {| rd_data := e.2; rd_err := None |} |}) <$> es.

Definition as_tar (es : list (string * bool * string)) : tarStream :=
  tar_prepend
    ((λ e, ({| th_Name := e.1.1; th_IsDir := e.1.2 |},
            {| rd_data := e.2; rd_err := None |})) <$> es)
    TarEOF.

(** The kind of a node. *)
Definition is_Dir (n : node) : bool :=
  match n with Dir => true | File _ _ => false end.

(** Every path of [f] is a path of [f'], a directory where it was one
    and a file where it was one. *)
Definition kinds_kept (f f' : fs) : Prop :=
  ∀ q n, f !! q = Some n → ∃ n', f' !! q = Some n' ∧ is_Dir n' = is_Dir n.

(** A path of proper names. *)
Abbreviation valid_path p := (Forall (λ c, filepath.valid_name c = true) p).

(** What a copy function keeps: proper names, and every node outside
    the directory it writes to. *)
Definition copy_keeps (copy : path → path → fs → fs * option error) : Prop :=
  ∀ src dst f, names_valid f → valid_path dst →
    names_valid (copy src dst f).1
    ∧ ∀ q n, ¬ os.under dst q → f !! q = Some n →
             (copy src dst f).1 !! q = Some n.

(** The error with which the model of [copyFiles] stops when the
    nesting bound is used up. *)
Definition tooDeep : error := LibError "copyFiles: directory tree too deep".

(** What a copy function leaves exactly as it is: every path that is
    neither at or below the directory it writes to nor on the way down
    to it. *)
Definition copy_exact (copy : path → path → fs → fs * option error) : Prop :=
  ∀ src dst f, names_valid f → valid_path dst →
    ∀ q, ¬ os.under dst q → ¬ q `prefix_of` dst →
         (copy src dst f).1 !! q = f !! q.

Module Tree.

(** A working directory with a library tree [lib] of two levels and an
    empty directory [out]. *)
Definition library : fs :=
  <[ ["w"; "lib"; "sub"; "b.md"] := File "B" 420 ]>
    (<[ ["w"; "lib"; "sub"] := Dir ]>
       (<[ ["w"; "lib"; "a.md"] := File "A" 420 ]>
          (<[ ["w"; "lib"] := Dir ]>
             (<[ ["w"; "out"] := Dir ]> {[ ["w"] := Dir ]})))).

End Tree.


(** No archive the readers of [E] yield has an entry with a [..]
    component in its name. *)
Definition no_dotdot (E : env) : Prop :=
  (∀ data files zf, zip_NewReader E data = inr files → zf ∈ files →
     ".." ∉ filepath.split (zf_Name zf))
  ∧ (∀ data s, gzip_NewReader E data = inr s →
       ".." ∉ mjoin (filepath.split <$> tar_names s)).

(** What an operation on the file system keeps in a run below [d]:
    proper names, and every path outside [d], new directories on the
    way down to [d] apart. *)
Definition op_stays {A} (d : path) (op : fs → fs * A) : Prop :=
  ∀ f, names_valid f → names_valid (op f).1 ∧ confined d f (op f).1.

(** The same for a part of [main], with what holds of its result. *)
Definition stays_in {A} (d : path) (m : M A) (P : A → Prop) : Prop :=
  ∀ w, names_valid (w_fs w) →
    names_valid (w_fs (m w).1) ∧ confined d (w_fs w) (w_fs (m w).1)
    ∧ ∀ a, (m w).2 = Done a → P a.

(** A part of [main] leaves only with status 1, after a line that
    begins with [Failed to]. *)
Definition exits_reported {A} (m : M A) : Prop :=
  ∀ w w' c, m w = (w', Exit c) →
    c = 1%Z
    ∧ ∃ l, last (w_out w') = Some l ∧ strings.HasPrefix l "Failed to " = true.

(** The text of [cleanup.sh] (lines 361-366). *)
Definition cleanup_sh (self : string) : string :=
  "#!/bin/sh" +:+ lf +:+ "echo Cleaning up temporary files..." +:+ lf
  +:+ "rm -f " +:+ dquote +:+ self +:+ dquote +:+ lf
  +:+ "rm -f *.zip" +:+ lf +:+ "rm -f *.tar.gz" +:+ lf
  +:+ "rm -f cleanup.sh" +:+ lf.

(** A copy function that writes nothing outside its destination. *)
Definition copy_confined (copy : path → path → fs → fs * option error) : Prop :=
  ∀ src dst f, names_valid f → valid_path dst →
    confined dst f (copy src dst f).1.

(** A part of [main] that runs to its end has printed [l] last. *)
Definition ends_with {A} (l : string) (m : M A) : Prop :=
  ∀ w w' a, m w = (w', Done a) → last (w_out w') = Some l.

(** ** The claims of the specification that the code does not meet,
    as the specification words them *)

(** The tool-archive URL ends in [.zip] exactly when the operating
    system is Windows, and in [.tar.gz] for every other one. *)
Definition mcp_format_as_stated (GOOS GOARCH : string) : Prop :=
  let url := getPlatformSpecificMCPURL GOOS GOARCH in
  (strings.HasSuffix url ".zip" = true ↔ GOOS = "windows")
  ∧ (GOOS ≠ "windows" → strings.HasSuffix url ".tar.gz" = true).

(* ================================================================== *)
(** * Properties *)
(* ================================================================== *)

(** ** Platform resolver *)

Section Resolver.

Local Ltac by_os GOOS :=
  destruct (String.eqb_spec GOOS "darwin") as [->|Hd];
  [|destruct (String.eqb_spec GOOS "linux") as [->|Hl];
    [|destruct (String.eqb_spec GOOS "windows") as [->|Hw]]].

Lemma mcp_url_cases GOOS GOARCH :
  (GOOS = "darwin" ∧ GOARCH = "arm64" ∧
     getPlatformSpecificMCPURL GOOS GOARCH = defaultMCPURL)
  ∨ (GOOS = "darwin" ∧ GOARCH ≠ "arm64" ∧
     getPlatformSpecificMCPURL GOOS GOARCH =
       "https://github.com/jonudell/xmlui-mcp/releases/download/v1.0.0/xmlui-mcp-mac-amd.tar.gz")
  ∨ (GOOS = "linux" ∧
     getPlatformSpecificMCPURL GOOS GOARCH =
       "https://github.com/jonudell/xmlui-mcp/releases/download/v1.0.0/xmlui-mcp-linux-amd64.zip")
  ∨ (GOOS = "windows" ∧
     getPlatformSpecificMCPURL GOOS GOARCH =
       "https://github.com/jonudell/xmlui-mcp/releases/download/v1.0.0/xmlui-mcp-windows-amd64.zip")
  ∨ (¬ recognizedOS GOOS ∧
     getPlatformSpecificMCPURL GOOS GOARCH = defaultMCPURL).
Proof.
  unfold getPlatformSpecificMCPURL, recognizedOS.
  by_os GOOS.
  - destruct (String.eqb_spec GOARCH "arm64") as [->|Ha]; auto.
  - auto.
  - auto 6.
  - do 4 right. split; [intuition congruence | reflexivity].
Qed.

Lemma server_url_cases GOOS GOARCH :
  (GOOS = "darwin" ∧ GOARCH = "arm64" ∧
     getPlatformSpecificServerURL GOOS GOARCH = defaultServerURL)
  ∨ (GOOS = "darwin" ∧ GOARCH ≠ "arm64" ∧
     getPlatformSpecificServerURL GOOS GOARCH =
       "https://github.com/JonUdell/xmlui-test-server/releases/download/v1.0.0/xmlui-test-server-mac-amd.tar.gz")
  ∨ (GOOS = "linux" ∧
     getPlatformSpecificServerURL GOOS GOARCH =
       "https://github.com/JonUdell/xmlui-test-server/releases/download/v1.0.0/xmlui-test-server-linux-amd64.tar.gz")
  ∨ (GOOS = "windows" ∧
     getPlatformSpecificServerURL GOOS GOARCH =
       "https://github.com/JonUdell/xmlui-test-server/releases/download/v1.0.0/xmlui-test-server-windows-amd64.zip")
  ∨ (¬ recognizedOS GOOS ∧
     getPlatformSpecificServerURL GOOS GOARCH = defaultServerURL).
Proof.
  unfold getPlatformSpecificServerURL, recognizedOS.
  by_os GOOS.
  - destruct (String.eqb_spec GOARCH "arm64") as [->|Ha]; auto.
  - auto.
  - auto 6.
  - do 4 right. split; [intuition congruence | reflexivity].
Qed.

End Resolver.

(** C1, as stated, at one platform: the tool-archive URL ends in
    [.zip] exactly when the system is Windows and in [.tar.gz]
    otherwise.  On Linux the resolver names a [.zip] asset. *)
Lemma C1_linux_tool_archive_is_zip :
  ¬ mcp_format_as_stated "linux" "amd64".
Proof.
  unfold mcp_format_as_stated. intros [Hzip _].
  assert (H : "linux" = "windows") by (apply Hzip; vm_compute; reflexivity).
  discriminate H.
Qed.

(** C1, amended: for every operating system and architecture the
    tool-archive URL ends in [.zip] exactly on Windows and Linux and in
    [.tar.gz] on every other system; the server-archive URL ends in
    [.zip] exactly on Windows and in [.tar.gz] otherwise; and for every
    operating system that is none of darwin, linux and windows both
    resolvers return their default, the macOS ARM64 asset. *)
Theorem C1_resolver_url_format (GOOS GOARCH : string) :
  let mcp := getPlatformSpecificMCPURL GOOS GOARCH in
  let srv := getPlatformSpecificServerURL GOOS GOARCH in
  (strings.HasSuffix mcp ".zip" = true ↔ GOOS = "windows" ∨ GOOS = "linux")
  ∧ (strings.HasSuffix mcp ".tar.gz" = true ↔
       ¬ (GOOS = "windows" ∨ GOOS = "linux"))
  ∧ (strings.HasSuffix srv ".zip" = true ↔ GOOS = "windows")
  ∧ (strings.HasSuffix srv ".tar.gz" = true ↔ GOOS ≠ "windows")
  ∧ (¬ recognizedOS GOOS → mcp = defaultMCPURL ∧ srv = defaultServerURL).
Proof.
  intros mcp srv. subst mcp srv. unfold recognizedOS.
  pose proof (server_url_cases GOOS GOARCH) as Hs.
  destruct (mcp_url_cases GOOS GOARCH)
    as [(-> & _ & ->)|[(-> & _ & ->)|[(-> & ->)|[(-> & ->)|(Hn & ->)]]]];
  destruct Hs
    as [(? & _ & ->)|[(? & _ & ->)|[(? & ->)|[(? & ->)|(Hn' & ->)]]]];
  try discriminate; unfold recognizedOS in *;
  repeat split; try (vm_compute; intuition congruence);
  try (intros; exfalso; intuition congruence).
Qed.

(** C9: for every operating system other than darwin the two resolvers
    return the same URL for any two architectures; Linux on arm64 gets
    the amd64 assets. *)
Theorem C9_arch_ignored_off_darwin (GOOS a1 a2 : string) :
  GOOS ≠ "darwin" →
  getPlatformSpecificMCPURL GOOS a1 = getPlatformSpecificMCPURL GOOS a2
  ∧ getPlatformSpecificServerURL GOOS a1 = getPlatformSpecificServerURL GOOS a2
  ∧ getPlatformSpecificMCPURL "linux" "arm64" =
      "https://github.com/jonudell/xmlui-mcp/releases/download/v1.0.0/xmlui-mcp-linux-amd64.zip"
  ∧ getPlatformSpecificServerURL "linux" "arm64" =
      "https://github.com/JonUdell/xmlui-test-server/releases/download/v1.0.0/xmlui-test-server-linux-amd64.tar.gz".
Proof.
  intros Hd. unfold getPlatformSpecificMCPURL, getPlatformSpecificServerURL.
  destruct (String.eqb_spec GOOS "darwin") as [->|_]; [done|].
  repeat split.
Qed.

Lemma C9_witness :
  "linux" ≠ "darwin"
  ∧ getPlatformSpecificMCPURL "linux" "arm64" =
      getPlatformSpecificMCPURL "linux" "amd64"
  ∧ getPlatformSpecificServerURL "linux" "riscv64" =
      getPlatformSpecificServerURL "linux" "amd64".
Proof.
  split; [discriminate|].
  split.
  - apply (C9_arch_ignored_off_darwin "linux" "arm64" "amd64"). discriminate.
  - apply (C9_arch_ignored_off_darwin "linux" "riscv64" "amd64"). discriminate.
Defined.

(** ** Fetcher *)

(** C5: when the server answers the request the fetch sends for
    [url], which is [requestFor E url], with [resp], the fetch returns
    - on a status other than 200 that is 401 for a URL of the
      private-repository host, the authentication error, whose text
      names the credential to check;
    - on any other status other than 200, whatever the URL, the
      request-failed error with the status and the URL;
    - on status 200, the bytes of the response body. *)
Theorem C5_download_status (E : env) (url filename : string)
    (out : stdout) (resp : response) :
  http_NewRequest E url = None →
  client_Do E (requestFor E url) = inr resp →
  let result := (downloadWithProgress E url filename out).2 in
  (StatusCode resp ≠ http.StatusOK →
   strings.Contains url privateHost = true →
   StatusCode resp = http.StatusUnauthorized →
   result = inl (Errorf
     ("authentication failed for private repository: " +:+ url
      +:+ " (status: " +:+ Status resp +:+ ") - check PAT_TOKEN")))
  ∧ (StatusCode resp ≠ http.StatusOK →
     ¬ (strings.Contains url privateHost = true
        ∧ StatusCode resp = http.StatusUnauthorized) →
     result = inl (Errorf
       ("request failed: " +:+ Status resp +:+ " for URL: " +:+ url)))
  ∧ (StatusCode resp = http.StatusOK →
     ∀ data, io.ReadAll (Body resp) = inr data → result = inr data).
Proof.
  intros Hreq Hdo result. subst result. unfold downloadWithProgress.
  rewrite Hreq.
  set (out1 := (out ++ _) ++ _).
  set (auth := if strings.Contains url privateHost then _ else _).
  assert (Hsent : auth.2 = requestFor E url).
  { subst auth. unfold requestFor.
    destruct (strings.Contains url privateHost); [|done].
    destruct (negb _); done. }
  destruct auth as [out2 req]. simpl in Hsent. subst req.
  rewrite Hdo.
  repeat split.
  - intros Hne Hpriv H401.
    destruct (Z.eqb_spec (StatusCode resp) http.StatusOK) as [?|_]; [done|].
    simpl. rewrite Hpriv, H401. reflexivity.
  - intros Hne Hnot.
    destruct (Z.eqb_spec (StatusCode resp) http.StatusOK) as [?|_]; [done|].
    simpl.
    destruct (strings.Contains url privateHost); simpl; [|done].
    destruct (Z.eqb_spec (StatusCode resp) http.StatusUnauthorized);
      [exfalso; auto | done].
  - intros H200 data Hdata.
    rewrite H200. simpl. rewrite Hdata. reflexivity.
Qed.

(** ** The file system: what the operations read and leave alone *)

Section FS.
Implicit Types (f : fs) (p q old new : path).

Lemma under_refl p : os.under p p.
Proof. unfold os.under. reflexivity. Qed.

Lemma RemoveAll_lookup p f q :
  (os.RemoveAll p f).1 !! q = if decide (os.under p q) then None else f !! q.
Proof.
  unfold os.RemoveAll. simpl.
  destruct (decide (os.under p q)) as [Hu|Hu].
  - apply map_lookup_filter_None. right. intros n _ Hn. apply Hn. exact Hu.
  - destruct (f !! q) as [n|] eqn:Hq.
    + apply map_lookup_filter_Some. split; [done|]. exact Hu.
    + apply map_lookup_filter_None. left. done.
Qed.

Lemma rebase_key_under old new kv : os.under new (os.rebase old new kv).1.
Proof. unfold os.rebase, os.under. simpl. apply prefix_app_r. reflexivity. Qed.

Lemma move_tree_lookup_other old new f q :
  ¬ os.under old q → ¬ os.under new q →
  os.move_tree old new f !! q = f !! q.
Proof.
  intros Ho Hn. unfold os.move_tree.
  rewrite lookup_union_r.
  - destruct (f !! q) as [n|] eqn:Hq.
    + apply map_lookup_filter_Some. split; [done|]. simpl. done.
    + apply map_lookup_filter_None. left. done.
  - apply not_elem_of_list_to_map_1.
    intros Hin. apply list_elem_of_fmap in Hin as (kv' & -> & Hin).
    apply list_elem_of_fmap in Hin as (kv & -> & _).
    apply Hn. apply rebase_key_under.
Qed.

Lemma move_tree_lookup_moved old new f s :
  os.move_tree old new f !! (new ++ s) = f !! (old ++ s).
Proof.
  unfold os.move_tree.
  set (l := map_to_list (filter _ f)).
  assert (Hnd : NoDup ((os.rebase old new <$> l).*1)).
  { rewrite <- list_fmap_compose.
    apply NoDup_fmap_2_strong; [|apply NoDup_map_to_list].
    intros [k1 v1] [k2 v2] H1 H2 Heq. simpl in Heq.
    apply elem_of_map_to_list in H1, H2.
    apply map_lookup_filter_Some in H1 as [H1 [s1 E1]].
    apply map_lookup_filter_Some in H2 as [H2 [s2 E2]].
    simpl in *. subst k1 k2. rewrite !drop_app_length in Heq.
    apply app_inv_head in Heq. subst s2. congruence. }
  destruct (f !! (old ++ s)) as [n|] eqn:Hq.
  - apply lookup_union_Some_l.
    apply elem_of_list_to_map; [exact Hnd|].
    apply list_elem_of_fmap. exists (old ++ s, n). split.
    + unfold os.rebase. simpl. by rewrite drop_app_length.
    + apply elem_of_map_to_list. apply map_lookup_filter_Some.
      split; [done|]. simpl. apply prefix_app_r. reflexivity.
  - apply lookup_union_None. split.
    + apply not_elem_of_list_to_map_1.
      intros Hin. apply list_elem_of_fmap in Hin as (kv' & Hk & Hin).
      apply list_elem_of_fmap in Hin as ([k v] & -> & Hin).
      apply elem_of_map_to_list in Hin.
      apply map_lookup_filter_Some in Hin as [Hin [s1 E1]].
      simpl in *. subst k. rewrite drop_app_length in Hk.
      apply app_inv_head in Hk. subst s. congruence.
    + apply map_lookup_filter_None. right. intros n _ [_ Hn]. simpl in Hn.
      apply Hn. apply prefix_app_r. reflexivity.
Qed.

Lemma move_tree_lookup_gone old new f q :
  os.under old q → ¬ os.under new q → os.move_tree old new f !! q = None.
Proof.
  intros Ho Hn. unfold os.move_tree. apply lookup_union_None. split.
  - apply not_elem_of_list_to_map_1.
    intros Hin. apply list_elem_of_fmap in Hin as (kv' & -> & Hin).
    apply list_elem_of_fmap in Hin as (kv & -> & _).
    apply Hn. apply rebase_key_under.
  - apply map_lookup_filter_None. right. intros n _ [Hno _]. simpl in Hno. done.
Qed.
End FS.
Section Paths.
Lemma append_snoc (a : string) (c : ascii) (s : string) :
  (a +:+ String c "") +:+ s = a +:+ String c s.
Proof.
  induction a as [|x a IH]; [reflexivity|].
  change (String x ((a +:+ String c "") +:+ s) = String x (a +:+ String c s)).
  by rewrite IH.
Qed.

Lemma append_empty_r (a : string) : a +:+ "" = a.
Proof.
  induction a as [|x a IH]; [reflexivity|].
  change (String x (a +:+ "") = String x a). by rewrite IH.
Qed.

Lemma split_from_no_slash (s cur : string) :
  filepath.no_slash s = true → filepath.split_from cur s = [cur +:+ s].
Proof.
  revert cur. induction s as [|c s IH]; intros cur Hs; simpl.
  - by rewrite append_empty_r.
  - simpl in Hs. apply andb_prop in Hs as [Hc Hs].
    apply negb_true_iff in Hc. rewrite Hc.
    rewrite (IH _ Hs). f_equal. apply append_snoc.
Qed.

Lemma Join_valid (p : path) (c : string) :
  filepath.valid_name c = true → filepath.Join p c = p ++ [c].
Proof.
  unfold filepath.valid_name, filepath.Join, filepath.split. intros H.
  apply andb_prop in H as [H Hs]. apply andb_prop in H as [H H2].
  apply andb_prop in H as [H0 H1].
  rewrite (split_from_no_slash _ _ Hs).
  change ("" +:+ c) with c. simpl. unfold filepath.enter.
  apply negb_true_iff in H0, H1, H2. by rewrite H0, H1, H2.
Qed.

Lemma Dir_snoc (p : path) (c : string) : filepath.Dir (p ++ [c]) = p.
Proof. unfold filepath.Dir. apply removelast_last. Qed.

Lemma under_snoc_inv (p : path) (a b : string) :
  os.under (p ++ [a]) (p ++ [b]) → a = b.
Proof.
  intros [s Hs]. rewrite <- app_assoc in Hs.
  apply app_inv_head in Hs. simpl in Hs. congruence.
Qed.

Lemma under_snoc_app_inv (p : path) (a b : string) (s : path) :
  os.under (p ++ [a]) (p ++ b :: s) → a = b.
Proof.
  intros [t Ht]. rewrite <- app_assoc in Ht.
  apply app_inv_head in Ht. simpl in Ht. congruence.
Qed.
End Paths.

Section Listing.
Implicit Types (f : fs) (p : path).

Lemma insert_name_elem (x e : DirEntry) (l : list DirEntry) :
  x ∈ os.insert_name e l ↔ x = e ∨ x ∈ l.
Proof.
  induction l as [|e' l IH]; simpl.
  - rewrite list_elem_of_singleton, elem_of_nil. tauto.
  - destruct (String.leb _ _).
    + rewrite !elem_of_cons. tauto.
    + rewrite !elem_of_cons, IH. tauto.
Qed.

Lemma sort_names_elem (x : DirEntry) (l : list DirEntry) :
  x ∈ os.sort_names l ↔ x ∈ l.
Proof.
  unfold os.sort_names. induction l as [|e l IH]; simpl; [done|].
  rewrite insert_name_elem, IH, elem_of_cons. tauto.
Qed.

Lemma entry_of_Some p (k : path) (n : node) (e : DirEntry) :
  os.entry_of p (k, n) = Some e ↔
  k = p ++ [Name e]
  ∧ IsDir e = match n with Dir => true | _ => false end.
Proof.
  unfold os.entry_of. simpl.
  destruct (List.rev k) as [|nm rd] eqn:Hk.
  - split; [done|]. intros [-> _]. rewrite rev_app_distr in Hk. done.
  - assert (Hk' : k = List.rev rd ++ [nm]).
    { rewrite <- (rev_involutive k), Hk. reflexivity. }
    case_bool_decide as Hrd.
    + subst. split.
      * intros [= <-]. done.
      * intros [Heq Hd]. apply app_inj_tail in Heq as [_ ->].
        destruct e; simpl in *; by subst.
    + split; [done|]. intros [Heq _]. subst k.
      apply app_inj_tail in Heq as [Heq _]. done.
Qed.

Lemma ReadDir_elem p f (entries : list DirEntry) (e : DirEntry) :
  os.ReadDir p f = inr entries →
  e ∈ entries ↔
  ∃ n, f !! (p ++ [Name e]) = Some n
       ∧ IsDir e = match n with Dir => true | _ => false end.
Proof.
  unfold os.ReadDir. destruct (os.node_at f p) as [[]|]; try done.
  intros [= <-]. rewrite sort_names_elem, list_elem_of_omap. split.
  - intros ([k n] & Hin & He). apply elem_of_map_to_list in Hin.
    apply entry_of_Some in He as [-> Hd]. eauto.
  - intros (n & Hn & Hd). exists (p ++ [Name e], n). split.
    + by apply elem_of_map_to_list.
    + by apply entry_of_Some.
Qed.

Lemma ReadDir_is_dir p f (entries : list DirEntry) :
  os.ReadDir p f = inr entries → os.is_dir f p = true.
Proof.
  unfold os.ReadDir, os.is_dir.
  destruct (os.node_at f p) as [[]|]; done.
Qed.

Lemma node_at_snoc f p (c : string) : os.node_at f (p ++ [c]) = f !! (p ++ [c]).
Proof. unfold os.node_at. destruct (p ++ [c]) eqn:H; [|done]. by destruct p. Qed.
End Listing.
Section Ops.
Implicit Types (f : fs) (p q old new : path).

Lemma mkdir_walk_keeps (rest : list string) (done : path) f q (n : node) :
  f !! q = Some n → (os.mkdir_walk done rest f).1 !! q = Some n.
Proof.
  revert done f. induction rest as [|c rest IH]; intros done f Hq; simpl.
  - exact Hq.
  - destruct (f !! (done ++ [c])) as [[d m|]|] eqn:Hh; simpl.
    + exact Hq.
    + by apply IH.
    + apply IH. rewrite lookup_insert_ne; [done|]. congruence.
Qed.

Lemma MkdirAll_keeps p (perm : N) f q (n : node) :
  f !! q = Some n → (os.MkdirAll p perm f).1 !! q = Some n.
Proof. apply mkdir_walk_keeps. Qed.

Lemma Create_other p f q : q ≠ p → (os.Create p f).1 !! q = f !! q.
Proof.
  intros Hne. unfold os.Create.
  destruct (os.node_at f p) as [[d m|]|]; simpl.
  - by rewrite lookup_insert_ne.
  - done.
  - destruct (os.node_at f (filepath.Dir p)) as [[d m|]|]; simpl; try done.
    by rewrite lookup_insert_ne.
Qed.

Lemma Create_fails p f (err : error) :
  (os.Create p f).2 = inl err → (os.Create p f).1 = f.
Proof.
  unfold os.Create.
  destruct (os.node_at f p) as [[d m|]|]; simpl; try done.
  destruct (os.node_at f (filepath.Dir p)) as [[d m|]|]; simpl; done.
Qed.

Lemma Create_ok p f (out : path) : (os.Create p f).2 = inr out → out = p.
Proof.
  unfold os.Create.
  destruct (os.node_at f p) as [[d m|]|]; simpl; try congruence.
  destruct (os.node_at f (filepath.Dir p)) as [[d m|]|]; simpl; congruence.
Qed.

Lemma Write_other p (b : string) f q : q ≠ p → os.Write p b f !! q = f !! q.
Proof.
  intros Hne. unfold os.Write. destruct (f !! p) as [[d m|]|]; try done.
  by rewrite lookup_insert_ne.
Qed.

Lemma Chmod_other p (mode : N) f q :
  q ≠ p → (os.Chmod p mode f).1 !! q = f !! q.
Proof.
  intros Hne. unfold os.Chmod.
  destruct (os.node_at f p) as [[d m|]|]; simpl; try done.
  by rewrite lookup_insert_ne.
Qed.

Lemma Rename_fails old new f (err : error) :
  (os.Rename old new f).2 = Some err → (os.Rename old new f).1 = f.
Proof.
  unfold os.Rename.
  destruct (os.node_at f new) as [[d m|]|];
    destruct (os.node_at f old) as [[d' m'|]|]; simpl; try done;
    destruct (os.is_dir f (filepath.Dir new)); simpl; try done;
    case_bool_decide; simpl; try done;
    case_bool_decide; simpl; done.
Qed.

Lemma Rename_onto_dir old new f (n : node) :
  os.node_at f new = Some Dir → os.node_at f old = Some n →
  os.Rename old new f = (f, Some (LinkError "rename" old new EEXIST)).
Proof. intros Hn Ho. unfold os.Rename. by rewrite Hn, Ho. Qed.

Lemma Rename_missing old new f :
  os.node_at f old = None →
  os.Rename old new f = (f, Some (LinkError "rename" old new ENOENT)).
Proof.
  intros Ho. unfold os.Rename. rewrite Ho.
  destruct (os.node_at f new) as [[d m|]|]; done.
Qed.

Lemma Rename_free old new f (n : node) :
  os.node_at f old = Some n → os.node_at f new = None →
  os.is_dir f (filepath.Dir new) = true →
  ¬ os.under old new →
  os.Rename old new f = (os.move_tree old new f, None).
Proof.
  intros Ho Hn Hd Hu. unfold os.Rename. rewrite Hn, Ho, Hd. simpl.
  rewrite bool_decide_eq_false_2.
  - destruct n; [done|]. by rewrite bool_decide_eq_false_2.
  - intros ->. apply Hu. apply under_refl.
Qed.

Lemma Rename_blocked old new f (n : node) :
  os.node_at f old = Some n →
  os.is_dir f (filepath.Dir new) = false ∨ os.node_at f new = Some Dir →
  ∃ err, os.Rename old new f = (f, Some err).
Proof.
  intros Ho Hb. unfold os.Rename. rewrite Ho.
  destruct (os.node_at f new) as [[d m|]|] eqn:Hn.
  - destruct Hb as [Hb|Hb]; [|done]. rewrite Hb. simpl. by eexists.
  - by eexists.
  - destruct Hb as [Hb|Hb]; [|done]. rewrite Hb. simpl. by eexists.
Qed.

Lemma Rename_file old new f (d : string) (m : N) :
  os.node_at f old = Some (File d m) →
  os.node_at f new ≠ Some Dir →
  os.is_dir f (filepath.Dir new) = true →
  old ≠ new →
  os.Rename old new f = (os.move_tree old new f, None).
Proof.
  intros Ho Hn Hd Hne. unfold os.Rename. rewrite Ho, Hd. simpl.
  rewrite (bool_decide_eq_false_2 _ Hne).
  destruct (os.node_at f new) as [[d' m'|]|]; done.
Qed.
End Ops.

(** ** Orchestrator: the staging directories *)




Lemma C5_witness :
  (downloadWithProgress Sample.linux xmluiRepoZip "XMLUI repo" []).2
    = inr "XMLUI"
  ∧ (downloadWithProgress Sample.linux_unauthorized xmluiRepoZip "XMLUI repo" []).2
    = inl (Errorf
        ("authentication failed for private repository: " +:+ xmluiRepoZip
         +:+ " (status: 401 Unauthorized) - check PAT_TOKEN"))
  ∧ (downloadWithProgress (withClient Sample.linux Sample.serve_by_credential)
       xmluiRepoZip "XMLUI repo" []).2
    = inl (Errorf
        ("authentication failed for private repository: " +:+ xmluiRepoZip
         +:+ " (status: 401 Unauthorized) - check PAT_TOKEN"))
  ∧ (downloadWithProgress
       (withToken (withClient Sample.linux Sample.serve_by_credential) "secret")
       xmluiRepoZip "XMLUI repo" []).2
    = inr "XMLUI".
Proof.
  repeat apply conj.
  - refine (proj2 (proj2 (C5_download_status Sample.linux xmluiRepoZip
              "XMLUI repo" []
              {| StatusCode := 200; Status := "200 OK";
                 Body := {| rd_data := "XMLUI"; rd_err := None |} |}
              eq_refl _)) eq_refl "XMLUI" eq_refl).
    vm_compute. reflexivity.
  - refine (proj1 (C5_download_status Sample.linux_unauthorized xmluiRepoZip
              "XMLUI repo" []
              {| StatusCode := 401; Status := "401 Unauthorized";
                 Body := {| rd_data := ""; rd_err := None |} |}
              eq_refl _) _ eq_refl eq_refl).
    + vm_compute. reflexivity.
    + discriminate.
  - refine (proj1 (C5_download_status
              (withClient Sample.linux Sample.serve_by_credential) xmluiRepoZip
              "XMLUI repo" []
              {| StatusCode := 401; Status := "401 Unauthorized";
                 Body := {| rd_data := ""; rd_err := None |} |}
              eq_refl _) _ eq_refl eq_refl).
    + vm_compute. reflexivity.
    + discriminate.
  - refine (proj2 (proj2 (C5_download_status
              (withToken (withClient Sample.linux Sample.serve_by_credential)
                 "secret")
              xmluiRepoZip "XMLUI repo" []
              {| StatusCode := 200; Status := "200 OK";
                 Body := {| rd_data := "XMLUI"; rd_err := None |} |}
              eq_refl _)) eq_refl "XMLUI" eq_refl).
    vm_compute. reflexivity.
Defined.

(** ** Orchestrator: stray root directories *)

(** The move of a stray directory cannot succeed once its target
    exists as a directory: the file system stays as it is and a warning
    is printed. *)
Lemma moveStray_blocked (installDir : path) (name : string) (target : path)
    (w : world) (n : node) :
  os.Stat (w_fs w) (filepath.Join installDir name) = Some n →
  os.node_at (w_fs w) target = Some Dir →
  moveStray installDir name target w =
    ({| w_fs := w_fs w;
        w_out := w_out w ++
          ["Warning: Could not move " +:+ name +:+ " directory: " +:+
           error_string (LinkError "rename" (filepath.Join installDir name)
                           target EEXIST)] |},
     Done tt).
Proof.
  intros Hst Htgt. unfold moveStray, mbind, M_bind, on_fs.
  cbn -[os.Rename os.Stat error_string]. rewrite Hst.
  cbn -[os.Rename error_string].
  rewrite (Rename_onto_dir _ _ _ n Htgt Hst). reflexivity.
Qed.

(** C7 at a working directory that holds a [docs] directory: the run
    ends with status 0, [docs] and its content are where they were,
    nothing of it is below [mcp/docs], and the warning of the failed
    move is on standard output.  [main] has created [mcp/docs] in step
    2, and [os.Rename] does not replace a directory. *)
Theorem C7_stray_docs_not_moved :
  let r := main Sample.linux {| w_fs := Sample.with_docs; w_out := [] |} in
  r.2 = Done tt
  ∧ w_fs r.1 !! ["w"; "docs"] = Some Dir
  ∧ w_fs r.1 !! ["w"; "docs"; "a.md"] = Some (File "notes" 420)
  ∧ w_fs r.1 !! ["w"; "mcp"; "docs"] = Some Dir
  ∧ w_fs r.1 !! ["w"; "mcp"; "docs"; "a.md"] = None
  ∧ w_out r.1 !! 18%nat =
      Some "Warning: Could not move docs directory: rename /w/docs /w/mcp/docs: file exists".
Proof. vm_compute. repeat split. Qed.

(** ** Archive extractor *)

(** C2 at a zip archive with a script and two of the known binaries:
    [unzipTo] leaves all three without any execute bit (mode 0666),
    where [untarGzTo] on a gzip-tar archive of the same entries makes
    them executable (mode 0755). *)
Theorem C2_unzip_leaves_scripts_not_executable :
  let zipped := unzipTo Sample.linux "MCP" ["w"; "mcpTmp"] Sample.fresh in
  let tarred := untarGzTo Sample.linux "MCP" ["w"; "mcpTmp"] Sample.fresh in
  zipped.2 = None ∧ tarred.2 = None
  ∧ (∀ name, name ∈ ["run-mcp-client.sh"; "xmlui-mcp"; "xmlui-mcp-client"] →
       wantsExec ["w"; "mcpTmp"; name] = true
       ∧ executable <$> (zipped.1 !! ["w"; "mcpTmp"; name]) = Some false
       ∧ executable <$> (tarred.1 !! ["w"; "mcpTmp"; name]) = Some true)
  ∧ zipped.1 !! ["w"; "mcpTmp"; "run-mcp-client.sh"]
      = Some (File "#!/bin/sh" 438)
  ∧ tarred.1 !! ["w"; "mcpTmp"; "run-mcp-client.sh"]
      = Some (File "#!/bin/sh" 493).
Proof.
  intros zipped tarred. subst zipped tarred.
  split; [vm_compute; reflexivity|]. split; [vm_compute; reflexivity|].
  split; [|split; vm_compute; reflexivity].
  intros name Hin. rewrite !elem_of_cons, elem_of_nil in Hin.
  destruct Hin as [->|[->|[->|[]]]]; vm_compute; repeat split.
Qed.

(** C3, as stated, at a gzip-tar archive whose first entry is the
    directory [d] and whose second is the file [e.txt], extracted into
    a directory that holds a plain file [d]: creating the directory
    fails, yet extraction goes on to write [e.txt] and returns no
    error. *)
Lemma C3_mkdir_failure_not_reported :
  gzip_NewReader Sample.linux "DIR-THEN-FILE"
    = inr (Sample.tdir "d" (Sample.tfile "e.txt" "later" TarEOF))
  ∧ (os.MkdirAll (filepath.Join ["w"] "d") os.ModePerm Sample.with_file_d).2
    = Some (PathError "mkdir" ["w"; "d"] ENOTDIR)
  ∧ (let r := untarGzTo Sample.linux "DIR-THEN-FILE" ["w"] Sample.with_file_d in
     r.2 = None
     ∧ r.1 !! ["w"; "d"] = Some (File "x" 420)
     ∧ r.1 !! ["w"; "e.txt"] = Some (File "later" 438)).
Proof. vm_compute. repeat split. Qed.

(** ** Layout assembler *)

(** C4, as stated, at a working directory in which the bundler has run
    before: the listing has the entry [xmlui-invoice-main], whose name
    begins with the prefix, yet [moveIntoPlace] renames nothing and
    returns the error of [os.Rename], because [xmlui-invoice] exists. *)
Lemma C4_rename_onto_existing_directory_fails :
  os.ReadDir ["w"] Sample.second_run
    = inr [ {| Name := "xmlui-invoice"; IsDir := true |};
            {| Name := "xmlui-invoice-main"; IsDir := true |} ]
  ∧ strings.HasPrefix "xmlui-invoice-main" (repoName +:+ "-") = true
  ∧ (let r := moveIntoPlace ["w"] repoName ["w"] Sample.second_run in
     r.2 = inl (LinkError "rename" ["w"; "xmlui-invoice-main"]
                  ["w"; "xmlui-invoice"] EEXIST)
     ∧ r.1 !! ["w"; "xmlui-invoice-main"] = Some Dir
     ∧ r.1 !! ["w"; "xmlui-invoice-main"; "Main.xmlui"]
         = Some (File "<App/>" 438)).
Proof. vm_compute. repeat split. Qed.

(** ** Orchestrator: a present file that is not moved *)

(** C6, as stated, at a working directory in which a directory named
    [xmlui-mcp] is in [mcp]: the file [xmlui-mcp] is present in the
    staging directory, yet the loop does not move it.  It prints the
    skip message for it, leaves the file in the staging directory and
    the directory in [mcp], and runs to its end. *)
Lemma C6_present_file_not_moved :
  let w := {| w_fs := Sample.name_taken; w_out := [] |} in
  let w' := relocate Sample.linux ["w"] (expectedFiles Sample.linux) w in
  w_fs w !! ["w"; "mcpTmp"; "xmlui-mcp"] = Some (File "ELF" 438)
  ∧ (on_world (relocate Sample.linux ["w"] (expectedFiles Sample.linux)) w).2
    = Done tt
  ∧ w_out w' !! 0%nat
    = Some (skipLine "xmlui-mcp"
              (LinkError "rename" ["w"; "mcpTmp"; "xmlui-mcp"]
                 ["w"; "mcp"; "xmlui-mcp"] EEXIST))
  ∧ w_fs w' !! ["w"; "mcpTmp"; "xmlui-mcp"] = Some (File "ELF" 438)
  ∧ w_fs w' !! ["w"; "mcp"; "xmlui-mcp"] = Some Dir.
Proof. vm_compute. repeat split. Qed.

(** ** Archive extractor: failures *)

Section Extraction.
Implicit Types (f : fs) (dest q : path).

Lemma unzip_files_app (pre post : list zipFile) dest f :
  unzip_files (pre ++ post) dest f =
    match unzip_files pre dest f with
    | (f1, None) => unzip_files post dest f1
    | (f1, Some err) => (f1, Some err)
    end.
Proof.
  revert f. induction pre as [|zf pre IH]; intros f; simpl; [done|].
  destruct (zf_IsDir zf); [apply IH|].
  destruct (zf_Open zf) as [err|rd]; [done|].
  destruct (os.Create _ _) as [f2 [err|out]]; [done|]. apply IH.
Qed.

Lemma untar_entries_prepend (pre : list (tarHeader * reader))
    (s : tarStream) dest f :
  untar_entries (tar_prepend pre s) dest f =
    match untar_entries (tar_prepend pre TarEOF) dest f with
    | (f1, None) => untar_entries s dest f1
    | (f1, Some err) => (f1, Some err)
    end.
Proof.
  revert f. induction pre as [|[h body] pre IH]; intros f; simpl; [done|].
  destruct (th_IsDir h); [apply IH|].
  destruct (os.Create _ _) as [f2 [err|out]]; [done|].
  destruct (rd_err body) as [err|]; [done|]. apply IH.
Qed.

Lemma files_kept_MkdirAll (fpath p : path) (perm : N) f :
  files_kept fpath f (os.MkdirAll p perm f).1.
Proof. intros q d m _ Hq. by apply MkdirAll_keeps. Qed.

Lemma files_kept_trans (fpath : path) (f1 f2 f3 : fs) :
  files_kept fpath f1 f2 → files_kept fpath f2 f3 → files_kept fpath f1 f3.
Proof. intros H12 H23 q d m Hne Hq. apply H23, H12; done. Qed.

Lemma files_kept_Create (fpath : path) f :
  files_kept fpath f (os.Create fpath f).1.
Proof. intros q d m Hne Hq. by rewrite Create_other. Qed.

Lemma files_kept_Copy (fpath : path) (rd : reader) f :
  files_kept fpath f (io.Copy fpath rd f).1.
Proof. intros q d m Hne Hq. unfold io.Copy. simpl. by rewrite Write_other. Qed.
End Extraction.

(** C3, amended: for every archive, destination and file system,
    - a malformed archive (the zip reader or the gzip reader refuses
      the bytes) is returned as the error, with nothing written;
    - once the entries before it are extracted, a zip entry that cannot
      be opened or whose output file cannot be created, a tar header
      that cannot be read, and a tar entry whose output file cannot be
      created or whose content cannot be copied, ends the extraction
      with that error, whatever entries follow;
    - the files extracted before the failure are kept;
    - the result of creating a directory is discarded: for a directory
      entry the extraction goes on with the next entry whether or not
      [os.MkdirAll] failed.
    Nothing is said here of an error while copying the content of a
    zip entry. *)
Theorem C3_extraction_stops_at_first_error (E : env) (dest : path) (f : fs) :
  (∀ data err, zip_NewReader E data = inl err →
     unzipTo E data dest f = (f, Some err))
  ∧ (∀ data err, gzip_NewReader E data = inl err →
       untarGzTo E data dest f = (f, Some err))
  ∧ (∀ data pre zf post f1 err,
       zip_NewReader E data = inr (pre ++ zf :: post) →
       unzip_files pre dest f = (f1, None) →
       zf_IsDir zf = false →
       let fpath := filepath.Join dest (zf_Name zf) in
       let f1' := (os.MkdirAll (filepath.Dir fpath) os.ModePerm f1).1 in
       zf_Open zf = inl err
       ∨ (∃ rd, zf_Open zf = inr rd) ∧ (os.Create fpath f1').2 = inl err →
       unzipTo E data dest f = (f1', Some err) ∧ files_kept fpath f1 f1')
  ∧ (∀ data pre f1 err,
       gzip_NewReader E data = inr (tar_prepend pre (TarFail err)) →
       untar_entries (tar_prepend pre TarEOF) dest f = (f1, None) →
       untarGzTo E data dest f = (f1, Some err))
  ∧ (∀ data pre hdr body rest f1 err,
       gzip_NewReader E data = inr (tar_prepend pre (TarEntry hdr body rest)) →
       untar_entries (tar_prepend pre TarEOF) dest f = (f1, None) →
       th_IsDir hdr = false →
       let fpath := filepath.Join dest (th_Name hdr) in
       let f1' := (os.MkdirAll (filepath.Dir fpath) os.ModePerm f1).1 in
       ((os.Create fpath f1').2 = inl err →
        untarGzTo E data dest f = (f1', Some err) ∧ files_kept fpath f1 f1')
       ∧ ((∃ out, (os.Create fpath f1').2 = inr out) →
          rd_err body = Some err →
          let f2 := (io.Copy fpath body (os.Create fpath f1').1).1 in
          untarGzTo E data dest f = (f2, Some err) ∧ files_kept fpath f1 f2))
  ∧ (∀ zf rest f0, zf_IsDir zf = true →
       unzip_files (zf :: rest) dest f0 =
         unzip_files rest dest
           (os.MkdirAll (filepath.Join dest (zf_Name zf)) os.ModePerm f0).1)
  ∧ (∀ hdr body rest f0, th_IsDir hdr = true →
       untar_entries (TarEntry hdr body rest) dest f0 =
         untar_entries rest dest
           (os.MkdirAll (filepath.Join dest (th_Name hdr)) os.ModePerm f0).1).
Proof.
  repeat apply conj.
  - intros data err H. unfold unzipTo. by rewrite H.
  - intros data err H. unfold untarGzTo. by rewrite H.
  - intros data pre zf post f1 err Hz Hpre Hdir fpath f1' Hfail.
    unfold unzipTo. rewrite Hz, unzip_files_app, Hpre. simpl.
    rewrite Hdir. fold fpath. fold f1'. split.
    + destruct Hfail as [Ho|[[rd Ho] Hc]]; rewrite Ho; [done|].
      pose proof (Create_fails _ _ _ Hc) as Hsame.
      destruct (os.Create fpath f1') as [f2 [e|out]]; simpl in *; congruence.
    + apply files_kept_MkdirAll.
  - intros data pre f1 err Hz Hpre.
    unfold untarGzTo. by rewrite Hz, untar_entries_prepend, Hpre.
  - intros data pre hdr body rest f1 err Hz Hpre Hdir fpath f1'.
    unfold untarGzTo. rewrite Hz, untar_entries_prepend, Hpre. simpl.
    rewrite Hdir. fold fpath. fold f1'. split.
    + intros Hc. pose proof (Create_fails _ _ _ Hc) as Hsame.
      destruct (os.Create fpath f1') as [f2 [e|out]]; simpl in *;
        [|done]. split; [congruence|]. apply files_kept_MkdirAll.
    + intros [out Hc] Hrd.
      pose proof (Create_ok _ _ _ Hc) as ->.
      pose proof (files_kept_Create fpath f1') as Hk.
      destruct (os.Create fpath f1') as [f2 [e|out]]; simpl in *; [done|].
      injection Hc as ->. rewrite Hrd. split; [done|].
      eapply files_kept_trans; [apply files_kept_MkdirAll|].
      eapply files_kept_trans; [exact Hk|].
      apply (files_kept_Copy fpath body f2).
  - intros zf rest f0 Hdir. simpl. by rewrite Hdir.
  - intros hdr body rest f0 Hdir. simpl. by rewrite Hdir.
Qed.

(** An entry whose content cannot be read to its end: [untarGzTo]
    returns the error of the copy, [unzipTo] discards it. *)
Lemma unzip_copy_error :
  (unzipTo Sample.linux "TRUNCATED" ["w"] Sample.fresh).2 = None
  ∧ (untarGzTo Sample.linux "TRUNCATED" ["w"] Sample.fresh).2
    = Some (LibError "unexpected EOF").
Proof. vm_compute. done. Qed.

(** ** Layout assembler: the application directory *)

Section MoveIntoPlace.
Implicit Types (f : fs) (d : path) (repo : string) (entries : list DirEntry).

Lemma append_cons (c : ascii) (a b : string) :
  String c a +:+ b = String c (a +:+ b).
Proof. reflexivity. Qed.

(** A name never begins with itself followed by a dash. *)
Lemma prefix_dash_irrefl repo : strings.HasPrefix repo (repo +:+ "-") = false.
Proof.
  unfold strings.HasPrefix. induction repo as [|c r IH]; [reflexivity|].
  rewrite append_cons. simpl.
  destruct (ascii_dec c c) as [_|Hne]; [exact IH|done].
Qed.

Lemma moveIntoPlace_entries_none entries srcParent repo installDir f :
  (∀ e, e ∈ entries → strings.HasPrefix (Name e) (repo +:+ "-") = false) →
  moveIntoPlace_entries entries srcParent repo installDir f
    = (f, inl (Errorf "repo dir not found")).
Proof.
  induction entries as [|e rest IH]; intros Hno; simpl; [done|].
  rewrite (Hno e) by (apply elem_of_cons; auto).
  apply IH. intros e' He'. apply Hno. apply elem_of_cons; auto.
Qed.

Lemma moveIntoPlace_entries_first (pre post : list DirEntry) (e : DirEntry)
    srcParent repo installDir f :
  (∀ x, x ∈ pre → strings.HasPrefix (Name x) (repo +:+ "-") = false) →
  strings.HasPrefix (Name e) (repo +:+ "-") = true →
  moveIntoPlace_entries (pre ++ e :: post) srcParent repo installDir f =
    match os.Rename (filepath.Join srcParent (Name e))
                    (filepath.Join installDir repo) f with
    | (f', Some err) => (f', inl err)
    | (f', None) => (f', inr (filepath.Join installDir repo))
    end.
Proof.
  intros Hpre He. induction pre as [|x pre IH]; simpl.
  - by rewrite He.
  - rewrite (Hpre x) by (apply elem_of_cons; auto).
    apply IH. intros y Hy. apply Hpre. apply elem_of_cons; auto.
Qed.

(** A list with a matching entry splits at its first matching entry. *)
Lemma first_match entries repo (e : DirEntry) :
  e ∈ entries → strings.HasPrefix (Name e) (repo +:+ "-") = true →
  ∃ pre e1 post,
    entries = pre ++ e1 :: post
    ∧ (∀ x, x ∈ pre → strings.HasPrefix (Name x) (repo +:+ "-") = false)
    ∧ strings.HasPrefix (Name e1) (repo +:+ "-") = true.
Proof.
  induction entries as [|x rest IH]; intros Hin He.
  - by apply elem_of_nil in Hin.
  - destruct (strings.HasPrefix (Name x) (repo +:+ "-")) eqn:Hx.
    + exists [], x, rest. split; [done|]. split; [|done].
      intros y Hy. by apply elem_of_nil in Hy.
    + apply elem_of_cons in Hin as [->|Hin]; [congruence|].
      destruct (IH Hin He) as (pre & e1 & post & -> & Hpre & He1).
      exists (x :: pre), e1, post. split; [done|]. split; [|done].
      intros y Hy. apply elem_of_cons in Hy as [->|Hy]; auto.
Qed.

(** What the listing says of an entry, in a file system with proper
    names. *)
Lemma listed_entry d f entries (e : DirEntry) :
  names_valid f → os.ReadDir d f = inr entries → e ∈ entries →
  filepath.valid_name (Name e) = true
  ∧ filepath.Join d (Name e) = d ++ [Name e]
  ∧ ∃ n, os.node_at f (d ++ [Name e]) = Some n
         ∧ IsDir e = match n with Dir => true | _ => false end.
Proof.
  intros Hv Hrd He.
  apply (ReadDir_elem _ _ _ e Hrd) in He as (n & Hn & Hd).
  assert (Hvn : filepath.valid_name (Name e) = true).
  { specialize (Hv _ _ Hn). simpl in Hv.
    apply Forall_app in Hv as [_ Hv]. by inversion Hv. }
  split; [done|]. split; [by apply Join_valid|].
  exists n. by rewrite node_at_snoc.
Qed.

(** The rename of [moveIntoPlace] in its own directory: it succeeds
    when the canonical name is free and fails when a directory bears
    it. *)
Lemma rename_entry d repo f (name : string) (n : node) :
  os.is_dir f d = true →
  os.node_at f (d ++ [name]) = Some n →
  name ≠ repo →
  (os.node_at f (d ++ [repo]) = None →
   os.Rename (d ++ [name]) (d ++ [repo]) f
     = (os.move_tree (d ++ [name]) (d ++ [repo]) f, None))
  ∧ (os.node_at f (d ++ [repo]) = Some Dir →
     os.Rename (d ++ [name]) (d ++ [repo]) f
       = (f, Some (LinkError "rename" (d ++ [name]) (d ++ [repo]) EEXIST))).
Proof.
  intros Hd Hn Hne. split; intros Ht.
  - apply (Rename_free _ _ _ n); [done|done|by rewrite Dir_snoc|].
    intros Hu. apply under_snoc_inv in Hu. done.
  - by apply (Rename_onto_dir _ _ _ n).
Qed.

Lemma move_entry_lookups d repo f (name : string) :
  name ≠ repo →
  let f' := os.move_tree (d ++ [name]) (d ++ [repo]) f in
  f' !! (d ++ [repo]) = f !! (d ++ [name])
  ∧ (∀ s, f' !! (d ++ repo :: s) = f !! (d ++ name :: s))
  ∧ (∀ q, os.under (d ++ [name]) q → f' !! q = None)
  ∧ (∀ q, ¬ os.under (d ++ [name]) q → ¬ os.under (d ++ [repo]) q →
       f' !! q = f !! q).
Proof.
  intros Hne f'. subst f'. repeat apply conj.
  - pose proof (move_tree_lookup_moved (d ++ [name]) (d ++ [repo]) f []) as H.
    by rewrite !app_nil_r in H.
  - intros s.
    pose proof (move_tree_lookup_moved (d ++ [name]) (d ++ [repo]) f s) as H.
    by rewrite <- !app_assoc in H.
  - intros q Hq. apply move_tree_lookup_gone; [done|].
    intros Hq'. destruct Hq as [s ->].
    rewrite <- app_assoc in Hq'. apply under_snoc_app_inv in Hq'. done.
  - intros q H1 H2. by apply move_tree_lookup_other.
Qed.
End MoveIntoPlace.
Lemma Rename_succeeds (old new : path) (f f' : fs) :
  os.Rename old new f = (f', None) →
  (old = new ∧ f' = f) ∨ f' = os.move_tree old new f.
Proof.
  unfold os.Rename.
  destruct (os.node_at f new) as [[d m|]|];
    destruct (os.node_at f old) as [[d' m'|]|]; try done;
    destruct (os.is_dir f (filepath.Dir new)); simpl; try done;
    case_bool_decide; simpl; try (intros [= <-]; by auto);
    try done;
    case_bool_decide; simpl; try (intros [= <-]; by auto); done.
Qed.

Section ListingNames.
Implicit Types (f : fs) (d : path).

Lemma insert_name_perm (e : DirEntry) (l : list DirEntry) :
  os.insert_name e l ≡ₚ e :: l.
Proof.
  induction l as [|e' l IH]; simpl; [done|].
  destruct (String.leb _ _); [done|].
  rewrite IH. apply perm_swap.
Qed.

Lemma sort_names_perm (l : list DirEntry) : os.sort_names l ≡ₚ l.
Proof.
  unfold os.sort_names. induction l as [|e l IH]; simpl; [done|].
  by rewrite insert_name_perm, IH.
Qed.

Lemma entry_names_NoDup d (l : list (path * node)) :
  NoDup l.*1 → NoDup (Name <$> omap (os.entry_of d) l).
Proof.
  induction l as [|[k n] l IH]; simpl; intros Hnd; [constructor|].
  apply NoDup_cons in Hnd as [Hk Hnd].
  destruct (os.entry_of d (k, n)) as [e|] eqn:He; simpl; [|by apply IH].
  apply NoDup_cons. split; [|by apply IH].
  intros Hin. apply list_elem_of_fmap in Hin as (e' & Hname & Hin).
  apply list_elem_of_omap in Hin as ([k' n'] & Hin & He').
  apply entry_of_Some in He as [-> _]. apply entry_of_Some in He' as [-> _].
  apply Hk. rewrite Hname. apply list_elem_of_fmap. by exists (d ++ [Name e'], n').
Qed.

Lemma ReadDir_names_NoDup d f (entries : list DirEntry) :
  os.ReadDir d f = inr entries → NoDup (Name <$> entries).
Proof.
  unfold os.ReadDir. destruct (os.node_at f d) as [[]|]; try done.
  intros [= <-]. rewrite sort_names_perm.
  apply entry_names_NoDup, NoDup_fst_map_to_list.
Qed.

Lemma ReadDir_other_name d f (pre post : list DirEntry) (e x : DirEntry) :
  os.ReadDir d f = inr (pre ++ e :: post) → x ∈ pre ++ post →
  Name x ≠ Name e.
Proof.
  intros Hrd Hx Heq. apply ReadDir_names_NoDup in Hrd.
  rewrite fmap_app, fmap_cons in Hrd.
  apply NoDup_app in Hrd as (_ & Hpre & Hpost).
  apply NoDup_cons in Hpost as [Hpost _].
  apply elem_of_app in Hx as [Hx|Hx].
  - apply (Hpre (Name x)); [by apply list_elem_of_fmap_2|].
    rewrite Heq. apply elem_of_cons; auto.
  - apply Hpost. rewrite <- Heq. by apply list_elem_of_fmap_2.
Qed.
End ListingNames.

(** C4, amended: for every install directory with proper names whose
    listing has at least one entry whose name begins with
    [<repoName>-], [moveIntoPlace] calls [os.Rename] on the first such
    entry, the one no entry with the prefix comes before in the
    listing, and the canonical name [<repoName>] and returns what the
    rename gives: the canonical path when it succeeds, which it does
    whenever nothing bears the canonical name (the entry is then found
    under the canonical name and no longer under its own), and the
    error of the rename when it fails, which it does whenever a
    directory bears the canonical name.  For every install directory
    whose listing has no such entry it returns the error
    [repo dir not found] and changes nothing. *)
Theorem C4_moveIntoPlace (f : fs) (d : path) (repo : string)
    (entries : list DirEntry) :
  names_valid f → filepath.valid_name repo = true →
  os.ReadDir d f = inr entries →
  let final := filepath.Join d repo in
  ((∃ e, e ∈ entries ∧ strings.HasPrefix (Name e) (repo +:+ "-") = true) →
   ∃ pre e1 post n,
     entries = pre ++ e1 :: post
     ∧ (∀ x, x ∈ pre → strings.HasPrefix (Name x) (repo +:+ "-") = false)
     ∧ strings.HasPrefix (Name e1) (repo +:+ "-") = true
     ∧ f !! filepath.Join d (Name e1) = Some n
     ∧ moveIntoPlace d repo d f =
         match os.Rename (filepath.Join d (Name e1)) final f with
         | (f', Some err) => (f', inl err)
         | (f', None) => (f', inr final)
         end
     ∧ (os.node_at f final = None →
        ∃ f', moveIntoPlace d repo d f = (f', inr final)
              ∧ f' !! final = Some n
              ∧ f' !! filepath.Join d (Name e1) = None)
     ∧ (os.node_at f final = Some Dir →
        moveIntoPlace d repo d f =
          (f, inl (LinkError "rename" (filepath.Join d (Name e1)) final
                     EEXIST))))
  ∧ ((∀ e, e ∈ entries → strings.HasPrefix (Name e) (repo +:+ "-") = false) →
     moveIntoPlace d repo d f = (f, inl (Errorf "repo dir not found"))).
Proof.
  intros Hv Hrepo Hrd final. subst final. rewrite (Join_valid _ _ Hrepo).
  split.
  - intros (e & He & Hm).
    destruct (first_match _ _ _ He Hm) as (pre & e1 & post & -> & Hpre & Hm1).
    assert (He1 : e1 ∈ pre ++ e1 :: post)
      by (apply elem_of_app; right; apply elem_of_cons; auto).
    destruct (listed_entry _ _ _ _ Hv Hrd He1) as (_ & HJ & n & Hn & _).
    assert (Hne : Name e1 ≠ repo).
    { intros Heq. rewrite Heq, prefix_dash_irrefl in Hm1. done. }
    destruct (rename_entry d repo f (Name e1) n
                (ReadDir_is_dir _ _ _ Hrd) Hn Hne) as [Hfree Hocc].
    assert (Hmv : moveIntoPlace d repo d f =
              match os.Rename (d ++ [Name e1]) (d ++ [repo]) f with
              | (f', Some err) => (f', inl err)
              | (f', None) => (f', inr (d ++ [repo]))
              end).
    { unfold moveIntoPlace. rewrite Hrd.
      rewrite (moveIntoPlace_entries_first _ _ _ _ _ _ _ Hpre Hm1).
      by rewrite HJ, (Join_valid _ _ Hrepo). }
    exists pre, e1, post, n. rewrite HJ. rewrite node_at_snoc in Hn.
    repeat apply conj; try done.
    + intros Hnone. rewrite Hmv, (Hfree Hnone).
      destruct (move_entry_lookups d repo f (Name e1) Hne) as (H1 & _ & H3 & _).
      eexists. split; [reflexivity|]. split; [by rewrite H1|].
      apply H3, under_refl.
    + intros Hdir. by rewrite Hmv, (Hocc Hdir).
  - intros Hno. unfold moveIntoPlace. rewrite Hrd.
    by apply moveIntoPlace_entries_none.
Qed.

(** C10: when the first entry of the listing whose name begins with
    [<repoName>-] is [e], whatever entries follow it, [moveIntoPlace]
    does what [os.Rename] of [e] to the canonical name does, whether
    [e] is a directory or a plain file; every other entry whose name
    begins with the prefix, with all below it, is left as it was; and
    when nothing bears the canonical name, the canonical path is
    returned, [e] with all below it is found under the canonical name
    and no longer under its own. *)
Theorem C10_first_match_only (f : fs) (d : path) (repo : string)
    (pre post : list DirEntry) (e : DirEntry) :
  names_valid f → filepath.valid_name repo = true →
  os.ReadDir d f = inr (pre ++ e :: post) →
  (∀ x, x ∈ pre → strings.HasPrefix (Name x) (repo +:+ "-") = false) →
  strings.HasPrefix (Name e) (repo +:+ "-") = true →
  let r := moveIntoPlace d repo d f in
  let old := filepath.Join d (Name e) in
  let final := filepath.Join d repo in
  old = d ++ [Name e] ∧ final = d ++ [repo]
  ∧ r = match os.Rename old final f with
        | (f', Some err) => (f', inl err)
        | (f', None) => (f', inr final)
        end
  ∧ (∀ x, x ∈ pre ++ post →
       strings.HasPrefix (Name x) (repo +:+ "-") = true →
       ∀ s, r.1 !! (d ++ Name x :: s) = f !! (d ++ Name x :: s))
  ∧ (os.node_at f final = None →
     r.2 = inr final
     ∧ r.1 !! old = None
     ∧ ∀ s, r.1 !! (final ++ s) = f !! (old ++ s)).
Proof.
  intros Hv Hrepo Hrd Hpre Hm r old final. subst r old final.
  assert (He : e ∈ pre ++ e :: post)
    by (apply elem_of_app; right; apply elem_of_cons; auto).
  destruct (listed_entry _ _ _ _ Hv Hrd He) as (_ & HJ & n & Hn & _).
  assert (Hne : Name e ≠ repo).
  { intros Heq. rewrite Heq, prefix_dash_irrefl in Hm. done. }
  destruct (rename_entry d repo f (Name e) n
              (ReadDir_is_dir _ _ _ Hrd) Hn Hne) as [Hfree _].
  destruct (move_entry_lookups d repo f (Name e) Hne) as (H1 & H2 & H3 & H4).
  rewrite HJ, (Join_valid _ _ Hrepo).
  assert (Hmv : moveIntoPlace d repo d f =
            match os.Rename (d ++ [Name e]) (d ++ [repo]) f with
            | (f', Some err) => (f', inl err)
            | (f', None) => (f', inr (d ++ [repo]))
            end).
  { unfold moveIntoPlace. rewrite Hrd.
    rewrite (moveIntoPlace_entries_first _ _ _ _ _ _ _ Hpre Hm).
    by rewrite HJ, (Join_valid _ _ Hrepo). }
  repeat apply conj; try done.
  - intros x Hx Hmx s. rewrite Hmv.
    pose proof (ReadDir_other_name _ _ _ _ _ _ Hrd Hx) as Hxe.
    assert (Hxr : Name x ≠ repo).
    { intros Heq. rewrite Heq, prefix_dash_irrefl in Hmx. done. }
    destruct (os.Rename (d ++ [Name e]) (d ++ [repo]) f) as [f' [err|]] eqn:HR.
    + pose proof (Rename_fails _ _ _ err (f_equal snd HR)) as Hsame.
      rewrite HR in Hsame. simpl in *. by subst f'.
    + simpl.
      destruct (Rename_succeeds _ _ _ _ HR) as [[Heq _]| ->].
      { apply app_inj_tail in Heq as [_ Heq]. done. }
      apply H4.
      * intros Hu. apply under_snoc_app_inv in Hu. done.
      * intros Hu. apply under_snoc_app_inv in Hu. done.
  - intros Hnone. rewrite Hmv, (Hfree Hnone). simpl.
    split; [done|]. split; [apply H3, under_refl|].
    intros s. apply move_tree_lookup_moved.
Qed.

Lemma C4_witness :
  names_valid Sample.two_trees
  ∧ (∃ f', moveIntoPlace ["w"] repoName ["w"] Sample.two_trees
           = (f', inr ["w"; "xmlui-invoice"]))
  ∧ moveIntoPlace ["w"] repoName ["w"] Sample.fresh
    = (Sample.fresh, inl (Errorf "repo dir not found")).
Proof.
  assert (Hv : names_valid Sample.two_trees).
  { unfold names_valid. apply (bool_decide_unpack _). vm_compute. exact I. }
  assert (Hv0 : names_valid Sample.fresh).
  { unfold names_valid. apply (bool_decide_unpack _). vm_compute. exact I. }
  split; [exact Hv|]. split.
  - assert (Hrd : os.ReadDir ["w"] Sample.two_trees
                  = inr [ {| Name := "xmlui-invoice-dev"; IsDir := true |};
                          {| Name := "xmlui-invoice-main"; IsDir := true |};
                          {| Name := "xmlui-invoice-notes"; IsDir := false |} ])
      by (vm_compute; reflexivity).
    destruct (C4_moveIntoPlace Sample.two_trees ["w"] repoName _ Hv eq_refl Hrd)
      as [Hsome _].
    destruct Hsome as (pre & e1 & post & n & _ & _ & _ & _ & _ & Hfree & _).
    { eexists. split; [apply elem_of_cons; left; reflexivity|reflexivity]. }
    assert (Hnone : os.node_at Sample.two_trees (filepath.Join ["w"] repoName)
                    = None) by (vm_compute; reflexivity).
    destruct (Hfree Hnone) as (f' & Hmv & _).
    exists f'. exact Hmv.
  - assert (Hrd : os.ReadDir ["w"] Sample.fresh = inr [])
      by (vm_compute; reflexivity).
    apply (C4_moveIntoPlace Sample.fresh ["w"] repoName _ Hv0 eq_refl Hrd).
    intros e He. exfalso. exact (proj1 (elem_of_nil e) He).
Defined.

(** The lookup [H] gives, evaluated. *)
Ltac lookup_via H := etrans; [exact H | vm_compute; reflexivity].

Lemma C10_witness :
  (let r := moveIntoPlace ["w"] repoName ["w"] Sample.two_trees in
   r.2 = inr ["w"; "xmlui-invoice"]
   ∧ r.1 !! ["w"; "xmlui-invoice"; "Main.xmlui"] = Some (File "<Dev/>" 438)
   ∧ r.1 !! ["w"; "xmlui-invoice-main"] = Some Dir
   ∧ r.1 !! ["w"; "xmlui-invoice-main"; "Main.xmlui"]
       = Some (File "<App/>" 438)
   ∧ r.1 !! ["w"; "xmlui-invoice-notes"] = Some (File "todo" 420))
  ∧ (let r := moveIntoPlace ["w"] repoName ["w"] Sample.file_first in
     r.2 = inr ["w"; "xmlui-invoice"]
     ∧ r.1 !! ["w"; "xmlui-invoice"] = Some (File "todo" 420)
     ∧ r.1 !! ["w"; "xmlui-invoice-main"] = Some Dir).
Proof.
  split.
  - assert (Hv : names_valid Sample.two_trees).
    { unfold names_valid. apply (bool_decide_unpack _). vm_compute. exact I. }
    destruct (C10_first_match_only Sample.two_trees ["w"] repoName []
                [ {| Name := "xmlui-invoice-main"; IsDir := true |};
                  {| Name := "xmlui-invoice-notes"; IsDir := false |} ]
                {| Name := "xmlui-invoice-dev"; IsDir := true |}
                Hv eq_refl)
      as (_ & _ & _ & Hothers & Hfree).
    + vm_compute. reflexivity.
    + intros x Hx. exfalso. exact (proj1 (elem_of_nil x) Hx).
    + reflexivity.
    + assert (Hnone : os.node_at Sample.two_trees (filepath.Join ["w"] repoName) = None)
        by (vm_compute; reflexivity).
      destruct (Hfree Hnone) as (Hret & _ & Hmoved).
      split; [exact Hret|].
      assert (Hmain : {| Name := "xmlui-invoice-main"; IsDir := true |}
                      ∈ [] ++ [ {| Name := "xmlui-invoice-main"; IsDir := true |};
                                {| Name := "xmlui-invoice-notes"; IsDir := false |} ])
        by (apply elem_of_cons; left; reflexivity).
      assert (Hnotes : {| Name := "xmlui-invoice-notes"; IsDir := false |}
                       ∈ [] ++ [ {| Name := "xmlui-invoice-main"; IsDir := true |};
                                 {| Name := "xmlui-invoice-notes"; IsDir := false |} ])
        by (apply elem_of_cons; right; apply elem_of_cons; left; reflexivity).
      split; [lookup_via (Hmoved ["Main.xmlui"])|].
      split; [lookup_via (Hothers _ Hmain eq_refl [])|].
      split; [lookup_via (Hothers _ Hmain eq_refl ["Main.xmlui"])|].
      lookup_via (Hothers _ Hnotes eq_refl []).
  - assert (Hv : names_valid Sample.file_first).
    { unfold names_valid. apply (bool_decide_unpack _). vm_compute. exact I. }
    destruct (C10_first_match_only Sample.file_first ["w"] repoName []
                [ {| Name := "xmlui-invoice-main"; IsDir := true |} ]
                {| Name := "xmlui-invoice-a.txt"; IsDir := false |}
                Hv eq_refl)
      as (_ & _ & _ & Hothers & Hfree).
    + vm_compute. reflexivity.
    + intros x Hx. exfalso. exact (proj1 (elem_of_nil x) Hx).
    + reflexivity.
    + assert (Hnone : os.node_at Sample.file_first (filepath.Join ["w"] repoName) = None)
        by (vm_compute; reflexivity).
      destruct (Hfree Hnone) as (Hret & _ & Hmoved).
      split; [exact Hret|].
      assert (Hmain : {| Name := "xmlui-invoice-main"; IsDir := true |}
                      ∈ [] ++ [ {| Name := "xmlui-invoice-main"; IsDir := true |} ])
        by (apply elem_of_cons; left; reflexivity).
      split; [lookup_via (Hmoved [])|].
      lookup_via (Hothers _ Hmain eq_refl []).
Defined.

(** ** Orchestrator: the relocation of the expected files *)

Section Relocate.
Variable E : env.
Variable d : path.
Implicit Types (w : world) (name : string) (names : list string) (q : path).

Local Abbreviation src name := (tmpMCP d ++ [name]).
Local Abbreviation dst name := (mcpDir d ++ [name]).

Lemma tmpMCP_eq : tmpMCP d = d ++ ["mcpTmp"].
Proof. unfold tmpMCP. by apply Join_valid. Qed.

Lemma mcpDir_eq : mcpDir d = d ++ ["mcp"].
Proof. unfold mcpDir. by apply Join_valid. Qed.

Lemma relocate_cons name names w :
  relocate E d (name :: names) w = relocate E d names (relocate E d [name] w).
Proof. simpl. destruct (os.Rename _ _ _) as [f [err|]]; reflexivity. Qed.

(** One round of the loop. *)
Lemma relocate_one name w :
  filepath.valid_name name = true →
  let w1 := relocate E d [name] w in
  (∃ l, w_out w1 = w_out w ++ [l]
        ∧ (l = movedLine name (dst name) ∨ ∃ err, l = skipLine name err)
        ∧ (w_fs w !! src name = None →
           l = skipLine name (LinkError "rename" (src name) (dst name) ENOENT)
           ∧ w_fs w1 = w_fs w)
        ∧ (∀ c m, w_fs w !! src name = Some (File c m) →
           os.is_dir (w_fs w) (mcpDir d) = true →
           os.node_at (w_fs w) (dst name) ≠ Some Dir →
           l = movedLine name (dst name)
           ∧ w_fs w1 !! src name = None
           ∧ ∃ m', w_fs w1 !! dst name = Some (File c m'))
        ∧ (∀ n, w_fs w !! src name = Some n →
           os.is_dir (w_fs w) (mcpDir d) = false
           ∨ os.node_at (w_fs w) (dst name) = Some Dir →
           (∃ err, l = skipLine name err) ∧ w_fs w1 = w_fs w))
  ∧ (∀ q, ¬ os.under (src name) q → ¬ os.under (dst name) q →
       w_fs w1 !! q = w_fs w !! q).
Proof.
  intros Hv w1. subst w1. unfold relocate.
  rewrite !(Join_valid _ _ Hv).
  assert (Hne : src name ≠ dst name).
  { rewrite tmpMCP_eq, mcpDir_eq, <- !app_assoc.
    intros H. apply app_inv_head in H. discriminate. }
  assert (Hnu : ¬ os.under (dst name) (src name)).
  { rewrite tmpMCP_eq, mcpDir_eq, <- !app_assoc.
    intros [s H]. rewrite <- app_assoc in H. apply app_inv_head in H.
    discriminate. }
  destruct (os.Rename (src name) (dst name) (w_fs w)) as [f [err|]] eqn:HR.
  - pose proof (Rename_fails _ _ _ err (f_equal snd HR)) as Hsame.
    rewrite HR in Hsame. simpl in Hsame. subst f. simpl. split.
    + eexists. split; [reflexivity|]. split; [right; by eexists|]. split.
      * intros Hmiss. rewrite Rename_missing in HR
          by (by rewrite node_at_snoc).
        injection HR as <-. done.
      * split.
        -- intros c m Hsrc Hmcp Hdst. exfalso.
           rewrite (Rename_file _ _ _ c m) in HR; try done.
           ++ by rewrite node_at_snoc.
           ++ by rewrite Dir_snoc.
        -- intros n Hsrc Hb. split; [by eexists|done].
    + done.
  - destruct (Rename_succeeds _ _ _ _ HR) as [[? _]| ->]; [done|].
    set (f1 := os.move_tree (src name) (dst name) (w_fs w)).
    set (chm := negb _ && _).
    simpl. split.
    + eexists. split; [reflexivity|]. split; [by left|]. split.
      * intros Hmiss. rewrite Rename_missing in HR
          by (by rewrite node_at_snoc). done.
      * split.
        -- intros c m Hsrc _ _. split; [done|].
           assert (H1 : f1 !! dst name = Some (File c m)).
           { pose proof (move_tree_lookup_moved (src name) (dst name) (w_fs w) [])
               as H. rewrite !app_nil_r in H. by rewrite <- Hsrc. }
           assert (H2 : f1 !! src name = None).
           { apply move_tree_lookup_gone; [apply under_refl|done]. }
           destruct chm.
           ++ split.
              ** rewrite Chmod_other; done.
              ** unfold os.Chmod. rewrite node_at_snoc.
                 rewrite H1. simpl. rewrite lookup_insert_eq. by eexists.
           ++ split; [done|by eexists].
        -- intros n Hsrc Hb. exfalso.
           destruct (Rename_blocked (src name) (dst name) (w_fs w) n)
             as [err Hblocked].
           ++ by rewrite node_at_snoc.
           ++ by rewrite Dir_snoc.
           ++ rewrite Hblocked in HR. done.
    + intros q Hq1 Hq2.
      assert (Hf1 : f1 !! q = w_fs w !! q) by by apply move_tree_lookup_other.
      destruct chm; [|done].
      rewrite Chmod_other; [done|]. intros ->. apply Hq2, under_refl.
Qed.

Lemma under_two_inv (a b a' b' : string) :
  os.under (d ++ [a; b]) (d ++ [a'; b']) → a = a' ∧ b = b'.
Proof.
  intros [s H]. rewrite <- app_assoc in H. apply app_inv_head in H.
  simpl in H. by injection H as -> ->.
Qed.

Lemma siblings_apart (n n' : string) :
  n ≠ n' →
  ¬ os.under (src n) (src n') ∧ ¬ os.under (dst n) (src n')
  ∧ ¬ os.under (src n) (dst n') ∧ ¬ os.under (dst n) (dst n').
Proof.
  intros Hne. rewrite tmpMCP_eq, mcpDir_eq, <- !app_assoc.
  simpl. repeat split; intros H; apply under_two_inv in H as [? ?];
    congruence.
Qed.

Lemma mcpDir_apart (n : string) :
  ¬ os.under (src n) (mcpDir d) ∧ ¬ os.under (dst n) (mcpDir d).
Proof.
  rewrite tmpMCP_eq, mcpDir_eq, <- !app_assoc. simpl.
  split; intros [s H]; rewrite <- app_assoc in H;
    apply app_inv_head in H; discriminate.
Qed.

Lemma relocate_all names :
  NoDup names → Forall (λ n, filepath.valid_name n = true) names →
  ∀ w,
  let w' := relocate E d names w in
  (∀ q, (∀ n, n ∈ names → ¬ os.under (src n) q ∧ ¬ os.under (dst n) q) →
     w_fs w' !! q = w_fs w !! q)
  ∧ ∃ lines, w_out w' = w_out w ++ lines
             ∧ Forall2 (relocated d (w_fs w) (w_fs w')) names lines.
Proof.
  induction names as [|name names IH]; intros Hnd Hv w.
  - simpl. split; [done|]. exists []. by rewrite app_nil_r.
  - apply NoDup_cons in Hnd as [Hnotin Hnd].
    apply Forall_cons in Hv as [Hvn Hv].
    rewrite relocate_cons.
    destruct (relocate_one name w Hvn)
      as [(l & Hout & Hform & Hmiss & Hfile & Hblk) Hframe1].
    set (w1 := relocate E d [name] w) in *.
    destruct (IH Hnd Hv w1) as [Hframe (lines & Houts & Hall)].
    set (w' := relocate E d names w1) in *. simpl.
    assert (Hapart : ∀ n, n ∈ names → name ≠ n)
      by (intros n Hn ->; done).
    assert (Hkeep : ∀ q, ¬ os.under (src name) q → ¬ os.under (dst name) q →
              w_fs w1 !! q = w_fs w !! q) by exact Hframe1.
    assert (Hlater : ∀ q, os.under (src name) q ∨ os.under (dst name) q →
              (∀ q', q' = src name ∨ q' = dst name →
                     w_fs w' !! q' = w_fs w1 !! q')).
    { intros _ _ q' Hq'. apply Hframe. intros n Hn.
      destruct (siblings_apart n name) as (H1 & H2 & H3 & H4);
        [by intros ->|].
      destruct Hq' as [->| ->]; done. }
    split.
    + intros q Hq. rewrite Hframe.
      * apply Hframe1; apply (Hq name); apply elem_of_cons; auto.
      * intros n Hn. apply Hq. apply elem_of_cons; auto.
    + exists (l :: lines). split.
      { rewrite Houts, Hout, <- app_assoc. done. }
      constructor.
      * split; [done|]. split; [|split].
        -- intros Hm. destruct (Hmiss Hm) as [-> Hsame]. split; [done|].
           rewrite !(Hlater (src name)) by auto using under_refl.
           rewrite Hsame. done.
        -- intros c m Hs Hd Ht.
           destruct (Hfile c m Hs Hd Ht) as (-> & Hgone & m' & Hthere).
           split; [done|].
           rewrite !(Hlater (src name)) by auto using under_refl.
           split; [done|by exists m'].
        -- intros n0 Hs Hb. destruct (Hblk n0 Hs Hb) as [Herr Hsame].
           split; [done|].
           rewrite !(Hlater (src name)) by auto using under_refl.
           rewrite Hsame. done.
      * apply Forall2_same_length_lookup in Hall as [Hlen Hall].
        apply Forall2_same_length_lookup. split; [done|].
        intros i n ln Hi Hli.
        destruct (Hall i n ln Hi Hli) as (Hf & Hm & Hfl & Hbl).
        assert (Hn : n ∈ names) by by eapply list_elem_of_lookup_2.
        destruct (siblings_apart name n (Hapart n Hn)) as (H1 & H2 & H3 & H4).
        destruct (mcpDir_apart name) as [H5 H6].
        assert (Hs : w_fs w1 !! src n = w_fs w !! src n) by by apply Hkeep.
        assert (Hd : w_fs w1 !! dst n = w_fs w !! dst n) by by apply Hkeep.
        assert (Hmcp : os.is_dir (w_fs w1) (mcpDir d)
                       = os.is_dir (w_fs w) (mcpDir d)).
        { unfold os.is_dir. rewrite mcpDir_eq, !node_at_snoc.
          rewrite <- mcpDir_eq. by rewrite Hkeep. }
        split; [done|]. split; [|split].
        -- intros Hmn. rewrite <- Hs in Hmn.
           destruct (Hm Hmn) as (-> & Hgone & Hsame).
           split; [done|]. split; [done|]. by rewrite Hsame.
        -- intros c m Hsn Hdn Htn. apply (Hfl c m).
           ++ by rewrite Hs.
           ++ by rewrite Hmcp.
           ++ rewrite node_at_snoc in *. by rewrite Hd.
        -- intros n0 Hsn Hb.
           destruct (Hbl n0) as (Herr & Hstay & Hsame).
           ++ by rewrite Hs.
           ++ destruct Hb as [Hb|Hb]; [left; by rewrite Hmcp|right].
              rewrite node_at_snoc in *. by rewrite Hd.
           ++ split; [done|]. split; [done|]. by rewrite Hsame.
Qed.
End Relocate.

Section SkipLines.
Lemma prefix_append (p x : string) : String.prefix p (p +:+ x) = true.
Proof.
  induction p as [|c p IH]; [by destruct x|].
  change (String c p +:+ x) with (String c (p +:+ x)). simpl.
  destruct (ascii_dec c c); done.
Qed.

Lemma append_assoc (a b c : string) : (a +:+ b) +:+ c = a +:+ (b +:+ c).
Proof.
  induction a as [|x a IH]; [reflexivity|].
  change ((String x a +:+ b) +:+ c) with (String x ((a +:+ b) +:+ c)).
  by rewrite IH.
Qed.

Lemma isSkipLineFor_skip (name : string) (err : error) :
  isSkipLineFor name (skipLine name err) = true.
Proof.
  unfold isSkipLineFor, skipLine, strings.HasPrefix.
  replace ("  Skipping " +:+ name +:+ " (not found?): " +:+ error_string err)
    with (("  Skipping " +:+ name +:+ " (not found?): ") +:+ error_string err)
    by (by rewrite !append_assoc).
  apply prefix_append.
Qed.

Lemma isSkipLineFor_moved (name n : string) (dst : path) :
  isSkipLineFor name (movedLine n dst) = false.
Proof. reflexivity. Qed.

(** Among the lines the loop printed for the expected files, the
    skip messages of a file are the line printed for it, if that is
    one. *)
Lemma skip_line_count (E : env) (d : path) (f f' : fs) (lines : stdout)
    (i : nat) (name l : string) :
  Forall2 (relocated d f f') (expectedFiles E) lines →
  expectedFiles E !! i = Some name → lines !! i = Some l →
  List.length (filter (λ l, isSkipLineFor name l = true) lines)
    = if isSkipLineFor name l then 1%nat else 0%nat.
Proof.
  unfold expectedFiles. intros Hall Hi Hl.
  destruct (String.eqb (GOOS E) "windows").
  - apply Forall2_cons_inv_l in Hall as (l1 & k1 & [H1 _] & Hall & ->).
    apply Forall2_cons_inv_l in Hall as (l2 & k2 & [H2 _] & Hall & ->).
    apply Forall2_cons_inv_l in Hall as (l3 & k3 & [H3 _] & Hall & ->).
    apply Forall2_nil_inv_l in Hall as ->.
    destruct H1 as [->|[e1 ->]]; destruct H2 as [->|[e2 ->]];
      destruct H3 as [->|[e3 ->]];
      (destruct i as [|[|[|i]]]; simpl in Hi, Hl; [| | |done]);
      injection Hi as <-; injection Hl as <-;
      rewrite !filter_cons, filter_nil, ?isSkipLineFor_skip; reflexivity.
  - apply Forall2_cons_inv_l in Hall as (l1 & k1 & [H1 _] & Hall & ->).
    apply Forall2_cons_inv_l in Hall as (l2 & k2 & [H2 _] & Hall & ->).
    apply Forall2_cons_inv_l in Hall as (l3 & k3 & [H3 _] & Hall & ->).
    apply Forall2_cons_inv_l in Hall as (l4 & k4 & [H4 _] & Hall & ->).
    apply Forall2_nil_inv_l in Hall as ->.
    destruct H1 as [->|[e1 ->]]; destruct H2 as [->|[e2 ->]];
      destruct H3 as [->|[e3 ->]]; destruct H4 as [->|[e4 ->]];
      (destruct i as [|[|[|[|i]]]]; simpl in Hi, Hl; [| | | |done]);
      injection Hi as <-; injection Hl as <-;
      rewrite !filter_cons, filter_nil, ?isSkipLineFor_skip; reflexivity.
Qed.
End SkipLines.

(** C6, amended: for the expected-file list of any platform and any
    world, the relocation loop runs to its end and prints one line for
    each listed file, in order.  For a file missing from the staging
    directory that line is the skip message, it is the only skip
    message for that file, and nothing is moved.  For a file present
    in the staging directory, when [mcp] is a directory and no
    directory bears the file's name in it, the line is the moved
    message, there is no skip message for the file, and the file is
    found in [mcp] with its content and no longer in the staging
    directory.  When [mcp] is no directory, or a directory bears the
    file's name in it, what is present in the staging directory under
    that name is not moved: the line is a skip message, the only one
    for that name, and the entry stays in the staging directory. *)
Theorem C6_missing_files_skipped (E : env) (d : path) (w : world) :
  let w' := relocate E d (expectedFiles E) w in
  on_world (relocate E d (expectedFiles E)) w = (w', Done tt)
  ∧ ∃ lines,
      w_out w' = w_out w ++ lines
      ∧ List.length lines = List.length (expectedFiles E)
      ∧ ∀ i name, expectedFiles E !! i = Some name →
          let src := filepath.Join (tmpMCP d) name in
          let dst := filepath.Join (mcpDir d) name in
          (w_fs w !! src = None →
           lines !! i
             = Some (skipLine name (LinkError "rename" src dst ENOENT))
           ∧ List.length (filter (λ l, isSkipLineFor name l = true) lines) = 1%nat
           ∧ w_fs w' !! src = None
           ∧ w_fs w' !! dst = w_fs w !! dst)
          ∧ (∀ c m, w_fs w !! src = Some (File c m) →
             os.is_dir (w_fs w) (mcpDir d) = true →
             os.node_at (w_fs w) dst ≠ Some Dir →
             lines !! i = Some (movedLine name dst)
             ∧ List.length (filter (λ l, isSkipLineFor name l = true) lines) = 0%nat
             ∧ w_fs w' !! src = None
             ∧ ∃ m', w_fs w' !! dst = Some (File c m'))
          ∧ (∀ n, w_fs w !! src = Some n →
             os.is_dir (w_fs w) (mcpDir d) = false
             ∨ os.node_at (w_fs w) dst = Some Dir →
             (∃ err, lines !! i = Some (skipLine name err))
             ∧ List.length (filter (λ l, isSkipLineFor name l = true) lines) = 1%nat
             ∧ w_fs w' !! src = Some n
             ∧ w_fs w' !! dst = w_fs w !! dst).
Proof.
  intros w'. split; [reflexivity|].
  assert (Hnames : NoDup (expectedFiles E)
                   ∧ Forall (λ n, filepath.valid_name n = true) (expectedFiles E)).
  { unfold expectedFiles. destruct (String.eqb _ _); split.
    all: apply (bool_decide_unpack _); vm_compute; exact I. }
  destruct Hnames as [Hnd Hv].
  destruct (relocate_all E d _ Hnd Hv w) as [_ (lines & Hout & Hall)].
  fold w' in Hout, Hall.
  exists lines. split; [done|]. split; [symmetry; by eapply Forall2_length|].
  intros i name Hi src dst.
  assert (Hin : name ∈ expectedFiles E) by by eapply list_elem_of_lookup_2.
  assert (Hvn : filepath.valid_name name = true).
  { rewrite Forall_forall in Hv. by apply Hv. }
  subst src dst. rewrite !(Join_valid _ _ Hvn).
  destruct (Forall2_lookup_l _ _ _ _ _ Hall Hi)
    as (l & Hl & _ & Hmiss & Hfile & Hblk).
  pose proof (skip_line_count _ _ _ _ _ _ _ _ Hall Hi Hl) as Hcount.
  split; [|split].
  - intros Hm. destruct (Hmiss Hm) as (-> & Hgone & Hsame).
    rewrite isSkipLineFor_skip in Hcount. done.
  - intros c m Hp Hmcp Hfree.
    destruct (Hfile c m Hp Hmcp Hfree) as (-> & Hgone & Hthere).
    done.
  - intros n Hp Hb.
    destruct (Hblk n Hp Hb) as ([err ->] & Hstay & Hsame).
    rewrite isSkipLineFor_skip in Hcount. split; [by exists err|done].
Qed.

Lemma C6_witness :
  (let w := {| w_fs := Sample.staged; w_out := [] |} in
   let w' := relocate Sample.linux ["w"] (expectedFiles Sample.linux) w in
   ∃ lines,
     w_out w' = lines
     ∧ lines !! 1%nat
       = Some (skipLine "xmlui-mcp-client"
                 (LinkError "rename" ["w"; "mcpTmp"; "xmlui-mcp-client"]
                    ["w"; "mcp"; "xmlui-mcp-client"] ENOENT))
     ∧ List.length (filter (λ l, isSkipLineFor "xmlui-mcp-client" l = true) lines)
       = 1%nat
     ∧ lines !! 0%nat = Some (movedLine "xmlui-mcp" ["w"; "mcp"; "xmlui-mcp"])
     ∧ w_fs w' !! ["w"; "mcpTmp"; "xmlui-mcp"] = None
     ∧ ∃ m', w_fs w' !! ["w"; "mcp"; "xmlui-mcp"] = Some (File "ELF" m'))
  ∧ (let w := {| w_fs := Sample.name_taken; w_out := [] |} in
     let w' := relocate Sample.linux ["w"] (expectedFiles Sample.linux) w in
     ∃ lines err,
       w_out w' = lines
       ∧ lines !! 0%nat = Some (skipLine "xmlui-mcp" err)
       ∧ List.length (filter (λ l, isSkipLineFor "xmlui-mcp" l = true) lines)
         = 1%nat
       ∧ w_fs w' !! ["w"; "mcpTmp"; "xmlui-mcp"] = Some (File "ELF" 438)).
Proof.
  split.
  - intros w w'.
    destruct (C6_missing_files_skipped Sample.linux ["w"] w)
      as [_ (lines & Hout & _ & Hall)].
    exists lines. split; [exact Hout|].
    destruct (Hall 1%nat "xmlui-mcp-client" eq_refl) as [Hmiss _].
    destruct (Hmiss eq_refl) as (Hline & Hcount & _).
    destruct (Hall 0%nat "xmlui-mcp" eq_refl) as (_ & Hfile & _).
    destruct (Hfile "ELF" 438%N eq_refl eq_refl) as (Hline0 & _ & Hgone & Hthere);
      [vm_compute; discriminate|].
    split; [exact Hline|]. split; [exact Hcount|]. split; [exact Hline0|].
    split; [exact Hgone|exact Hthere].
  - intros w w'.
    destruct (C6_missing_files_skipped Sample.linux ["w"] w)
      as [_ (lines & Hout & _ & Hall)].
    destruct (Hall 0%nat "xmlui-mcp" eq_refl) as (_ & _ & Hblk).
    destruct (Hblk (File "ELF" 438) eq_refl (or_intror eq_refl))
      as ([err Hline] & Hcount & Hstay & _).
    exists lines, err. split; [exact Hout|]. split; [exact Hline|].
    split; [exact Hcount|exact Hstay].
Defined.

(** ** Archive extractor: the execute bit *)

Section Modes.
Implicit Types (f : fs) (p q dest : path).

Lemma mkdir_walk_file_inv (rest : list string) (done : path) f q
    (d : string) (m : N) :
  (os.mkdir_walk done rest f).1 !! q = Some (File d m) →
  f !! q = Some (File d m).
Proof.
  revert done f. induction rest as [|c rest IH]; intros done f; simpl.
  - done.
  - destruct (f !! (done ++ [c])) as [[d' m'|]|] eqn:Hh; simpl.
    + done.
    + apply IH.
    + intros H. apply IH in H.
      destruct (decide (done ++ [c] = q)) as [<-|Hne].
      * rewrite lookup_insert_eq in H. done.
      * by rewrite lookup_insert_ne in H.
Qed.

Lemma modes_from_refl f : modes_from f f.
Proof. intros q d m H. right. by exists d. Qed.

Lemma modes_from_trans (f1 f2 f3 : fs) :
  modes_from f1 f2 → modes_from f2 f3 → modes_from f1 f3.
Proof.
  intros H12 H23 q d m H. destruct (H23 q d m H) as [->|[d' H']]; [by left|].
  by apply (H12 q d').
Qed.

Lemma modes_from_MkdirAll p (perm : N) f :
  modes_from f (os.MkdirAll p perm f).1.
Proof.
  intros q d m H. right. exists d. by apply mkdir_walk_file_inv in H.
Qed.

Lemma modes_from_Create p f : modes_from f (os.Create p f).1.
Proof.
  intros q d m. unfold os.Create.
  destruct (os.node_at f p) as [[d0 m0|]|] eqn:Hp; simpl.
  - destruct (decide (p = q)) as [<-|Hne].
    + rewrite lookup_insert_eq. intros [= <- <-]. right. exists d0.
      destruct p; [done|]. exact Hp.
    + rewrite lookup_insert_ne by done. intros H. right. by exists d.
  - intros H. right. by exists d.
  - destruct (os.node_at f (filepath.Dir p)) as [[d1 m1|]|]; simpl;
      try (intros H; right; by exists d).
    destruct (decide (p = q)) as [<-|Hne].
    + rewrite lookup_insert_eq. intros [= <- <-]. by left.
    + rewrite lookup_insert_ne by done. intros H. right. by exists d.
Qed.

Lemma modes_from_Write p (b : string) f : modes_from f (os.Write p b f).
Proof.
  intros q d m. unfold os.Write.
  destruct (f !! p) as [[d0 m0|]|] eqn:Hp;
    try (intros H; right; by exists d).
  destruct (decide (p = q)) as [<-|Hne].
  - rewrite lookup_insert_eq. intros [= <- <-]. right. by exists d0.
  - rewrite lookup_insert_ne by done. intros H. right. by exists d.
Qed.

(** [unzipTo] gives no file a mode it did not have, the creation
    mode 0666 apart: it never sets an execute bit. *)
Lemma unzip_files_modes (files : list zipFile) dest f :
  modes_from f (unzip_files files dest f).1.
Proof.
  revert f. induction files as [|zf files IH]; intros f; simpl.
  - apply modes_from_refl.
  - destruct (zf_IsDir zf).
    + eapply modes_from_trans; [apply modes_from_MkdirAll|apply IH].
    + destruct (zf_Open zf) as [err|rd]; simpl.
      * apply modes_from_MkdirAll.
      * pose proof (modes_from_Create (filepath.Join dest (zf_Name zf))
          (os.MkdirAll (filepath.Dir (filepath.Join dest (zf_Name zf)))
             os.ModePerm f).1) as HC.
        destruct (os.Create _ _) as [f2 [err|out]]; simpl in *.
        -- eapply modes_from_trans; [apply modes_from_MkdirAll|exact HC].
        -- eapply modes_from_trans; [apply modes_from_MkdirAll|].
           eapply modes_from_trans; [exact HC|].
           eapply modes_from_trans; [apply modes_from_Write|apply IH].
Qed.

Lemma executable_at_MkdirAll p q (perm : N) f :
  executable_at q f → executable_at q (os.MkdirAll p perm f).1.
Proof. intros [d H]. exists d. by apply MkdirAll_keeps. Qed.

Lemma executable_at_Create p q f :
  executable_at q f → executable_at q (os.Create p f).1.
Proof.
  intros [d H]. destruct (decide (q = p)) as [->|Hne].
  - unfold os.Create. destruct p as [|c p].
    + simpl. by exists d.
    + simpl. rewrite H. simpl. eexists. apply lookup_insert_eq.
  - exists d. by rewrite Create_other.
Qed.

Lemma executable_at_Write p q (b : string) f :
  executable_at q f → executable_at q (os.Write p b f).
Proof.
  intros [d H]. destruct (decide (q = p)) as [->|Hne].
  - unfold os.Write. rewrite H. eexists. apply lookup_insert_eq.
  - exists d. by rewrite Write_other.
Qed.

Lemma executable_at_Chmod p q f :
  executable_at q f → executable_at q (os.Chmod p 493 f).1.
Proof.
  intros [d H]. destruct (decide (q = p)) as [->|Hne].
  - unfold os.Chmod. destruct p as [|c p]; simpl; [by exists d|].
    rewrite H. simpl. eexists. apply lookup_insert_eq.
  - exists d. by rewrite Chmod_other.
Qed.

Lemma untar_entries_keeps_exec (s : tarStream) dest f q :
  executable_at q f → executable_at q (untar_entries s dest f).1.
Proof.
  revert f. induction s as [| |h body rest IH]; intros f Hq; simpl; try done.
  destruct (th_IsDir h).
  - apply IH. by apply executable_at_MkdirAll.
  - set (fpath := filepath.Join dest (th_Name h)).
    set (f1 := (os.MkdirAll (filepath.Dir fpath) os.ModePerm f).1).
    assert (H1 : executable_at q f1) by by apply executable_at_MkdirAll.
    pose proof (executable_at_Create fpath q f1 H1) as H2.
    destruct (os.Create fpath f1) as [f2 [err|out]]; simpl in *; [done|].
    pose proof (executable_at_Write out q (rd_data body) f2 H2) as H3.
    destruct (rd_err body); simpl; [done|].
    apply IH. destruct (wantsExec fpath); [|done].
    by apply executable_at_Chmod.
Qed.

(** [untarGzTo] makes executable every file it writes whose path
    passes the test for the execute bit. *)
Lemma untar_sets_exec (pre : list (tarHeader * reader)) (h : tarHeader)
    (body : reader) (rest : tarStream) dest f :
  th_IsDir h = false →
  wantsExec (filepath.Join dest (th_Name h)) = true →
  let r := untar_entries (tar_prepend pre (TarEntry h body rest)) dest f in
  r.2 = None →
  executable_at (filepath.Join dest (th_Name h)) r.1.
Proof.
  intros Hdir Hx r. subst r. rewrite untar_entries_prepend.
  destruct (untar_entries (tar_prepend pre TarEOF) dest f) as [f1 [e|]];
    [done|].
  simpl. rewrite Hdir.
  set (fpath := filepath.Join dest (th_Name h)) in *.
  set (f1' := (os.MkdirAll (filepath.Dir fpath) os.ModePerm f1).1).
  unfold os.Create.
  destruct (os.node_at f1' fpath) as [[d0 m0|]|] eqn:Hp; simpl.
  - destruct (rd_err body); simpl; [done|]. intros Hok. rewrite Hx.
    apply untar_entries_keeps_exec.
    unfold os.Chmod, os.Write. rewrite lookup_insert_eq, insert_insert_eq.
    destruct fpath as [|c fp]; [done|]. simpl.
    rewrite lookup_insert_eq. simpl. eexists. apply lookup_insert_eq.
  - done.
  - destruct (os.node_at f1' (filepath.Dir fpath)) as [[d1 m1|]|]; simpl;
      try done.
    destruct (rd_err body); simpl; [done|]. intros Hok. rewrite Hx.
    apply untar_entries_keeps_exec.
    unfold os.Chmod, os.Write. rewrite lookup_insert_eq, insert_insert_eq.
    destruct fpath as [|c fp]; [done|]. simpl.
    rewrite lookup_insert_eq. simpl. eexists. apply lookup_insert_eq.
Qed.
End Modes.

(* ================================================================== *)
(** * Further properties of the program *)
(* ================================================================== *)

(** ** Fetcher: the request and the credential *)



(** X2: the token has no part in a download from a URL outside the
    private host: whatever the token, the result and the output are
    the same. *)
Theorem download_public_ignores_token (E : env) (url filename token : string)
    (out : stdout) :
  strings.Contains url privateHost = false →
  downloadWithProgress (withToken E token) url filename out
    = downloadWithProgress E url filename out.
Proof.
  intros Hpub. unfold downloadWithProgress. simpl. by rewrite Hpub.
Qed.

Lemma download_public_ignores_token_witness :
  downloadWithProgress (withToken Sample.linux "secret") appZipURL "app" []
    = downloadWithProgress Sample.linux appZipURL "app" [].
Proof.
  apply download_public_ignores_token. vm_compute. reflexivity.
Defined.

(** X3: a download from the private host with no token in the
    environment is not refused: the warning is printed, the request is
    sent without credentials, and a 200 answer gives its bytes. *)
Theorem download_private_without_token (E : env) (url filename : string)
    (out : stdout) (resp : response) (data : string) :
  strings.Contains url privateHost = true →
  GITHUB_TOKEN E = "" →
  http_NewRequest E url = None →
  client_Do E {| req_url := url; req_auth := None |} = inr resp →
  StatusCode resp = http.StatusOK →
  io.ReadAll (Body resp) = inr data →
  downloadWithProgress E url filename out
    = (out ++ ["Downloading " +:+ filename +:+ "..."; "  From: " +:+ url;
               "  Warning: No authentication token found for private repository";
               "  Downloaded: " +:+ pretty (String.length data) +:+ " bytes"],
       inr data).
Proof.
  intros Hpriv Htok Hreq Hdo H200 Hread. unfold downloadWithProgress.
  rewrite Hreq, Hpriv, Htok. simpl. rewrite Hdo, H200. simpl. rewrite Hread.
  by rewrite <- !app_assoc.
Qed.

Lemma download_private_without_token_witness :
  (downloadWithProgress Sample.linux xmluiRepoZip "XMLUI repo" []).2
    = inr "XMLUI".
Proof.
  refine (f_equal snd
    (download_private_without_token Sample.linux xmluiRepoZip "XMLUI repo" []
       {| StatusCode := 200; Status := "200 OK";
          Body := {| rd_data := "XMLUI"; rd_err := None |} |} "XMLUI"
       _ eq_refl eq_refl eq_refl eq_refl eq_refl)).
  vm_compute. reflexivity.
Defined.

(** X4: the failures of a download other than a bad status.  A
    request that cannot be built is returned as the error without the
    client being asked; a transport error is returned as it is; a body
    that cannot be read to its end is returned as the error of the
    read, whatever was read of it.  Only a successful download prints
    the byte count: a successful one prints it as its last line, with
    the length of the bytes it returns, and none of the lines a failed
    one prints is a byte count. *)
Theorem download_failures (E : env) (url filename : string) (out : stdout) :
  let r := downloadWithProgress E url filename out in
  (∀ err, http_NewRequest E url = Some err →
     ∀ c, downloadWithProgress (withClient E c) url filename out
          = (out ++ ["Downloading " +:+ filename +:+ "..."; "  From: " +:+ url],
             inl err))
  ∧ (http_NewRequest E url = None →
     (∀ err, client_Do E (requestFor E url) = inl err → r.2 = inl err)
     ∧ (∀ resp err, client_Do E (requestFor E url) = inr resp →
          StatusCode resp = http.StatusOK →
          rd_err (Body resp) = Some err → r.2 = inl err))
  ∧ (∀ data, r.2 = inr data →
       ∃ lines, r.1 = out ++ lines
                      ++ ["  Downloaded: " +:+ pretty (String.length data)
                          +:+ " bytes"])
  ∧ (∀ err, r.2 = inl err →
       ∃ lines, r.1 = out ++ lines
                ∧ ∀ l, l ∈ lines →
                       strings.HasPrefix l "  Downloaded: " = false).
Proof.
  intros r. subst r. repeat apply conj.
  - intros err Hreq c. unfold downloadWithProgress. simpl. rewrite Hreq.
    by rewrite <- app_assoc.
  - intros Hreq. unfold downloadWithProgress, requestFor. rewrite Hreq.
    split.
    + intros err.
      destruct (strings.Contains url privateHost); simpl;
        [destruct (negb _); simpl|]; by intros ->.
    + intros resp err.
      destruct (strings.Contains url privateHost); simpl;
        [destruct (negb _); simpl|];
        intros -> -> Hrd; simpl; unfold io.ReadAll; by rewrite Hrd.
  - intros data. unfold downloadWithProgress.
    destruct (http_NewRequest E url); [done|].
    set (hdr := if strings.Contains url privateHost then _ else _).
    destruct hdr as [out1 req] eqn:Hhdr.
    assert (Hout : ∃ l, out1 = out ++ l).
    { subst hdr. destruct (strings.Contains url privateHost);
        [destruct (negb _)|]; injection Hhdr as <- _;
        rewrite <- ?app_assoc; by eexists. }
    destruct Hout as [l ->].
    destruct (client_Do E req) as [e|resp]; [done|].
    clear Hhdr hdr. destruct (negb (StatusCode resp =? http.StatusOK)%Z).
    + destruct (_ && _); done.
    + destruct (io.ReadAll (Body resp)) as [e|d]; [done|]. simpl.
      intros [= ->]. exists l. by rewrite <- app_assoc.
  - intros err. unfold downloadWithProgress.
    assert (H2 : ∀ l, l ∈ ["Downloading " +:+ filename +:+ "...";
                           "  From: " +:+ url] →
                      strings.HasPrefix l "  Downloaded: " = false).
    { intros l Hl. apply elem_of_cons in Hl as [->|Hl]; [reflexivity|].
      apply list_elem_of_singleton in Hl as ->. reflexivity. }
    destruct (http_NewRequest E url).
    { intros _. eexists. split; [by rewrite <- app_assoc|exact H2]. }
    set (hdr := if strings.Contains url privateHost then _ else _).
    destruct hdr as [out1 req] eqn:Hhdr.
    assert (Hout : ∃ lines, out1 = out ++ lines
                     ∧ ∀ l, l ∈ lines →
                            strings.HasPrefix l "  Downloaded: " = false).
    { subst hdr. destruct (strings.Contains url privateHost);
        [destruct (negb _)|]; injection Hhdr as <- _;
        rewrite <- ?app_assoc; eexists; (split; [reflexivity|]);
        intros l Hl; repeat (apply elem_of_cons in Hl as [->|Hl]; [reflexivity|]);
        by apply elem_of_nil in Hl. }
    destruct Hout as (lines & -> & Hlines).
    destruct (client_Do E req) as [e|resp]; [intros _; by exists lines|].
    clear Hhdr hdr. destruct (negb (StatusCode resp =? http.StatusOK)%Z).
    + destruct (_ && _); intros _; by exists lines.
    + destruct (io.ReadAll (Body resp)) as [e|d]; [|done].
      intros _. by exists lines.
Qed.

(** ** Archive extractor: where the entries go *)

Section Confinement.
Implicit Types (f g : fs) (p q dest : path).

Lemma enter_under (p : path) (c : string) :
  c ≠ ".." → os.under p (filepath.enter p c).
Proof.
  intros Hc. unfold filepath.enter, os.under.
  destruct (String.eqb c ""); [done|].
  destruct (String.eqb c "."); [done|].
  destruct (String.eqb_spec c ".."); [done|].
  by apply prefix_app_r.
Qed.

Lemma foldl_enter_under (l : list string) (p0 p : path) :
  ".." ∉ l → os.under p0 p → os.under p0 (foldl filepath.enter p l).
Proof.
  revert p. induction l as [|c l IH]; intros p Hl Hp; simpl; [done|].
  apply not_elem_of_cons in Hl as [Hc Hl].
  apply IH; [done|]. unfold os.under in *.
  etrans; [exact Hp|]. apply enter_under. congruence.
Qed.

(** A name without a [..] component is joined below the directory. *)
Lemma Join_under dest (name : string) :
  ".." ∉ filepath.split name → os.under dest (filepath.Join dest name).
Proof. intros H. by apply foldl_enter_under. Qed.

Lemma confined_refl dest f : confined dest f f.
Proof. intros q _. by left. Qed.

Lemma confined_trans dest (f1 f2 f3 : fs) :
  confined dest f1 f2 → confined dest f2 f3 → confined dest f1 f3.
Proof.
  intros H12 H23 q Hq.
  destruct (H12 q Hq) as [E1|(N1 & D1 & P1)];
    destruct (H23 q Hq) as [E2|(N2 & D2 & P2)].
  - left. congruence.
  - right. rewrite <- E1. done.
  - right. rewrite E2. done.
  - congruence.
Qed.

Lemma mkdir_walk_change (rest : list string) (done : path) f q :
  (os.mkdir_walk done rest f).1 !! q = f !! q
  ∨ (f !! q = None ∧ (os.mkdir_walk done rest f).1 !! q = Some Dir
     ∧ q `prefix_of` done ++ rest).
Proof.
  revert done f. induction rest as [|c rest IH]; intros done f; simpl.
  - by left.
  - destruct (f !! (done ++ [c])) as [[d m|]|] eqn:Hh; simpl.
    + by left.
    + destruct (IH (done ++ [c]) f) as [E|(N & D & P)]; [by left|].
      right. by rewrite <- app_assoc in P.
    + destruct (IH (done ++ [c]) (<[done ++ [c] := Dir]> f))
        as [E|(N & D & P)].
      * destruct (decide (done ++ [c] = q)) as [<-|Hne].
        -- right. rewrite E, lookup_insert_eq. split; [done|]. split; [done|].
           exists rest. by rewrite <- app_assoc.
        -- left. by rewrite E, lookup_insert_ne.
      * destruct (decide (done ++ [c] = q)) as [<-|Hne].
        -- by rewrite lookup_insert_eq in N.
        -- rewrite lookup_insert_ne in N by done. right.
           by rewrite <- app_assoc in P.
Qed.

Lemma prefix_comparable (a b c : path) :
  a `prefix_of` c → b `prefix_of` c → a `prefix_of` b ∨ b `prefix_of` a.
Proof.
  intros Ha Hb. destruct (prefix_weak_total a b c Ha Hb); auto.
Qed.

Lemma confined_MkdirAll dest p (perm : N) f :
  (os.under dest p ∨ p `prefix_of` dest) →
  confined dest f (os.MkdirAll p perm f).1.
Proof.
  intros Hp q Hq. unfold os.MkdirAll.
  destruct (mkdir_walk_change p [] f q) as [E|(N & D & P)]; [by left|].
  right. split; [done|]. split; [done|]. simpl in P.
  destruct Hp as [Hp|Hp].
  - destruct (prefix_comparable q dest p P Hp) as [H|H]; [done|].
    by destruct Hq.
  - by etrans.
Qed.

Lemma under_Dir dest p :
  os.under dest p → os.under dest (filepath.Dir p) ∨ filepath.Dir p `prefix_of` dest.
Proof.
  intros Hp. unfold filepath.Dir.
  destruct (prefix_comparable dest (removelast p) p Hp) as [H|H]; auto.
  destruct p as [|c p] using rev_ind; [by exists []|].
  rewrite removelast_last. by apply prefix_app_r.
Qed.

Lemma confined_at dest p f f' :
  os.under dest p → (∀ q, q ≠ p → f' !! q = f !! q) → confined dest f f'.
Proof.
  intros Hp Hsame q Hq. left. apply Hsame. intros ->. done.
Qed.
End Confinement.

Section ExtractWhere.
Implicit Types (f g : fs) (p q dest : path).

Lemma confined_Create dest p f :
  os.under dest p → confined dest f (os.Create p f).1.
Proof. intros Hp. apply (confined_at dest p); [done|]. intros q Hq. by apply Create_other. Qed.

Lemma confined_Write dest p (b : string) f :
  os.under dest p → confined dest f (os.Write p b f).
Proof. intros Hp. apply (confined_at dest p); [done|]. intros q Hq. by apply Write_other. Qed.

Lemma confined_Chmod dest p (m : N) f :
  os.under dest p → confined dest f (os.Chmod p m f).1.
Proof. intros Hp. apply (confined_at dest p); [done|]. intros q Hq. by apply Chmod_other. Qed.

Lemma unzip_files_confined (files : list zipFile) dest f :
  (∀ zf, zf ∈ files → ".." ∉ filepath.split (zf_Name zf)) →
  confined dest f (unzip_files files dest f).1.
Proof.
  revert f. induction files as [|zf files IH]; intros f Hn; simpl.
  - apply confined_refl.
  - assert (Hu : os.under dest (filepath.Join dest (zf_Name zf)))
      by (apply Join_under, Hn, elem_of_cons; auto).
    assert (IH' : ∀ f, confined dest f (unzip_files files dest f).1)
      by (intros f0; apply IH; intros z Hz; apply Hn, elem_of_cons; auto).
    destruct (zf_IsDir zf).
    + eapply confined_trans; [apply confined_MkdirAll; by left|apply IH'].
    + set (fpath := filepath.Join dest (zf_Name zf)) in *.
      set (f1 := (os.MkdirAll (filepath.Dir fpath) os.ModePerm f).1).
      assert (H1 : confined dest f f1)
        by (apply confined_MkdirAll, under_Dir; done).
      destruct (zf_Open zf) as [err|rd]; simpl; [done|].
      pose proof (confined_Create dest fpath f1 Hu) as H2.
      pose proof (Create_ok fpath f1) as Hout.
      destruct (os.Create fpath f1) as [f2 [err|out]]; simpl in *.
      * by eapply confined_trans.
      * rewrite (Hout out eq_refl).
        eapply confined_trans; [exact H1|].
        eapply confined_trans; [exact H2|].
        eapply confined_trans; [by apply confined_Write|apply IH'].
Qed.

Lemma untar_entries_confined (s : tarStream) dest f :
  ".." ∉ mjoin (filepath.split <$> tar_names s) →
  confined dest f (untar_entries s dest f).1.
Proof.
  revert f. induction s as [| |h body rest IH]; intros f Hn; simpl;
    try apply confined_refl.
  simpl in Hn. apply not_elem_of_app in Hn as [Hh Hn].
  assert (Hu : os.under dest (filepath.Join dest (th_Name h)))
    by by apply Join_under.
  destruct (th_IsDir h).
  - eapply confined_trans; [apply confined_MkdirAll; by left|by apply IH].
  - set (fpath := filepath.Join dest (th_Name h)) in *.
    set (f1 := (os.MkdirAll (filepath.Dir fpath) os.ModePerm f).1).
    assert (H1 : confined dest f f1)
      by (apply confined_MkdirAll, under_Dir; done).
    pose proof (confined_Create dest fpath f1 Hu) as H2.
    pose proof (Create_ok fpath f1) as Hout.
    destruct (os.Create fpath f1) as [f2 [err|out]]; simpl in *.
    + by eapply confined_trans.
    + rewrite (Hout out eq_refl).
      assert (H3 : confined dest f (os.Write fpath (rd_data body) f2)).
      { eapply confined_trans; [exact H1|].
        eapply confined_trans; [exact H2|]. by apply confined_Write. }
      destruct (rd_err body); simpl; [done|].
      eapply confined_trans; [exact H3|].
      destruct (wantsExec fpath).
      * eapply confined_trans; [by apply confined_Chmod|by apply IH].
      * by apply IH.
Qed.

(** X5: when no entry of the archive has a [..] component in its
    name, extraction writes nothing outside the destination: every
    path outside it holds what it held, new directories on the way
    down to the destination apart. *)
Theorem extraction_confined (E : env) (data : string) (dest : path) (f : fs) :
  (∀ files, zip_NewReader E data = inr files →
     (∀ zf, zf ∈ files → ".." ∉ filepath.split (zf_Name zf)) →
     confined dest f (unzipTo E data dest f).1)
  ∧ (∀ s, gzip_NewReader E data = inr s →
       ".." ∉ mjoin (filepath.split <$> tar_names s) →
       confined dest f (untarGzTo E data dest f).1).
Proof.
  split.
  - intros files Hz Hn. unfold unzipTo. rewrite Hz.
    by apply unzip_files_confined.
  - intros s Hz Hn. unfold untarGzTo. rewrite Hz.
    by apply untar_entries_confined.
Qed.

Lemma split_dotdot (n : string) :
  filepath.no_slash n = true →
  filepath.split ("../" +:+ n) = [".."; n].
Proof.
  intros Hn. unfold filepath.split.
  change ("../" +:+ n) with (String "." (String "." (String "/" n))).
  simpl. by rewrite (split_from_no_slash _ _ Hn).
Qed.

Lemma enter_valid (p : path) (n : string) :
  filepath.valid_name n = true → filepath.enter p n = p ++ [n].
Proof.
  unfold filepath.valid_name, filepath.enter. intros H.
  apply andb_prop in H as [H _]. apply andb_prop in H as [H H2].
  apply andb_prop in H as [H0 H1].
  apply negb_true_iff in H0, H1, H2. by rewrite H0, H1, H2.
Qed.

Lemma is_dir_MkdirAll p q (perm : N) f :
  os.is_dir f q = true → os.is_dir (os.MkdirAll p perm f).1 q = true.
Proof.
  unfold os.is_dir, os.node_at. destruct q as [|c q]; [done|].
  destruct (f !! (c :: q)) as [[]|] eqn:Hq; try done.
  intros _. by rewrite (MkdirAll_keeps _ _ _ _ _ Hq).
Qed.

(** X6: an entry named [../n] is written beside the destination, not
    below it: extraction does not refuse names that climb out. *)
Theorem extraction_escapes (d : path) (c n : string) (rd : reader) (f : fs) :
  filepath.valid_name n = true → n ≠ c →
  os.is_dir f d = true →
  f !! (d ++ [n]) = None →
  let dest := d ++ [c] in
  let zf := {| zf_Name := "../" +:+ n; zf_IsDir := false; zf_Open := inr rd |} in
  let h := {| th_Name := "../" +:+ n; th_IsDir := false |} in
  filepath.Join dest ("../" +:+ n) = d ++ [n]
  ∧ ¬ os.under dest (d ++ [n])
  ∧ unzip_files [zf] dest f
    = (<[d ++ [n] := File (rd_data rd) 438]> (os.MkdirAll d os.ModePerm f).1,
       None)
  ∧ ∃ m, (untar_entries (TarEntry h rd TarEOF) dest f).1 !! (d ++ [n])
         = Some (File (rd_data rd) m).
Proof.
  intros Hv Hne Hd Hfree dest zf h. subst dest zf h.
  assert (HJ : filepath.Join (d ++ [c]) ("../" +:+ n) = d ++ [n]).
  { unfold filepath.Join. rewrite split_dotdot.
    - simpl. unfold filepath.enter at 2. simpl. rewrite removelast_last.
      apply (enter_valid d n Hv).
    - unfold filepath.valid_name in Hv. by apply andb_prop in Hv as [_ ?]. }
  set (f1 := (os.MkdirAll d os.ModePerm f).1).
  assert (Hf1 : f1 !! (d ++ [n]) = None).
  { subst f1. unfold os.MkdirAll.
    destruct (mkdir_walk_change d [] f (d ++ [n])) as [->|(_ & _ & P)]; [done|].
    simpl in P. apply prefix_length in P. rewrite length_app in P.
    simpl in P. lia. }
  assert (Hd1 : os.is_dir f1 d = true) by by apply is_dir_MkdirAll.
  assert (HC : os.Create (d ++ [n]) f1
               = (<[d ++ [n] := File "" 438]> f1, inr (d ++ [n]))).
  { unfold os.Create. rewrite node_at_snoc, Hf1, Dir_snoc.
    unfold os.is_dir in Hd1. by destruct (os.node_at f1 d) as [[]|]. }
  repeat apply conj.
  - exact HJ.
  - intros Hu. apply under_snoc_inv in Hu. done.
  - simpl. rewrite HJ, Dir_snoc. fold f1. rewrite HC. simpl.
    unfold os.Write. rewrite lookup_insert_eq, insert_insert_eq. done.
  - simpl. rewrite HJ, Dir_snoc. fold f1. rewrite HC. simpl.
    unfold os.Write. rewrite lookup_insert_eq, insert_insert_eq.
    destruct (rd_err rd); simpl.
    + eexists. apply lookup_insert_eq.
    + destruct (wantsExec (d ++ [n])).
      * unfold os.Chmod. rewrite node_at_snoc, lookup_insert_eq. simpl.
        eexists. apply lookup_insert_eq.
      * simpl. eexists. apply lookup_insert_eq.
Qed.

Lemma extraction_escapes_witness :
  (unzip_files [ {| zf_Name := "../evil.sh"; zf_IsDir := false;
                    zf_Open := inr {| rd_data := "x"; rd_err := None |} |} ]
     ["w"; "mcpTmp"] Sample.fresh).1 !! ["w"; "evil.sh"]
  = Some (File "x" 438).
Proof.
  destruct (extraction_escapes ["w"] "mcpTmp" "evil.sh"
              {| rd_data := "x"; rd_err := None |} Sample.fresh)
    as (_ & _ & Hz & _).
  - reflexivity.
  - discriminate.
  - reflexivity.
  - vm_compute. reflexivity.
  - etrans;
      [exact (f_equal (λ r : fs * option error, r.1 !! ["w"; "evil.sh"]) Hz)|].
    apply lookup_insert_eq.
Defined.
End ExtractWhere.

(** ** Archive extractor: what the entries leave *)

Section ExtractContent.
Implicit Types (f g : fs) (p q dest : path).

(** Entries that do not write at [q] leave the file at [q] alone. *)
Lemma unzip_files_keeps_file (files : list zipFile) dest f q (d : string) (m : N) :
  (∀ zf, zf ∈ files → zf_IsDir zf = false →
         filepath.Join dest (zf_Name zf) ≠ q) →
  f !! q = Some (File d m) →
  (unzip_files files dest f).1 !! q = Some (File d m).
Proof.
  revert f. induction files as [|zf files IH]; intros f Hn Hq; simpl; [done|].
  assert (IH' : ∀ f0, f0 !! q = Some (File d m) →
                      (unzip_files files dest f0).1 !! q = Some (File d m)).
  { intros f0 H0. apply IH; [|done]. intros z Hz. apply Hn, elem_of_cons; auto. }
  destruct (zf_IsDir zf) eqn:Hdir.
  - apply IH'. by apply MkdirAll_keeps.
  - assert (Hne : q ≠ filepath.Join dest (zf_Name zf)).
    { intros ->. apply (Hn zf); [apply elem_of_cons; auto|done|done]. }
    set (fpath := filepath.Join dest (zf_Name zf)) in *.
    set (f1 := (os.MkdirAll (filepath.Dir fpath) os.ModePerm f).1).
    assert (H1 : f1 !! q = Some (File d m)) by by apply MkdirAll_keeps.
    destruct (zf_Open zf) as [err|rd]; simpl; [done|].
    pose proof (Create_other fpath f1 q Hne) as H2.
    pose proof (Create_ok fpath f1) as Hout.
    destruct (os.Create fpath f1) as [f2 [err|out]]; simpl in *.
    + congruence.
    + rewrite (Hout out eq_refl). apply IH'.
      rewrite Write_other by done. congruence.
Qed.

Lemma untar_entries_keeps_file (s : tarStream) dest f q (d : string) (m : N) :
  q ∉ (filepath.Join dest <$> tar_names s) →
  f !! q = Some (File d m) →
  (untar_entries s dest f).1 !! q = Some (File d m).
Proof.
  revert f. induction s as [| |h body rest IH]; intros f Hn Hq; simpl; try done.
  simpl in Hn. apply not_elem_of_cons in Hn as [Hne Hn].
  destruct (th_IsDir h).
  - apply IH; [done|]. by apply MkdirAll_keeps.
  - set (fpath := filepath.Join dest (th_Name h)) in *.
    set (f1 := (os.MkdirAll (filepath.Dir fpath) os.ModePerm f).1).
    assert (H1 : f1 !! q = Some (File d m)) by by apply MkdirAll_keeps.
    pose proof (Create_other fpath f1 q Hne) as H2.
    pose proof (Create_ok fpath f1) as Hout.
    destruct (os.Create fpath f1) as [f2 [err|out]]; simpl in *.
    + congruence.
    + rewrite (Hout out eq_refl).
      assert (H3 : os.Write fpath (rd_data body) f2 !! q = Some (File d m)).
      { rewrite Write_other by done. congruence. }
      destruct (rd_err body); simpl; [done|].
      apply IH; [done|]. destruct (wantsExec fpath); [|done].
      by rewrite Chmod_other.
Qed.

Lemma Create_ok_file p f f2 (out : path) :
  os.Create p f = (f2, inr out) →
  out = p ∧ p ≠ [] ∧ ∃ m, f2 !! p = Some (File "" m).
Proof.
  unfold os.Create. destruct p as [|c p]; [done|].
  unfold os.node_at at 1.
  destruct (f !! (c :: p)) as [[d m|]|].
  - intros H. injection H as <- <-. split; [done|]. split; [done|].
    eexists. apply lookup_insert_eq.
  - done.
  - destruct (os.node_at f (filepath.Dir (c :: p))) as [[d m|]|]; try done.
    intros H. injection H as <- <-. split; [done|]. split; [done|].
    eexists. apply lookup_insert_eq.
Qed.

(** X7: when extraction succeeds, a file entry that no later entry
    writes again is found at the destination joined with its name, with
    exactly the bytes read from the archive, for zip and for gzip-tar
    archives. *)
Theorem extraction_content (dest : path) (f : fs) :
  (∀ pre zf post rd,
     zf_IsDir zf = false → zf_Open zf = inr rd →
     (∀ z, z ∈ post → zf_IsDir z = false →
           filepath.Join dest (zf_Name z) ≠ filepath.Join dest (zf_Name zf)) →
     (unzip_files (pre ++ zf :: post) dest f).2 = None →
     ∃ m, (unzip_files (pre ++ zf :: post) dest f).1
            !! filepath.Join dest (zf_Name zf)
          = Some (File (rd_data rd) m))
  ∧ (∀ pre h body rest,
       th_IsDir h = false →
       filepath.Join dest (th_Name h)
         ∉ (filepath.Join dest <$> tar_names rest) →
       (untar_entries (tar_prepend pre (TarEntry h body rest)) dest f).2 = None →
       ∃ m, (untar_entries (tar_prepend pre (TarEntry h body rest)) dest f).1
              !! filepath.Join dest (th_Name h)
            = Some (File (rd_data body) m)).
Proof.
  split.
  - intros pre zf post rd Hdir Hopen Hpost. rewrite unzip_files_app.
    destruct (unzip_files pre dest f) as [f0 [e|]]; [done|].
    simpl. rewrite Hdir, Hopen.
    set (fpath := filepath.Join dest (zf_Name zf)) in *.
    set (f1 := (os.MkdirAll (filepath.Dir fpath) os.ModePerm f0).1).
    destruct (os.Create fpath f1) as [f2 [err|out]] eqn:HC; [done|].
    destruct (Create_ok_file _ _ _ _ HC) as (-> & _ & m & Hm).
    simpl. intros _. exists m.
    apply unzip_files_keeps_file; [done|].
    unfold os.Write. rewrite Hm. apply lookup_insert_eq.
  - intros pre h body rest Hdir Hrest. rewrite untar_entries_prepend.
    destruct (untar_entries (tar_prepend pre TarEOF) dest f) as [f0 [e|]];
      [done|].
    simpl. rewrite Hdir.
    set (fpath := filepath.Join dest (th_Name h)) in *.
    set (f1 := (os.MkdirAll (filepath.Dir fpath) os.ModePerm f0).1).
    destruct (os.Create fpath f1) as [f2 [err|out]] eqn:HC; [done|].
    destruct (Create_ok_file _ _ _ _ HC) as (-> & Hne & m & Hm).
    simpl. destruct (rd_err body); [done|]. simpl. intros _.
    assert (HW : os.Write fpath (rd_data body) f2 !! fpath
                 = Some (File (rd_data body) m)).
    { unfold os.Write. rewrite Hm. apply lookup_insert_eq. }
    destruct (wantsExec fpath).
    + exists 493%N. apply untar_entries_keeps_file; [done|].
      unfold os.Chmod. destruct fpath as [|c p]; [done|]. simpl.
      rewrite HW. simpl. apply lookup_insert_eq.
    + exists m. by apply untar_entries_keeps_file.
Qed.
End ExtractContent.

Section ExtractKinds.
Implicit Types (f g : fs) (p q dest : path).

Lemma kinds_kept_refl f : kinds_kept f f.
Proof. intros q n H. by exists n. Qed.

Lemma kinds_kept_trans (f1 f2 f3 : fs) :
  kinds_kept f1 f2 → kinds_kept f2 f3 → kinds_kept f1 f3.
Proof.
  intros H12 H23 q n H. destruct (H12 q n H) as (n2 & H2 & K2).
  destruct (H23 q n2 H2) as (n3 & H3 & K3). exists n3. split; congruence.
Qed.

Lemma kinds_kept_MkdirAll p (perm : N) f : kinds_kept f (os.MkdirAll p perm f).1.
Proof. intros q n H. exists n. split; [by apply MkdirAll_keeps|done]. Qed.

Lemma kinds_kept_Create p f : kinds_kept f (os.Create p f).1.
Proof.
  intros q n H. destruct (decide (q = p)) as [->|Hne].
  - unfold os.Create. destruct p as [|c p].
    + simpl. by exists n.
    + unfold os.node_at. rewrite H. destruct n; simpl.
      * eexists. split; [apply lookup_insert_eq|done].
      * by exists Dir.
  - exists n. by rewrite Create_other.
Qed.

Lemma kinds_kept_Write p (b : string) f : kinds_kept f (os.Write p b f).
Proof.
  intros q n H. destruct (decide (q = p)) as [->|Hne].
  - unfold os.Write. rewrite H. destruct n.
    + eexists. split; [apply lookup_insert_eq|done].
    + by exists Dir.
  - exists n. by rewrite Write_other.
Qed.

Lemma kinds_kept_Chmod p (m : N) f : kinds_kept f (os.Chmod p m f).1.
Proof.
  intros q n H. destruct (decide (q = p)) as [->|Hne].
  - unfold os.Chmod. destruct p as [|c p]; [by exists n|].
    unfold os.node_at. rewrite H. destruct n; simpl.
    + eexists. split; [apply lookup_insert_eq|done].
    + by exists Dir.
  - exists n. by rewrite Chmod_other.
Qed.

Lemma unzip_files_kinds (files : list zipFile) dest f :
  kinds_kept f (unzip_files files dest f).1.
Proof.
  revert f. induction files as [|zf files IH]; intros f; simpl.
  - apply kinds_kept_refl.
  - destruct (zf_IsDir zf).
    + eapply kinds_kept_trans; [apply kinds_kept_MkdirAll|apply IH].
    + set (fpath := filepath.Join dest (zf_Name zf)).
      set (f1 := (os.MkdirAll (filepath.Dir fpath) os.ModePerm f).1).
      assert (H1 : kinds_kept f f1) by apply kinds_kept_MkdirAll.
      destruct (zf_Open zf) as [err|rd]; simpl; [done|].
      pose proof (kinds_kept_Create fpath f1) as H2.
      destruct (os.Create fpath f1) as [f2 [err|out]]; simpl in *.
      * by eapply kinds_kept_trans.
      * eapply kinds_kept_trans; [exact H1|].
        eapply kinds_kept_trans; [exact H2|].
        eapply kinds_kept_trans; [apply kinds_kept_Write|apply IH].
Qed.

Lemma untar_entries_kinds (s : tarStream) dest f :
  kinds_kept f (untar_entries s dest f).1.
Proof.
  revert f. induction s as [| |h body rest IH]; intros f; simpl;
    try apply kinds_kept_refl.
  destruct (th_IsDir h).
  - eapply kinds_kept_trans; [apply kinds_kept_MkdirAll|apply IH].
  - set (fpath := filepath.Join dest (th_Name h)).
    set (f1 := (os.MkdirAll (filepath.Dir fpath) os.ModePerm f).1).
    assert (H1 : kinds_kept f f1) by apply kinds_kept_MkdirAll.
    pose proof (kinds_kept_Create fpath f1) as H2.
    destruct (os.Create fpath f1) as [f2 [err|out]]; simpl in *.
    + by eapply kinds_kept_trans.
    + assert (H3 : kinds_kept f (os.Write out (rd_data body) f2)).
      { eapply kinds_kept_trans; [exact H1|].
        eapply kinds_kept_trans; [exact H2|apply kinds_kept_Write]. }
      destruct (rd_err body); simpl; [done|].
      eapply kinds_kept_trans; [exact H3|].
      destruct (wantsExec fpath); [|apply IH].
      eapply kinds_kept_trans; [apply kinds_kept_Chmod|apply IH].
Qed.

(** X8: extraction removes nothing and replaces no directory by a file
    nor a file by a directory, whatever the archive and whether or not
    it fails: an entry named like an existing directory is not
    written, and a directory entry named like an existing file is
    passed over. *)
Theorem extraction_keeps_kinds (E : env) (data : string) (dest : path) (f : fs) :
  kinds_kept f (unzipTo E data dest f).1
  ∧ kinds_kept f (untarGzTo E data dest f).1.
Proof.
  unfold unzipTo, untarGzTo. split.
  - destruct (zip_NewReader E data); [apply kinds_kept_refl|].
    apply unzip_files_kinds.
  - destruct (gzip_NewReader E data); [apply kinds_kept_refl|].
    apply untar_entries_kinds.
Qed.
End ExtractKinds.

Section ZipTar.
Implicit Types (f g : fs) (p q dest : path).

Lemma same_content_lookup f g q :
  same_content f g →
  match f !! q, g !! q with
  | Some (File d _), Some (File d' _) => d = d'
  | Some Dir, Some Dir => True
  | None, None => True
  | _, _ => False
  end.
Proof.
  intros H. specialize (H q).
  destruct (f !! q) as [[]|], (g !! q) as [[]|]; simpl in H;
    try done; congruence.
Qed.

Lemma same_content_insert f g q (n n' : node) :
  content_of n = content_of n' → same_content f g →
  same_content (<[q := n]> f) (<[q := n']> g).
Proof.
  intros Hn H q'. destruct (decide (q = q')) as [<-|Hne].
  - rewrite !lookup_insert_eq. simpl. by rewrite Hn.
  - rewrite !lookup_insert_ne by done. apply H.
Qed.

Lemma same_content_node_at f g q :
  same_content f g →
  content_of <$> os.node_at f q = content_of <$> os.node_at g q.
Proof. intros H. destruct q; [done|]. apply H. Qed.

Lemma mkdir_walk_same (rest : list string) (done : path) f g :
  same_content f g →
  same_content (os.mkdir_walk done rest f).1 (os.mkdir_walk done rest g).1
  ∧ (os.mkdir_walk done rest f).2 = (os.mkdir_walk done rest g).2.
Proof.
  revert done f g. induction rest as [|c rest IH]; intros done f g H; simpl.
  - done.
  - pose proof (same_content_lookup f g (done ++ [c]) H) as Hl.
    destruct (f !! (done ++ [c])) as [[d m|]|],
             (g !! (done ++ [c])) as [[d' m'|]|]; try done; simpl.
    + by apply IH.
    + apply IH. by apply same_content_insert.
Qed.

Lemma Create_same p f g :
  same_content f g →
  same_content (os.Create p f).1 (os.Create p g).1
  ∧ (os.Create p f).2 = (os.Create p g).2.
Proof.
  intros H. unfold os.Create.
  pose proof (same_content_node_at f g p H) as Hp.
  pose proof (same_content_node_at f g (filepath.Dir p) H) as Hd.
  destruct (os.node_at f p) as [[d m|]|], (os.node_at g p) as [[d' m'|]|];
    try done; simpl.
  - split; [|done]. by apply same_content_insert.
  - destruct (os.node_at f (filepath.Dir p)) as [[d m|]|],
             (os.node_at g (filepath.Dir p)) as [[d' m'|]|]; try done; simpl.
    split; [|done]. by apply same_content_insert.
Qed.

Lemma Write_same p (b : string) f g :
  same_content f g → same_content (os.Write p b f) (os.Write p b g).
Proof.
  intros H. unfold os.Write.
  pose proof (same_content_lookup f g p H) as Hl.
  destruct (f !! p) as [[d m|]|], (g !! p) as [[d' m'|]|]; try done.
  subst. by apply same_content_insert.
Qed.

Lemma Chmod_same_l p (m : N) f g :
  same_content f g → same_content (os.Chmod p m f).1 g.
Proof.
  intros H q. unfold os.Chmod.
  destruct p as [|c p]; [apply H|]. unfold os.node_at.
  destruct (f !! (c :: p)) as [[d m0|]|] eqn:Hp; simpl; try apply H.
  destruct (decide (c :: p = q)) as [<-|Hne].
  - rewrite lookup_insert_eq, <- H, Hp. done.
  - rewrite lookup_insert_ne by done. apply H.
Qed.

Lemma same_content_sym f g : same_content f g → same_content g f.
Proof. intros H q. by rewrite H. Qed.

Lemma extract_same (es : list (string * bool * string)) dest f g :
  same_content f g →
  same_content (unzip_files (as_zip es) dest f).1
               (untar_entries (as_tar es) dest g).1
  ∧ (unzip_files (as_zip es) dest f).2 = (untar_entries (as_tar es) dest g).2.
Proof.
  revert f g. induction es as [|[[name isdir] data] es IH]; intros f g H.
  - done.
  - change (as_zip ((name, isdir, data) :: es))
      with ({| zf_Name := name; zf_IsDir := isdir;
               zf_Open := inr {| rd_data := data; rd_err := None |} |}
            :: as_zip es).
    change (as_tar ((name, isdir, data) :: es))
      with (TarEntry {| th_Name := name; th_IsDir := isdir |}
              {| rd_data := data; rd_err := None |} (as_tar es)).
    simpl. destruct isdir.
    + apply IH. apply mkdir_walk_same, H.
    + set (fpath := filepath.Join dest name).
      destruct (mkdir_walk_same (filepath.Dir fpath) [] f g H) as [H1 _].
      fold (os.MkdirAll (filepath.Dir fpath) os.ModePerm f) in H1.
      fold (os.MkdirAll (filepath.Dir fpath) os.ModePerm g) in H1.
      destruct (Create_same fpath _ _ H1) as [H2 He].
      pose proof (Create_ok fpath (os.MkdirAll (filepath.Dir fpath) os.ModePerm f).1) as Ho1.
      pose proof (Create_ok fpath (os.MkdirAll (filepath.Dir fpath) os.ModePerm g).1) as Ho2.
      destruct (os.Create fpath (os.MkdirAll (filepath.Dir fpath) os.ModePerm f).1)
        as [f2 [e1|o1]];
      destruct (os.Create fpath (os.MkdirAll (filepath.Dir fpath) os.ModePerm g).1)
        as [g2 [e2|o2]]; simpl in *; try done.
      * split; [done|congruence].
      * rewrite (Ho1 o1 eq_refl), (Ho2 o2 eq_refl).
        apply IH. destruct (wantsExec fpath).
        -- apply same_content_sym, Chmod_same_l, same_content_sym.
           by apply Write_same.
        -- by apply Write_same.
Qed.

(** X9: a zip archive and a gzip-tar archive with the same entries,
    all readable, are extracted alike: both extractions fail or
    succeed together with the same error, and they leave the same
    paths with the same kinds of node and the same contents.  Only the
    permissions can differ. *)
Theorem zip_and_tar_agree (E : env) (zdata tdata : string)
    (es : list (string * bool * string)) (dest : path) (f : fs) :
  zip_NewReader E zdata = inr (as_zip es) →
  gzip_NewReader E tdata = inr (as_tar es) →
  (unzipTo E zdata dest f).2 = (untarGzTo E tdata dest f).2
  ∧ same_content (unzipTo E zdata dest f).1 (untarGzTo E tdata dest f).1.
Proof.
  intros Hz Ht. unfold unzipTo, untarGzTo. rewrite Hz, Ht.
  destruct (extract_same es dest f f) as [H1 H2]; [done|]. done.
Qed.

Lemma zip_and_tar_agree_witness :
  same_content (unzipTo Sample.linux "MCP" ["w"; "mcpTmp"] Sample.fresh).1
               (untarGzTo Sample.linux "MCP" ["w"; "mcpTmp"] Sample.fresh).1.
Proof.
  apply (zip_and_tar_agree Sample.linux "MCP" "MCP"
           [("xmlui-mcp", false, "ELF"); ("xmlui-mcp-client", false, "ELF");
            ("run-mcp-client.sh", false, "#!/bin/sh")]);
    reflexivity.
Defined.
End ZipTar.

(** ** Layout assembler: the recursive copy *)

Section CopyFiles.
Implicit Types (f g : fs) (p q src dst : path).

Lemma names_valid_insert f p (n : node) :
  names_valid f → valid_path p → names_valid (<[p := n]> f).
Proof.
  intros Hf Hp q n' Hq. destruct (decide (p = q)) as [<-|Hne]; [done|].
  rewrite lookup_insert_ne in Hq by done. by apply (Hf q n').
Qed.

Lemma names_valid_mkdir_walk (rest : list string) (done : path) f :
  names_valid f → valid_path (done ++ rest) →
  names_valid (os.mkdir_walk done rest f).1.
Proof.
  revert done f. induction rest as [|c rest IH]; intros done f Hf Hp; simpl.
  - done.
  - assert (Hp' : valid_path ((done ++ [c]) ++ rest)) by by rewrite <- app_assoc.
    destruct (f !! (done ++ [c])) as [[d m|]|]; simpl.
    + done.
    + by apply IH.
    + apply IH; [|done]. apply names_valid_insert; [done|].
      apply Forall_app in Hp' as [? _]. done.
Qed.

Lemma names_valid_MkdirAll p (perm : N) f :
  names_valid f → valid_path p → names_valid (os.MkdirAll p perm f).1.
Proof. intros. by apply names_valid_mkdir_walk. Qed.

Lemma names_valid_WriteFile p (data : string) (perm : N) f :
  names_valid f → valid_path p → names_valid (os.WriteFile p data perm f).1.
Proof.
  intros Hf Hp. unfold os.WriteFile.
  destruct (os.node_at f p) as [[d m|]|]; simpl; try done.
  - by apply names_valid_insert.
  - destruct (os.node_at f (filepath.Dir p)) as [[d m|]|]; simpl; try done.
    by apply names_valid_insert.
Qed.

Lemma WriteFile_other p (data : string) (perm : N) f q :
  q ≠ p → (os.WriteFile p data perm f).1 !! q = f !! q.
Proof.
  intros Hne. unfold os.WriteFile.
  destruct (os.node_at f p) as [[d m|]|]; simpl; try done.
  - by rewrite lookup_insert_ne.
  - destruct (os.node_at f (filepath.Dir p)) as [[d m|]|]; simpl; try done.
    by rewrite lookup_insert_ne.
Qed.

Lemma WriteFile_ok p (data : string) (perm : N) f :
  p ≠ [] → (os.WriteFile p data perm f).2 = None →
  ∃ m, (os.WriteFile p data perm f).1 !! p = Some (File data m).
Proof.
  intros Hp. unfold os.WriteFile. destruct p as [|c p]; [done|].
  change (os.node_at f (c :: p)) with (f !! (c :: p)).
  destruct (f !! (c :: p)) as [[d m|]|].
  - simpl. intros _. eexists. apply lookup_insert_eq.
  - done.
  - destruct (os.node_at f (filepath.Dir (c :: p))) as [[d m|]|];
      try done.
    simpl. intros _. eexists. apply lookup_insert_eq.
Qed.

Lemma valid_path_snoc p (c : string) :
  valid_path p → filepath.valid_name c = true → valid_path (p ++ [c]).
Proof. intros Hp Hc. apply Forall_app. split; [done|]. by constructor. Qed.

Lemma copy_entries_keeps copy (entries : list DirEntry) src dst f :
  copy_keeps copy →
  Forall (λ e, filepath.valid_name (Name e) = true) entries →
  names_valid f → valid_path src → valid_path dst →
  names_valid (copy_entries copy entries src dst f).1
  ∧ ∀ q n, (∀ e, e ∈ entries → ¬ os.under (dst ++ [Name e]) q) →
           f !! q = Some n →
           (copy_entries copy entries src dst f).1 !! q = Some n.
Proof.
  intros Hcopy. revert f.
  induction entries as [|e entries IH]; intros f Hes Hf Hsrc Hdst; simpl.
  - done.
  - apply Forall_cons in Hes as [He Hes].
    rewrite !(Join_valid _ _ He).
    assert (Hdp : valid_path (dst ++ [Name e])) by by apply valid_path_snoc.
    assert (Hrest : ∀ f0, names_valid f0 →
              names_valid (copy_entries copy entries src dst f0).1
              ∧ ∀ q n, (∀ e', e' ∈ entries → ¬ os.under (dst ++ [Name e']) q) →
                       f0 !! q = Some n →
                       (copy_entries copy entries src dst f0).1 !! q = Some n)
      by (intros f0 H0; by apply IH).
    assert (Hweak : ∀ q, (∀ e', e' ∈ e :: entries → ¬ os.under (dst ++ [Name e']) q) →
              ¬ os.under (dst ++ [Name e]) q
              ∧ ∀ e', e' ∈ entries → ¬ os.under (dst ++ [Name e']) q).
    { intros q Hq. split; [apply Hq, elem_of_cons; auto|].
      intros e' He'. apply Hq, elem_of_cons; auto. }
    destruct (IsDir e).
    + set (f1 := (os.MkdirAll (dst ++ [Name e]) 493 f).1).
      assert (Hf1 : names_valid f1) by by apply names_valid_MkdirAll.
      destruct (Hcopy (src ++ [Name e]) (dst ++ [Name e]) f1 Hf1 Hdp)
        as [Hv2 Hk2].
      destruct (copy (src ++ [Name e]) (dst ++ [Name e]) f1) as [f2 [err|]];
        simpl in *.
      * split; [done|]. intros q n Hq Hn. apply Hweak in Hq as [Hq _].
        apply Hk2; [done|]. by apply MkdirAll_keeps.
      * destruct (Hrest f2 Hv2) as [Hv3 Hk3]. split; [done|].
        intros q n Hq Hn. apply Hweak in Hq as [Hq Hq'].
        apply Hk3; [done|]. apply Hk2; [done|]. by apply MkdirAll_keeps.
    + destruct (os.ReadFile (src ++ [Name e]) f) as [err|data]; simpl.
      * split; [done|]. intros q n _ Hn. done.
      * pose proof (names_valid_WriteFile (dst ++ [Name e]) data 420 f Hf Hdp)
          as Hv2.
        pose proof (WriteFile_other (dst ++ [Name e]) data 420 f) as Hk2.
        destruct (os.WriteFile (dst ++ [Name e]) data 420 f) as [f2 [err|]];
          simpl in *.
        -- split; [done|]. intros q n Hq Hn. apply Hweak in Hq as [Hq _].
           rewrite Hk2; [done|]. intros ->. apply Hq, under_refl.
        -- destruct (Hrest f2 Hv2) as [Hv3 Hk3]. split; [done|].
           intros q n Hq Hn. apply Hweak in Hq as [Hq Hq'].
           apply Hk3; [done|]. rewrite Hk2; [done|].
           intros ->. apply Hq, under_refl.
Qed.

Lemma ReadDir_names_valid src f (entries : list DirEntry) :
  names_valid f → os.ReadDir src f = inr entries →
  Forall (λ e, filepath.valid_name (Name e) = true) entries.
Proof.
  intros Hf Hrd. apply Forall_forall. intros e He.
  by destruct (listed_entry _ _ _ _ Hf Hrd He).
Qed.

Lemma ReadDir_valid_path src f (entries : list DirEntry) (e : DirEntry) :
  names_valid f → os.ReadDir src f = inr entries → e ∈ entries →
  valid_path src.
Proof.
  intros Hf Hrd He.
  destruct (listed_entry _ _ _ _ Hf Hrd He) as (_ & _ & n & Hn & _).
  rewrite node_at_snoc in Hn. specialize (Hf _ _ Hn).
  by apply Forall_app in Hf as [? _].
Qed.

Lemma copyFiles_keeps (depth : nat) : copy_keeps (copyFiles depth).
Proof.
  induction depth as [|depth IH]; intros src dst f Hf Hdst; simpl.
  - done.
  - destruct (os.ReadDir src f) as [err|entries] eqn:Hrd; simpl; [done|].
    destruct entries as [|e0 entries0] eqn:Hent; [done|]. rewrite <- Hent in *.
    assert (Hsrc : valid_path src).
    { apply (ReadDir_valid_path src f entries e0); [done|done|].
      rewrite Hent. apply elem_of_cons; auto. }
    destruct (copy_entries_keeps (copyFiles depth) entries src dst f IH
                (ReadDir_names_valid _ _ _ Hf Hrd) Hf Hsrc Hdst) as [Hv Hk].
    split; [done|]. intros q n Hq Hn. apply Hk; [|done].
    intros e _ Hu. apply Hq. unfold os.under in *.
    etrans; [|exact Hu]. by apply prefix_app_r.
Qed.

(** X10: [copyFiles] changes nothing outside its destination: in a
    file system with proper names, every node that is not at or below
    [dst] is after the copy what it was before, whether the copy fails
    or not.  In particular the source tree is left as it was when it is
    not below the destination. *)
Theorem copyFiles_outside_untouched (depth : nat) (src dst : path) (f : fs)
    (q : path) (n : node) :
  names_valid f → valid_path dst →
  ¬ os.under dst q → f !! q = Some n →
  (copyFiles depth src dst f).1 !! q = Some n.
Proof.
  intros Hf Hdst Hq Hn.
  by apply (proj2 (copyFiles_keeps depth src dst f Hf Hdst)).
Qed.

Lemma copy_entries_app copy (l1 l2 : list DirEntry) src dst f :
  copy_entries copy (l1 ++ l2) src dst f =
    match copy_entries copy l1 src dst f with
    | (f1, None) => copy_entries copy l2 src dst f1
    | (f1, Some err) => (f1, Some err)
    end.
Proof.
  revert f. induction l1 as [|e l1 IH]; intros f; simpl; [done|].
  destruct (IsDir e).
  - destruct (copy _ _ _) as [f2 [err|]]; [done|]. apply IH.
  - destruct (os.ReadFile _ _) as [err|data]; [done|].
    destruct (os.WriteFile _ _ _ _) as [f2 [err|]]; [done|]. apply IH.
Qed.

Lemma apart_below src dst (l t : path) :
  ¬ os.under dst src → ¬ os.under src dst →
  ¬ os.under (dst ++ l) (src ++ t) ∧ ¬ os.under (src ++ l) (dst ++ t).
Proof.
  intros H1 H2. unfold os.under in *. split; intros Hu.
  - destruct (prefix_comparable dst src (src ++ t)); try done.
    + etrans; [|exact Hu]. by apply prefix_app_r.
    + by apply prefix_app_r.
  - destruct (prefix_comparable src dst (dst ++ t)); try done.
    + etrans; [|exact Hu]. by apply prefix_app_r.
    + by apply prefix_app_r.
Qed.

Lemma copyFiles_copies (depth : nat) : ∀ src dst f f',
  names_valid f → valid_path dst →
  ¬ os.under dst src → ¬ os.under src dst →
  copyFiles depth src dst f = (f', None) →
  ∀ (s : path) (data : string) (m : N),
    s ≠ [] →
    f !! (src ++ s) = Some (File data m) →
    (∀ k, (0 < k < List.length s)%nat → f !! (src ++ take k s) = Some Dir) →
    ∃ m', f' !! (dst ++ s) = Some (File data m').
Proof.
  induction depth as [|depth IH];
    intros src dst f f' Hf Hdst Ha1 Ha2 Hcopy s data m Hs Hfile Hdirs.
  - done.
  - simpl in Hcopy.
    destruct (os.ReadDir src f) as [err|entries] eqn:Hrd; [done|].
    destruct s as [|name s']; [done|]. clear Hs.
    assert (Hnd : ∃ nd, f !! (src ++ [name]) = Some nd
                        ∧ is_Dir nd = negb (bool_decide (s' = []))).
    { destruct s' as [|c s'].
      - exists (File data m). done.
      - exists Dir. split; [|done].
        apply (Hdirs 1%nat). simpl. lia. }
    destruct Hnd as (nd & Hnd & Hkind).
    set (e := {| Name := name; IsDir := is_Dir nd |}).
    assert (He : e ∈ entries).
    { apply (ReadDir_elem _ _ _ e Hrd). exists nd. split; [done|].
      by destruct nd. }
    destruct (listed_entry _ _ _ _ Hf Hrd He) as (Hvn & _ & _).
    simpl in Hvn.
    assert (Hsrc : valid_path src)
      by by apply (ReadDir_valid_path src f entries e).
    pose proof (ReadDir_names_valid _ _ _ Hf Hrd) as Hall.
    apply list_elem_of_split in He as (pre & post & ->).
    assert (Hother : ∀ x, x ∈ pre ++ post → Name x ≠ name)
      by (intros x Hx; apply (ReadDir_other_name _ _ _ _ _ _ Hrd Hx)).
    apply Forall_app in Hall as [Hallpre Hallpost].
    apply Forall_cons in Hallpost as [_ Hallpost].
    rewrite copy_entries_app in Hcopy.
    destruct (copy_entries_keeps (copyFiles depth) pre src dst f
                (copyFiles_keeps depth) Hallpre Hf Hsrc Hdst) as [Hv1 Hk1].
    destruct (copy_entries (copyFiles depth) pre src dst f) as [f1 [err|]];
      [done|]. simpl in Hv1, Hk1.
    assert (Hsrc1 : ∀ t n, f !! (src ++ t) = Some n → f1 !! (src ++ t) = Some n).
    { intros t n Hn. apply Hk1; [|done]. intros x _.
      by apply (apart_below src dst [Name x] t). }
    assert (Hpost : ∀ f2 q n, names_valid f2 →
              (∀ x, x ∈ post → ¬ os.under (dst ++ [Name x]) q) →
              f2 !! q = Some n →
              (copy_entries (copyFiles depth) post src dst f2).1 !! q = Some n).
    { intros f2 q n Hv2 Hq Hn.
      by apply (proj2 (copy_entries_keeps (copyFiles depth) post src dst f2
                         (copyFiles_keeps depth) Hallpost Hv2 Hsrc Hdst)). }
    assert (Hsib : ∀ x t, x ∈ post → ¬ os.under (dst ++ [Name x]) (dst ++ name :: t)).
    { intros x t Hx Hu. apply under_snoc_app_inv in Hu.
      apply (Hother x); [apply elem_of_app; auto|done]. }
    assert (Hdp : valid_path (dst ++ [name])) by by apply valid_path_snoc.
    simpl in Hcopy. rewrite !(Join_valid _ _ Hvn) in Hcopy.
    destruct nd as [d0 m0|]; simpl in Hcopy, Hkind.
    + (* a file of the directory itself *)
      destruct s' as [|c s']; [|done].
      rewrite Hfile in Hnd. injection Hnd as <- <-.
      unfold os.ReadFile in Hcopy. rewrite node_at_snoc in Hcopy.
      rewrite (Hsrc1 [name] _ Hfile) in Hcopy.
      pose proof (names_valid_WriteFile (dst ++ [name]) data 420 f1 Hv1 Hdp)
        as Hv2.
      assert (Hne : dst ++ [name] ≠ []) by by destruct dst.
      pose proof (WriteFile_ok (dst ++ [name]) data 420 f1 Hne) as Hw.
      destruct (os.WriteFile (dst ++ [name]) data 420 f1) as [f2 [err|]];
        [done|]. simpl in *.
      destruct (Hw eq_refl) as [m' Hm']. exists m'.
      assert (Hf' : f' = (copy_entries (copyFiles depth) post src dst f2).1)
        by by rewrite Hcopy.
      rewrite Hf'.
      apply Hpost; [done| |done]. intros x Hx. by apply Hsib.
    + (* a file further down *)
      destruct s' as [|c s']; [done|].
      set (f1' := (os.MkdirAll (dst ++ [name]) 493 f1).1) in *.
      assert (Hv1' : names_valid f1') by by apply names_valid_MkdirAll.
      destruct (copyFiles_keeps depth (src ++ [name]) (dst ++ [name]) f1'
                  Hv1' Hdp) as [Hv2 _].
      destruct (copyFiles depth (src ++ [name]) (dst ++ [name]) f1')
        as [f2 [err|]] eqn:Hrec; [done|]. simpl in Hv2.
      destruct (apart_below src dst [name] [name] Ha1 Ha2) as [Hb1 Hb2].
      destruct (IH _ _ _ _ Hv1' Hdp Hb1 Hb2 Hrec (c :: s') data m) as [m' Hm'].
      * done.
      * rewrite <- app_assoc. apply MkdirAll_keeps. by apply Hsrc1.
      * intros k Hk. rewrite <- app_assoc. apply MkdirAll_keeps.
        apply Hsrc1. apply (Hdirs (S k)). simpl in *. lia.
      * exists m'.
        assert (Hf' : f' = (copy_entries (copyFiles depth) post src dst f2).1)
          by by rewrite Hcopy.
        rewrite Hf'. rewrite <- app_assoc in Hm'.
        apply Hpost; [done| |done]. intros x Hx. by apply Hsib.
Qed.

(** X11: a successful [copyFiles] between two directories neither of
    which is below the other copies every file of the source tree:
    a file found at a path below [src], all of whose parent directories
    up to [src] exist, is found with the same content at the same
    relative path below [dst]. *)
Theorem copyFiles_copies_tree (depth : nat) (src dst : path) (f f' : fs)
    (s : path) (data : string) (m : N) :
  names_valid f → valid_path dst →
  ¬ os.under dst src → ¬ os.under src dst →
  copyFiles depth src dst f = (f', None) →
  s ≠ [] →
  f !! (src ++ s) = Some (File data m) →
  (∀ k, (0 < k < List.length s)%nat → f !! (src ++ take k s) = Some Dir) →
  ∃ m', f' !! (dst ++ s) = Some (File data m').
Proof. intros. by eapply copyFiles_copies. Qed.
End CopyFiles.

Section CopyDepth.
Implicit Types (f g : fs) (p q src dst : path).

Lemma MkdirAll_exact dst p (perm : N) f q :
  os.under dst p → ¬ os.under dst q → ¬ q `prefix_of` dst →
  (os.MkdirAll p perm f).1 !! q = f !! q.
Proof.
  intros Hp Hq Hq'. unfold os.MkdirAll.
  destruct (mkdir_walk_change p [] f q) as [E|(_ & _ & P)]; [done|].
  simpl in P. destruct (prefix_comparable q dst p P Hp); done.
Qed.

Lemma copy_entries_exact copy (entries : list DirEntry) src dst f :
  copy_keeps copy → copy_exact copy →
  Forall (λ e, filepath.valid_name (Name e) = true) entries →
  names_valid f → valid_path src → valid_path dst →
  ∀ q, ¬ os.under dst q → ¬ q `prefix_of` dst →
       (copy_entries copy entries src dst f).1 !! q = f !! q.
Proof.
  intros Hkeep Hexact. revert f.
  induction entries as [|e entries IH];
    intros f Hes Hf Hsrc Hdst q Hq Hq'; simpl.
  - done.
  - apply Forall_cons in Hes as [He Hes].
    rewrite !(Join_valid _ _ He).
    assert (Hdp : valid_path (dst ++ [Name e])) by by apply valid_path_snoc.
    assert (Hu : os.under dst (dst ++ [Name e])) by by apply prefix_app_r.
    assert (Hq1 : ¬ os.under (dst ++ [Name e]) q).
    { intros H. apply Hq. unfold os.under in *. by etrans. }
    assert (Hq2 : ¬ q `prefix_of` dst ++ [Name e]).
    { intros H. destruct (prefix_comparable q dst (dst ++ [Name e])); done. }
    destruct (IsDir e).
    + set (f1 := (os.MkdirAll (dst ++ [Name e]) 493 f).1).
      assert (Hf1 : names_valid f1) by by apply names_valid_MkdirAll.
      assert (E1 : f1 !! q = f !! q) by by apply (MkdirAll_exact dst).
      destruct (Hkeep (src ++ [Name e]) (dst ++ [Name e]) f1 Hf1 Hdp)
        as [Hv2 _].
      pose proof (Hexact (src ++ [Name e]) (dst ++ [Name e]) f1 Hf1 Hdp q
                    Hq1 Hq2) as E2.
      destruct (copy (src ++ [Name e]) (dst ++ [Name e]) f1) as [f2 [err|]];
        simpl in *; [congruence|].
      rewrite IH; [congruence|done..].
    + destruct (os.ReadFile (src ++ [Name e]) f) as [err|data]; simpl; [done|].
      pose proof (names_valid_WriteFile (dst ++ [Name e]) data 420 f Hf Hdp)
        as Hv2.
      assert (E2 : (os.WriteFile (dst ++ [Name e]) data 420 f).1 !! q = f !! q).
      { apply WriteFile_other. intros ->. apply Hq1, under_refl. }
      destruct (os.WriteFile (dst ++ [Name e]) data 420 f) as [f2 [err|]];
        simpl in *; [done|].
      rewrite IH; [congruence|done..].
Qed.

Lemma copyFiles_exact (depth : nat) : copy_exact (copyFiles depth).
Proof.
  induction depth as [|depth IH]; intros src dst f Hf Hdst q Hq Hq'; simpl.
  - done.
  - destruct (os.ReadDir src f) as [err|entries] eqn:Hrd; simpl; [done|].
    destruct entries as [|e0 entries0] eqn:Hent; [done|]. rewrite <- Hent in *.
    assert (Hsrc : valid_path src).
    { apply (ReadDir_valid_path src f entries e0); [done|done|].
      rewrite Hent. apply elem_of_cons; auto. }
    apply copy_entries_exact; try done.
    + apply copyFiles_keeps.
    + by apply (ReadDir_names_valid src f).
Qed.

(** The loop of [copyFiles] does not run out of depth when every
    directory listed has room for what is below it. *)
Lemma copy_entries_depth copy (entries : list DirEntry) src dst f :
  copy_keeps copy → copy_exact copy →
  ¬ os.under dst src → ¬ os.under src dst →
  Forall (λ e, filepath.valid_name (Name e) = true) entries →
  names_valid f → valid_path src → valid_path dst →
  (∀ e f0, e ∈ entries → IsDir e = true → names_valid f0 →
           (∀ q, os.under (src ++ [Name e]) q → f0 !! q = f !! q) →
           (copy (src ++ [Name e]) (dst ++ [Name e]) f0).2 ≠ Some tooDeep) →
  (copy_entries copy entries src dst f).2 ≠ Some tooDeep.
Proof.
  intros Hkeep Hexact Ha1 Ha2. revert f.
  induction entries as [|e entries IH];
    intros f Hes Hf Hsrc Hdst Hcall; simpl.
  - done.
  - apply Forall_cons in Hes as [He Hes].
    rewrite !(Join_valid _ _ He).
    assert (Hdp : valid_path (dst ++ [Name e])) by by apply valid_path_snoc.
    assert (Hout : ∀ q, os.under src q →
              ¬ os.under dst q ∧ ¬ q `prefix_of` dst).
    { intros q [t ->]. split.
      - intros Hu. apply (proj1 (apart_below src dst [] t Ha1 Ha2)).
        by rewrite app_nil_r.
      - intros Hp. apply Ha2. unfold os.under. etrans; [|exact Hp].
        by apply prefix_app_r. }
    assert (Hnext : ∀ f2, names_valid f2 →
              (∀ q, os.under src q → f2 !! q = f !! q) →
              (copy_entries copy entries src dst f2).2 ≠ Some tooDeep).
    { intros f2 Hv2 Hsame. apply IH; try done.
      intros e' f0 He' Hd' Hv0 H0. apply Hcall; [apply elem_of_cons; auto|done..|].
      intros q Hq. rewrite H0 by done. apply Hsame.
      unfold os.under in *. etrans; [|exact Hq]. by apply prefix_app_r. }
    destruct (IsDir e) eqn:Hd.
    + set (f1 := (os.MkdirAll (dst ++ [Name e]) 493 f).1).
      assert (Hf1 : names_valid f1) by by apply names_valid_MkdirAll.
      assert (E1 : ∀ q, os.under src q → f1 !! q = f !! q).
      { intros q Hq. destruct (Hout q Hq).
        apply (MkdirAll_exact dst); [by apply prefix_app_r|done..]. }
      destruct (Hkeep (src ++ [Name e]) (dst ++ [Name e]) f1 Hf1 Hdp)
        as [Hv2 _].
      pose proof (Hexact (src ++ [Name e]) (dst ++ [Name e]) f1 Hf1 Hdp) as E2.
      pose proof (Hcall e f1 (proj2 (elem_of_cons _ _ _) (or_introl eq_refl))
                    Hd Hf1) as Hc.
      destruct (copy (src ++ [Name e]) (dst ++ [Name e]) f1) as [f2 [err|]];
        simpl in *.
      * apply Hc. intros q Hq. apply E1. unfold os.under in *.
        etrans; [|exact Hq]. by apply prefix_app_r.
      * apply Hnext; [done|]. intros q Hq. destruct (Hout q Hq) as [O1 O2].
        rewrite E2; [by apply E1| |].
        -- intros H. apply O1. unfold os.under in *.
           etrans; [|exact H]. by apply prefix_app_r.
        -- intros H.
           destruct (prefix_comparable q dst (dst ++ [Name e])); try done.
           by apply prefix_app_r.
    + destruct (os.ReadFile (src ++ [Name e]) f) as [err|data] eqn:Hread;
        simpl.
      * unfold os.ReadFile in Hread.
        destruct (os.node_at f (src ++ [Name e])) as [[]|]; try done;
          by injection Hread as <-.
      * pose proof (names_valid_WriteFile (dst ++ [Name e]) data 420 f Hf Hdp)
          as Hv2.
        pose proof (WriteFile_other (dst ++ [Name e]) data 420 f) as E2.
        assert (Herr : ∀ err, (os.WriteFile (dst ++ [Name e]) data 420 f).2
                              = Some err → err ≠ tooDeep).
        { intros err. unfold os.WriteFile.
          destruct (os.node_at f (dst ++ [Name e])) as [[]|]; simpl;
            try (intros [= <-]; done); try done.
          destruct (os.node_at f (filepath.Dir (dst ++ [Name e]))) as [[]|];
            simpl; try (intros [= <-]; done); done. }
        destruct (os.WriteFile (dst ++ [Name e]) data 420 f) as [f2 [err|]];
          simpl in *.
        -- intros [= ->]. by apply (Herr tooDeep).
        -- apply Hnext; [done|]. intros q Hq. destruct (Hout q Hq) as [O1 O2].
           apply E2. intros ->. apply O1. by apply prefix_app_r.
Qed.
End CopyDepth.

Section CopyDepth2.
Implicit Types (f g : fs) (p q src dst : path).

Lemma copyFiles_depth_enough (depth : nat) : ∀ src dst f,
  names_valid f → valid_path dst →
  ¬ os.under dst src → ¬ os.under src dst →
  (0 < depth)%nat →
  (∀ q, os.under src q → q ≠ src → is_Some (f !! q) →
        (List.length q < List.length src + depth)%nat) →
  (copyFiles depth src dst f).2 ≠ Some tooDeep.
Proof.
  induction depth as [|depth IH]; intros src dst f Hf Hdst Ha1 Ha2 Hpos Hroom.
  - lia.
  - simpl. destruct (os.ReadDir src f) as [err|entries] eqn:Hrd; simpl.
    + unfold os.ReadDir in Hrd.
      destruct (os.node_at f src) as [[]|]; try done;
        by injection Hrd as <-.
    + destruct entries as [|e0 entries0] eqn:Hent; [done|].
      rewrite <- Hent in *.
      assert (Hsrc : valid_path src).
      { apply (ReadDir_valid_path src f entries e0); [done|done|].
        rewrite Hent. apply elem_of_cons; auto. }
      apply copy_entries_depth; try done.
      * apply copyFiles_keeps.
      * apply copyFiles_exact.
      * by apply (ReadDir_names_valid src f).
      * intros e f0 He Hd Hv0 Hsame.
        destruct (listed_entry _ _ _ _ Hf Hrd He) as (Hvn & _ & n & Hn & _).
        rewrite node_at_snoc in Hn.
        assert (Hlen : (List.length (src ++ [Name e])
                        < List.length src + S depth)%nat).
        { apply Hroom; [by apply prefix_app_r| |by rewrite Hn].
          intros H. apply (f_equal List.length) in H.
          rewrite length_app in H. simpl in H. lia. }
        rewrite length_app in Hlen. simpl in Hlen.
        destruct (apart_below src dst [Name e] [Name e] Ha1 Ha2) as [Hb1 Hb2].
        apply IH; try done.
        -- by apply valid_path_snoc.
        -- lia.
        -- intros q Hq Hne Hsome. rewrite Hsame in Hsome by done.
           rewrite length_app. simpl.
           assert ((List.length q < List.length src + S depth)%nat); [|lia].
           apply Hroom; [|intros ->|done].
           ++ unfold os.under in *. etrans; [|exact Hq]. by apply prefix_app_r.
           ++ apply prefix_length in Hq. rewrite length_app in Hq.
              simpl in Hq. lia.
Qed.

Lemma le_foldr_max (l : list nat) (x : nat) :
  x ∈ l → (x ≤ foldr Nat.max 0 l)%nat.
Proof.
  induction l as [|y l IH]; intros Hx; [by apply elem_of_nil in Hx|].
  apply elem_of_cons in Hx as [->|Hx]; simpl; [lia|].
  specialize (IH Hx). lia.
Qed.

Lemma tree_depth_bound f q :
  is_Some (f !! q) → (List.length q < tree_depth f)%nat.
Proof.
  intros [n Hn]. unfold tree_depth.
  assert ((List.length q
           ≤ foldr Nat.max 0 ((λ kv : path * node, List.length kv.1)
                                <$> map_to_list f))%nat); [|lia].
  apply le_foldr_max. apply list_elem_of_fmap. exists (q, n). split; [done|].
  by apply elem_of_map_to_list.
Qed.

(** X12: with the nesting bound [main] gives it, [copyFiles] never
    stops for lack of depth: between two directories neither of which
    is below the other, the only errors it returns are those of
    reading the source and writing the destination. *)
Theorem copyFiles_depth_suffices (src dst : path) (f : fs) :
  names_valid f → valid_path dst →
  ¬ os.under dst src → ¬ os.under src dst →
  (copyFiles (tree_depth f) src dst f).2 ≠ Some tooDeep.
Proof.
  intros Hf Hdst Ha1 Ha2. apply copyFiles_depth_enough; try done.
  - unfold tree_depth. lia.
  - intros q _ _ Hq. pose proof (tree_depth_bound f q Hq). lia.
Qed.

Lemma library_valid : names_valid Tree.library.
Proof. unfold names_valid. apply (bool_decide_unpack _). vm_compute. exact I. Qed.

Lemma library_apart :
  ¬ os.under ["w"; "out"] ["w"; "lib"] ∧ ¬ os.under ["w"; "lib"] ["w"; "out"].
Proof.
  split; intros [s H]; simpl in H; discriminate.
Qed.

Lemma copyFiles_depth_suffices_witness :
  (copyFiles (tree_depth Tree.library) ["w"; "lib"] ["w"; "out"] Tree.library).2
  ≠ Some tooDeep.
Proof.
  apply copyFiles_depth_suffices.
  - apply library_valid.
  - repeat constructor.
  - apply library_apart.
  - apply library_apart.
Defined.

Lemma copyFiles_outside_untouched_witness :
  (copyFiles 3 ["w"; "lib"] ["w"; "out"] Tree.library).1
    !! ["w"; "lib"; "sub"; "b.md"] = Some (File "B" 420).
Proof.
  apply copyFiles_outside_untouched.
  - apply library_valid.
  - repeat constructor.
  - intros [s H]; simpl in H; discriminate.
  - vm_compute. reflexivity.
Defined.

Lemma copyFiles_copies_tree_witness :
  ∃ m', (copyFiles 3 ["w"; "lib"] ["w"; "out"] Tree.library).1
          !! ["w"; "out"; "sub"; "b.md"] = Some (File "B" m').
Proof.
  apply (copyFiles_copies_tree 3 ["w"; "lib"] ["w"; "out"] Tree.library
           (copyFiles 3 ["w"; "lib"] ["w"; "out"] Tree.library).1
           ["sub"; "b.md"] "B" 420).
  - apply library_valid.
  - repeat constructor.
  - apply library_apart.
  - apply library_apart.
  - assert (H2 : (copyFiles 3 ["w"; "lib"] ["w"; "out"] Tree.library).2 = None)
      by (vm_compute; reflexivity).
    destruct (copyFiles 3 ["w"; "lib"] ["w"; "out"] Tree.library) as [a b].
    simpl in *. by subst b.
  - discriminate.
  - vm_compute. reflexivity.
  - intros k Hk. simpl in Hk. assert (k = 1%nat) as -> by lia.
    vm_compute. reflexivity.
Defined.
End CopyDepth2.

(** ** The modes of the relocated tools *)
Section RelocateModes.
Variables (E : env) (d : path).

Lemma relocate_app (names1 names2 : list string) (w : world) :
  relocate E d (names1 ++ names2) w
  = relocate E d names2 (relocate E d names1 w).
Proof.
  revert w. induction names1 as [|n names1 IH]; intros w; [done|].
  rewrite <- app_comm_cons, relocate_cons, IH.
  by rewrite (relocate_cons E d n names1).
Qed.

(** One round of the loop on a file that is there: the mode it leaves. *)
Lemma relocate_one_mode (name c : string) (m : N) (w : world) :
  filepath.valid_name name = true →
  w_fs w !! (tmpMCP d ++ [name]) = Some (File c m) →
  os.is_dir (w_fs w) (mcpDir d) = true →
  os.node_at (w_fs w) (mcpDir d ++ [name]) ≠ Some Dir →
  w_fs (relocate E d [name] w) !! (mcpDir d ++ [name])
  = Some (File c (if negb (String.eqb (GOOS E) "windows")
                     && (strings.HasSuffix name ".sh"
                         || negb (strings.Contains name "."))
                  then 493%N else m)).
Proof.
  intros Hv Hsrc Hmcp Hdst. unfold relocate.
  rewrite !(Join_valid _ _ Hv).
  rewrite (Rename_file _ _ _ c m); try done.
  - set (f1 := os.move_tree _ _ _).
    assert (H1 : f1 !! (mcpDir d ++ [name]) = Some (File c m)).
    { pose proof (move_tree_lookup_moved (tmpMCP d ++ [name])
                    (mcpDir d ++ [name]) (w_fs w) []) as H.
      rewrite !app_nil_r in H. by rewrite <- Hsrc. }
    destruct (negb _ && _); simpl; [|done].
    unfold os.Chmod. rewrite node_at_snoc, H1. simpl.
    by rewrite lookup_insert_eq.
  - by rewrite node_at_snoc.
  - by rewrite Dir_snoc.
  - rewrite tmpMCP_eq, mcpDir_eq, <- !app_assoc.
    intros H. apply app_inv_head in H. discriminate.
Qed.

Lemma expectedFiles_proper :
  NoDup (expectedFiles E)
  ∧ Forall (λ n, filepath.valid_name n = true) (expectedFiles E).
Proof.
  unfold expectedFiles. destruct (String.eqb _ _); split.
  all: apply (bool_decide_unpack _); vm_compute; exact I.
Qed.

(** The mode of a file of the expected list that the loop moves. *)
Lemma relocate_moved_mode (w : world) (name c : string) (m : N) :
  name ∈ expectedFiles E →
  w_fs w !! (tmpMCP d ++ [name]) = Some (File c m) →
  os.is_dir (w_fs w) (mcpDir d) = true →
  os.node_at (w_fs w) (mcpDir d ++ [name]) ≠ Some Dir →
  w_fs (relocate E d (expectedFiles E) w) !! (mcpDir d ++ [name])
  = Some (File c (if String.eqb (GOOS E) "windows" then m else 493%N)).
Proof.
  intros Hin Hsrc Hmcp Hdst.
  destruct expectedFiles_proper as [Hnd Hv].
  assert (Hmode : (if negb (String.eqb (GOOS E) "windows")
                      && (strings.HasSuffix name ".sh"
                          || negb (strings.Contains name "."))
                   then 493%N else m)
                  = if String.eqb (GOOS E) "windows" then m else 493%N).
  { revert Hin. unfold expectedFiles.
    destruct (String.eqb (GOOS E) "windows"); [done|].
    rewrite !elem_of_cons, elem_of_nil.
    intros [->|[->|[->|[->|[]]]]]; reflexivity. }
  apply list_elem_of_split in Hin as (l1 & l2 & Hl).
  rewrite Hl in Hnd, Hv |- *.
  apply NoDup_app in Hnd as (Hnd1 & Hnot1 & Hnd2).
  apply NoDup_cons in Hnd2 as [Hnot2 Hnd2].
  apply Forall_app in Hv as [Hv1 Hv2].
  apply Forall_cons in Hv2 as [Hvn Hv2].
  rewrite relocate_app, relocate_cons.
  destruct (relocate_all E d l1 Hnd1 Hv1 w) as [Hframe1 _].
  set (w1 := relocate E d l1 w) in *.
  destruct (relocate_all E d l2 Hnd2 Hv2 (relocate E d [name] w1))
    as [Hframe2 _].
  assert (Happ1 : ∀ n, n ∈ l1 → n ≠ name).
  { intros n Hn ->. apply (Hnot1 name Hn). apply elem_of_cons. by left. }
  assert (Happ2 : ∀ n, n ∈ l2 → n ≠ name) by (intros n Hn ->; done).
  rewrite Hframe2.
  - rewrite <- Hmode. apply relocate_one_mode; [done|..].
    + rewrite Hframe1; [done|]. intros n Hn.
      destruct (siblings_apart d n name (Happ1 n Hn)) as (H1 & H2 & H3 & H4).
      done.
    + unfold os.is_dir in *. rewrite mcpDir_eq, node_at_snoc in *.
      rewrite Hframe1; [done|]. intros n Hn.
      rewrite <- mcpDir_eq. apply mcpDir_apart.
    + rewrite node_at_snoc in *. rewrite Hframe1; [done|]. intros n Hn.
      destruct (siblings_apart d n name (Happ1 n Hn)) as (H1 & H2 & H3 & H4).
      done.
  - intros n Hn.
    destruct (siblings_apart d n name (Happ2 n Hn)) as (H1 & H2 & H3 & H4).
    done.
Qed.

(** X13: what the loop does with a file of the expected list that is
    in the staging directory.  When [mcp] is a directory and no
    directory bears the file's name in it, the file is found in [mcp]
    after the loop with its content and is no longer in the staging
    directory; off Windows its mode is 0755, whatever it was, since
    every name of the list is a script or has no dot; on Windows it
    keeps its mode.  When [mcp] is no directory, or a directory bears
    the file's name in it, the file is not moved: it is in the staging
    directory after the loop as it was, and [mcp] holds under its name
    what it held. *)
Theorem relocate_modes (w : world) (name c : string) (m : N) :
  name ∈ expectedFiles E →
  w_fs w !! (tmpMCP d ++ [name]) = Some (File c m) →
  let f' := w_fs (relocate E d (expectedFiles E) w) in
  (os.is_dir (w_fs w) (mcpDir d) = true →
   os.node_at (w_fs w) (mcpDir d ++ [name]) ≠ Some Dir →
   f' !! (mcpDir d ++ [name])
   = Some (File c (if String.eqb (GOOS E) "windows" then m else 493%N))
   ∧ f' !! (tmpMCP d ++ [name]) = None)
  ∧ (os.is_dir (w_fs w) (mcpDir d) = false
     ∨ os.node_at (w_fs w) (mcpDir d ++ [name]) = Some Dir →
     f' !! (tmpMCP d ++ [name]) = Some (File c m)
     ∧ f' !! (mcpDir d ++ [name]) = w_fs w !! (mcpDir d ++ [name])).
Proof.
  intros Hin Hsrc f'. subst f'.
  destruct expectedFiles_proper as [Hnd Hv].
  destruct (relocate_all E d _ Hnd Hv w) as [_ (lines & _ & Hall)].
  destruct (proj1 (list_elem_of_lookup _ _) Hin) as [i Hi].
  destruct (Forall2_lookup_l _ _ _ _ _ Hall Hi)
    as (l & _ & _ & _ & Hfile & Hblk).
  split.
  - intros Hmcp Hdst. split; [by apply relocate_moved_mode|].
    by destruct (Hfile c m Hsrc Hmcp Hdst) as (_ & Hgone & _).
  - intros Hb. by destruct (Hblk _ Hsrc Hb) as (_ & Hstay & Hsame).
Qed.

End RelocateModes.

Lemma relocate_modes_witness :
  (let f' := w_fs (relocate Sample.linux ["w"] (expectedFiles Sample.linux)
                     {| w_fs := Sample.staged; w_out := [] |}) in
   f' !! (mcpDir ["w"] ++ ["xmlui-mcp"]) = Some (File "ELF" 493%N)
   ∧ f' !! (tmpMCP ["w"] ++ ["xmlui-mcp"]) = None)
  ∧ (let f' := w_fs (relocate Sample.linux ["w"] (expectedFiles Sample.linux)
                       {| w_fs := Sample.name_taken; w_out := [] |}) in
     f' !! (tmpMCP ["w"] ++ ["xmlui-mcp"]) = Some (File "ELF" 438%N)
     ∧ f' !! (mcpDir ["w"] ++ ["xmlui-mcp"])
       = Sample.name_taken !! (mcpDir ["w"] ++ ["xmlui-mcp"])).
Proof.
  split.
  - apply (relocate_modes Sample.linux ["w"]
             {| w_fs := Sample.staged; w_out := [] |} "xmlui-mcp" "ELF" 438%N).
    + vm_compute. apply list_elem_of_here.
    + vm_compute. reflexivity.
    + vm_compute. reflexivity.
    + vm_compute. discriminate.
  - apply (relocate_modes Sample.linux ["w"]
             {| w_fs := Sample.name_taken; w_out := [] |} "xmlui-mcp" "ELF"
             438%N).
    + vm_compute. apply list_elem_of_here.
    + vm_compute. reflexivity.
    + right. vm_compute. reflexivity.
Defined.


(** ** The run stays in the working directory *)
Section StaysIn.
Implicit Types (f g : fs) (p q dest d : path).

Lemma confined_mono d dest f f' :
  os.under d dest → confined dest f f' → confined d f f'.
Proof.
  intros Hu H q Hq.
  assert (Hq' : ¬ os.under dest q).
  { intros H'. apply Hq. unfold os.under in *. by trans dest. }
  destruct (H q Hq') as [E|(N & D & P)]; [by left|].
  right. split; [done|]. split; [done|].
  destruct (prefix_comparable q d dest P Hu); done.
Qed.

Lemma no_slash_app (a b : string) :
  filepath.no_slash a = true → filepath.no_slash b = true →
  filepath.no_slash (a +:+ b) = true.
Proof.
  intros Ha Hb. induction a as [|c a IH]; [done|].
  rewrite append_cons. simpl in *.
  apply andb_prop in Ha as [Hc Ha]. rewrite Hc. simpl. by apply IH.
Qed.

Lemma split_from_no_slash_all (s cur : string) :
  filepath.no_slash cur = true →
  Forall (λ c, filepath.no_slash c = true) (filepath.split_from cur s).
Proof.
  revert cur. induction s as [|c s IH]; intros cur Hcur; simpl.
  - by constructor.
  - destruct (Ascii.eqb c "/") eqn:Hc.
    + constructor; [done|]. by apply IH.
    + apply IH. apply no_slash_app; [done|]. simpl. by rewrite Hc.
Qed.

Lemma valid_path_removelast p : valid_path p → valid_path (removelast p).
Proof.
  intros Hp. rewrite removelast_firstn_len. by apply Forall_take.
Qed.

Lemma enter_valid_path p (c : string) :
  valid_path p → filepath.no_slash c = true →
  valid_path (filepath.enter p c).
Proof.
  intros Hp Hc. unfold filepath.enter.
  destruct (String.eqb c "") eqn:H0; [done|].
  destruct (String.eqb c ".") eqn:H1; [done|].
  destruct (String.eqb c "..") eqn:H2; [by apply valid_path_removelast|].
  apply valid_path_snoc; [done|].
  unfold filepath.valid_name. by rewrite H0, H1, H2, Hc.
Qed.

Lemma Join_valid_path p (name : string) :
  valid_path p → valid_path (filepath.Join p name).
Proof.
  intros Hp. unfold filepath.Join, filepath.split.
  pose proof (split_from_no_slash_all name "" eq_refl) as Hs.
  revert p Hp. induction Hs as [|c l Hc Hl IH]; intros p Hp; simpl; [done|].
  apply IH. by apply enter_valid_path.
Qed.

Lemma names_valid_Create p f :
  names_valid f → valid_path p → names_valid (os.Create p f).1.
Proof.
  intros Hf Hp. unfold os.Create.
  destruct (os.node_at f p) as [[d m|]|]; simpl; try done.
  - by apply names_valid_insert.
  - destruct (os.node_at f (filepath.Dir p)) as [[d m|]|]; simpl; try done.
    by apply names_valid_insert.
Qed.

Lemma names_valid_Write p (b : string) f :
  names_valid f → valid_path p → names_valid (os.Write p b f).
Proof.
  intros Hf Hp. unfold os.Write.
  destruct (f !! p) as [[d m|]|]; try done. by apply names_valid_insert.
Qed.

Lemma names_valid_Chmod p (m : N) f :
  names_valid f → valid_path p → names_valid (os.Chmod p m f).1.
Proof.
  intros Hf Hp. unfold os.Chmod.
  destruct (os.node_at f p) as [[d m'|]|]; simpl; try done.
  by apply names_valid_insert.
Qed.

Lemma names_valid_unzip_files (files : list zipFile) dest f :
  valid_path dest → names_valid f →
  names_valid (unzip_files files dest f).1.
Proof.
  intros Hdest. revert f. induction files as [|zf files IH]; intros f Hf; simpl.
  - done.
  - assert (Hp : valid_path (filepath.Join dest (zf_Name zf)))
      by by apply Join_valid_path.
    set (fpath := filepath.Join dest (zf_Name zf)) in *.
    destruct (zf_IsDir zf).
    + apply IH. by apply names_valid_MkdirAll.
    + assert (H1 : names_valid (os.MkdirAll (filepath.Dir fpath) os.ModePerm f).1)
        by (apply names_valid_MkdirAll; [done|by apply valid_path_removelast]).
      destruct (zf_Open zf) as [err|rd]; simpl; [done|].
      pose proof (names_valid_Create fpath _ H1 Hp) as H2.
      pose proof (Create_ok fpath (os.MkdirAll (filepath.Dir fpath) os.ModePerm f).1)
        as Hout.
      destruct (os.Create fpath _) as [f2 [err|out]]; simpl in *; [done|].
      rewrite (Hout out eq_refl). apply IH. by apply names_valid_Write.
Qed.

Lemma names_valid_untar_entries (s : tarStream) dest f :
  valid_path dest → names_valid f →
  names_valid (untar_entries s dest f).1.
Proof.
  intros Hdest. revert f. induction s as [| |h body rest IH]; intros f Hf;
    simpl; try done.
  assert (Hp : valid_path (filepath.Join dest (th_Name h)))
    by by apply Join_valid_path.
  set (fpath := filepath.Join dest (th_Name h)) in *.
  destruct (th_IsDir h).
  - apply IH. by apply names_valid_MkdirAll.
  - assert (H1 : names_valid (os.MkdirAll (filepath.Dir fpath) os.ModePerm f).1)
      by (apply names_valid_MkdirAll; [done|by apply valid_path_removelast]).
    pose proof (names_valid_Create fpath _ H1 Hp) as H2.
    pose proof (Create_ok fpath (os.MkdirAll (filepath.Dir fpath) os.ModePerm f).1)
      as Hout.
    destruct (os.Create fpath _) as [f2 [err|out]]; simpl in *; [done|].
    rewrite (Hout out eq_refl).
    assert (H3 : names_valid (os.Write fpath (rd_data body) f2))
      by by apply names_valid_Write.
    destruct (rd_err body); simpl; [done|].
    destruct (wantsExec fpath); apply IH; [|done].
    by apply names_valid_Chmod.
Qed.

Lemma names_valid_move_tree old new f :
  names_valid f → valid_path new → names_valid (os.move_tree old new f).
Proof.
  intros Hf Hnew q n Hq. unfold os.move_tree in Hq.
  apply lookup_union_Some_raw in Hq as [Hq|[_ Hq]].
  - apply elem_of_list_to_map_2 in Hq.
    apply list_elem_of_fmap in Hq as ([k v] & Heq & Hin).
    apply elem_of_map_to_list in Hin.
    apply map_lookup_filter_Some in Hin as [Hk _].
    unfold os.rebase in Heq. simpl in Heq. injection Heq as -> ->.
    apply Forall_app. split; [done|]. apply Forall_drop. by apply (Hf k v).
  - apply map_lookup_filter_Some in Hq as [Hq _]. by apply (Hf q n).
Qed.

Lemma names_valid_RemoveAll p f :
  names_valid f → names_valid (os.RemoveAll p f).1.
Proof.
  intros Hf q n Hq. unfold os.RemoveAll in Hq. simpl in Hq.
  apply map_lookup_filter_Some in Hq as [Hq _]. by apply (Hf q n).
Qed.

Lemma op_stays_MkdirAll d p (perm : N) :
  valid_path p → os.under d p → op_stays d (os.MkdirAll p perm).
Proof.
  intros Hp Hu f Hf. split; [by apply names_valid_MkdirAll|].
  apply confined_MkdirAll. by left.
Qed.

Lemma op_stays_Chmod d p (m : N) :
  valid_path p → os.under d p → op_stays d (os.Chmod p m).
Proof.
  intros Hp Hu f Hf. split; [by apply names_valid_Chmod|].
  by apply confined_Chmod.
Qed.

Lemma op_stays_WriteFile d p (data : string) (perm : N) :
  valid_path p → os.under d p → op_stays d (os.WriteFile p data perm).
Proof.
  intros Hp Hu f Hf. split; [by apply names_valid_WriteFile|].
  apply (confined_at d p); [done|]. intros q Hq. by apply WriteFile_other.
Qed.

Lemma op_stays_RemoveAll d p : os.under d p → op_stays d (os.RemoveAll p).
Proof.
  intros Hu f Hf. split; [by apply names_valid_RemoveAll|].
  intros q Hq. left. rewrite RemoveAll_lookup.
  destruct (decide (os.under p q)) as [H|H]; [|done].
  destruct Hq. unfold os.under in *. by trans p.
Qed.

Lemma op_stays_Rename d old new :
  valid_path new → os.under d old → os.under d new →
  op_stays d (os.Rename old new).
Proof.
  intros Hnew Ho Hn f Hf.
  destruct (os.Rename old new f) as [f' [err|]] eqn:HR.
  - pose proof (Rename_fails old new f err) as H. rewrite HR in H.
    simpl in *. rewrite (H eq_refl). split; [done|apply confined_refl].
  - apply Rename_succeeds in HR as [[_ ->]| ->]; simpl.
    + split; [done|apply confined_refl].
    + split; [by apply names_valid_move_tree|].
      intros q Hq. left. apply move_tree_lookup_other.
      * intros H. apply Hq. unfold os.under in *. by trans old.
      * intros H. apply Hq. unfold os.under in *. by trans new.
Qed.

Lemma op_stays_unzipTo (E : env) d dest (data : string) :
  no_dotdot E → valid_path dest → os.under d dest →
  op_stays d (unzipTo E data dest).
Proof.
  intros [Hz _] Hp Hu f Hf. unfold unzipTo.
  destruct (zip_NewReader E data) as [err|files] eqn:Hr; simpl.
  - split; [done|apply confined_refl].
  - split; [by apply names_valid_unzip_files|].
    apply (confined_mono d dest); [done|].
    apply unzip_files_confined. intros zf Hin. by apply (Hz data files).
Qed.

Lemma op_stays_untarGzTo (E : env) d dest (data : string) :
  no_dotdot E → valid_path dest → os.under d dest →
  op_stays d (untarGzTo E data dest).
Proof.
  intros [_ Ht] Hp Hu f Hf. unfold untarGzTo.
  destruct (gzip_NewReader E data) as [err|s] eqn:Hr; simpl.
  - split; [done|apply confined_refl].
  - split; [by apply names_valid_untar_entries|].
    apply (confined_mono d dest); [done|].
    apply untar_entries_confined. by apply (Ht data).
Qed.

End StaysIn.

Section StaysCopy.
Implicit Types (f g : fs) (p q src dst d : path).

Lemma copy_entries_confined copy (entries : list DirEntry) src dst f :
  copy_keeps copy → copy_confined copy →
  Forall (λ e, filepath.valid_name (Name e) = true) entries →
  names_valid f → valid_path src → valid_path dst →
  confined dst f (copy_entries copy entries src dst f).1.
Proof.
  intros Hkeep Hconf. revert f.
  induction entries as [|e entries IH]; intros f Hes Hf Hsrc Hdst; simpl.
  - apply confined_refl.
  - apply Forall_cons in Hes as [He Hes].
    rewrite !(Join_valid _ _ He).
    assert (Hdp : valid_path (dst ++ [Name e])) by by apply valid_path_snoc.
    assert (Hu : os.under dst (dst ++ [Name e])) by by apply prefix_app_r.
    destruct (IsDir e).
    + set (f1 := (os.MkdirAll (dst ++ [Name e]) 493 f).1).
      assert (Hf1 : names_valid f1) by by apply names_valid_MkdirAll.
      assert (C1 : confined dst f f1) by (apply confined_MkdirAll; by left).
      destruct (Hkeep (src ++ [Name e]) (dst ++ [Name e]) f1 Hf1 Hdp)
        as [Hv2 _].
      pose proof (confined_mono dst _ _ _ Hu
                    (Hconf (src ++ [Name e]) (dst ++ [Name e]) f1 Hf1 Hdp))
        as C2.
      destruct (copy (src ++ [Name e]) (dst ++ [Name e]) f1) as [f2 [err|]];
        simpl in *.
      * by eapply confined_trans.
      * eapply confined_trans; [exact C1|].
        eapply confined_trans; [exact C2|]. by apply IH.
    + destruct (os.ReadFile (src ++ [Name e]) f) as [err|data]; simpl;
        [apply confined_refl|].
      destruct (op_stays_WriteFile dst (dst ++ [Name e]) data 420 Hdp Hu f Hf)
        as [Hv2 C2].
      destruct (os.WriteFile (dst ++ [Name e]) data 420 f) as [f2 [err|]];
        simpl in *; [done|].
      eapply confined_trans; [exact C2|]. by apply IH.
Qed.

Lemma copyFiles_confined (depth : nat) : copy_confined (copyFiles depth).
Proof.
  induction depth as [|depth IH]; intros src dst f Hf Hdst; simpl.
  - apply confined_refl.
  - destruct (os.ReadDir src f) as [err|entries] eqn:Hrd; simpl;
      [apply confined_refl|].
    destruct entries as [|e0 entries0] eqn:Hent; [apply confined_refl|].
    rewrite <- Hent in *.
    assert (Hsrc : valid_path src).
    { apply (ReadDir_valid_path src f entries e0); [done|done|].
      rewrite Hent. apply elem_of_cons; auto. }
    apply copy_entries_confined; try done.
    + apply copyFiles_keeps.
    + by apply (ReadDir_names_valid src f).
Qed.

Lemma op_stays_copyFiles d src dst :
  valid_path dst → os.under d dst →
  op_stays d (λ f, copyFiles (tree_depth f) src dst f).
Proof.
  intros Hdst Hu f Hf. split.
  - by apply copyFiles_keeps.
  - apply (confined_mono d dst); [done|]. by apply copyFiles_confined.
Qed.

Lemma moveIntoPlace_entries_stays (entries : list DirEntry) d (repo : string) f :
  valid_path d → filepath.valid_name repo = true →
  Forall (λ e, filepath.valid_name (Name e) = true) entries →
  names_valid f →
  let r := moveIntoPlace_entries entries d repo d f in
  names_valid r.1 ∧ confined d f r.1
  ∧ ∀ p, r.2 = inr p → p = d ++ [repo].
Proof.
  intros Hd Hrepo Hes Hf. induction entries as [|e entries IH]; simpl.
  - split; [done|]. split; [apply confined_refl|done].
  - apply Forall_cons in Hes as [He Hes].
    destruct (strings.HasPrefix (Name e) (repo +:+ "-")); [|by apply IH].
    rewrite (Join_valid _ _ He), (Join_valid _ _ Hrepo).
    destruct (op_stays_Rename d (d ++ [Name e]) (d ++ [repo])) with (f := f)
      as [H1 H2]; [by apply valid_path_snoc|by apply prefix_app_r..|done|].
    destruct (os.Rename _ _ f) as [f' [err|]]; simpl in *.
    + split; [done|]. split; [done|]. done.
    + split; [done|]. split; [done|]. by intros p [= <-].
Qed.

Lemma moveIntoPlace_stays d (repo : string) f :
  valid_path d → filepath.valid_name repo = true → names_valid f →
  let r := moveIntoPlace d repo d f in
  names_valid r.1 ∧ confined d f r.1
  ∧ ∀ p, r.2 = inr p → p = d ++ [repo].
Proof.
  intros Hd Hrepo Hf. unfold moveIntoPlace.
  destruct (os.ReadDir d f) as [err|entries] eqn:Hrd; simpl.
  - split; [done|]. split; [apply confined_refl|done].
  - apply moveIntoPlace_entries_stays; try done.
    by apply (ReadDir_names_valid d f).
Qed.

Lemma relocate_stays (E : env) d (names : list string) (w : world) :
  valid_path d →
  Forall (λ n, filepath.valid_name n = true) names →
  names_valid (w_fs w) →
  names_valid (w_fs (relocate E d names w))
  ∧ confined d (w_fs w) (w_fs (relocate E d names w)).
Proof.
  intros Hd Hns. revert w. induction Hns as [|n names Hn Hns IH]; intros w Hw.
  - simpl. split; [done|apply confined_refl].
  - rewrite relocate_cons.
    assert (H1 : names_valid (w_fs (relocate E d [n] w))
                 ∧ confined d (w_fs w) (w_fs (relocate E d [n] w))).
    { unfold relocate. rewrite !(Join_valid _ _ Hn), tmpMCP_eq, mcpDir_eq.
      assert (Hdst : valid_path ((d ++ ["mcp"]) ++ [n])).
      { apply valid_path_snoc; [|done]. by apply valid_path_snoc. }
      assert (Hu : os.under d ((d ++ ["mcp"]) ++ [n])).
      { rewrite <- app_assoc. by apply prefix_app_r. }
      destruct (op_stays_Rename d ((d ++ ["mcpTmp"]) ++ [n])
                  ((d ++ ["mcp"]) ++ [n])) with (f := w_fs w) as [H1 H2];
        [done| |done|done|].
      { rewrite <- app_assoc. by apply prefix_app_r. }
      destruct (os.Rename _ _ (w_fs w)) as [f' [err|]]; simpl in *; [done|].
      destruct (negb _ && _); simpl; [|done].
      destruct (op_stays_Chmod d ((d ++ ["mcp"]) ++ [n]) 493 Hdst Hu f' H1)
        as [H3 H4].
      split; [done|]. by eapply confined_trans. }
    destruct H1 as [H1 H2]. destruct (IH _ H1) as [H3 H4].
    split; [done|]. by eapply confined_trans.
Qed.

End StaysCopy.

Section StaysMain.
Implicit Types (f g : fs) (p q d : path).

Lemma stays_bind {A B} d (m : M A) (k : A → M B) (P : A → Prop) (Q : B → Prop) :
  stays_in d m P → (∀ a, P a → stays_in d (k a) Q) → stays_in d (m ≫= k) Q.
Proof.
  intros Hm Hk w Hw. unfold mbind, M_bind.
  destruct (Hm w Hw) as (H1 & H2 & H3).
  destruct (m w) as [w1 [a|c]]; simpl in *.
  - destruct (Hk a (H3 a eq_refl) w1 H1) as (H4 & H5 & H6).
    split; [done|]. split; [by eapply confined_trans|done].
  - split; [done|]. split; [done|]. intros a [=].
Qed.

Lemma stays_weaken {A} d (m : M A) (P Q : A → Prop) :
  stays_in d m P → (∀ a, P a → Q a) → stays_in d m Q.
Proof.
  intros Hm HPQ w Hw. destruct (Hm w Hw) as (H1 & H2 & H3).
  split; [done|]. split; [done|]. intros a Ha. by apply HPQ, H3.
Qed.

Lemma stays_ret {A} d (a : A) : stays_in d (mret a) (λ x, x = a).
Proof.
  intros w Hw. simpl. split; [done|]. split; [apply confined_refl|].
  by intros x [= <-].
Qed.

Lemma stays_Println d (s : string) : stays_in d (Println s) (λ _, True).
Proof. intros w Hw. simpl. split; [done|]. split; [apply confined_refl|done]. Qed.

Lemma stays_on_out {A} d (op : stdout → stdout * A) :
  stays_in d (on_out op) (λ _, True).
Proof.
  intros w Hw. unfold on_out. destruct (op (w_out w)) as [o a]. simpl.
  split; [done|]. split; [apply confined_refl|done].
Qed.

Lemma stays_on_fs {A} d (op : fs → fs * A) (P : A → Prop) :
  (∀ f, names_valid f →
     names_valid (op f).1 ∧ confined d f (op f).1 ∧ P (op f).2) →
  stays_in d (on_fs op) P.
Proof.
  intros Hop w Hw. unfold on_fs. destruct (Hop (w_fs w) Hw) as (H1 & H2 & H3).
  destruct (op (w_fs w)) as [f a]. simpl in *.
  split; [done|]. split; [done|]. by intros x [= <-].
Qed.

Lemma stays_on_fs_op {A} d (op : fs → fs * A) :
  op_stays d op → stays_in d (on_fs op) (λ _, True).
Proof.
  intros Hop. apply stays_on_fs. intros f Hf.
  destruct (Hop f Hf). done.
Qed.

Lemma stays_orExit {A} d (msg : string) (r : error + A) :
  stays_in d (orExit msg r) (λ a, r = inr a).
Proof.
  intros w Hw. destruct r as [err|a]; simpl.
  - split; [done|]. split; [apply confined_refl|]. intros a [=].
  - split; [done|]. split; [apply confined_refl|]. by intros x [= <-].
Qed.

Lemma stays_checkExit d (msg : string) (r : option error) :
  stays_in d (checkExit msg r) (λ _, True).
Proof.
  intros w Hw. destruct r as [err|]; simpl.
  - split; [done|]. split; [apply confined_refl|done].
  - split; [done|]. split; [apply confined_refl|done].
Qed.

Lemma stays_extract (E : env) d dest (url data : string) :
  no_dotdot E → valid_path dest → os.under d dest →
  stays_in d (if strings.HasSuffix url ".zip"
              then on_fs (unzipTo E data dest)
              else on_fs (untarGzTo E data dest)) (λ _, True).
Proof.
  intros HE Hp Hu. destruct (strings.HasSuffix url ".zip").
  - by apply stays_on_fs_op, op_stays_unzipTo.
  - by apply stays_on_fs_op, op_stays_untarGzTo.
Qed.

Lemma under_snoc d (c : string) : os.under d (d ++ [c]).
Proof. by apply prefix_app_r. Qed.

Lemma under_snoc_below d p (c : string) : os.under d p → os.under d (p ++ [c]).
Proof. intros H. unfold os.under in *. trans p; [done|]. by apply prefix_app_r. Qed.

Lemma under_Join d p (c : string) :
  filepath.valid_name c = true → os.under d p → os.under d (filepath.Join p c).
Proof. intros Hc Hp. rewrite (Join_valid _ _ Hc). by apply under_snoc_below. Qed.

Lemma stays_main_app (E : env) d :
  no_dotdot E → valid_path d →
  stays_in d (main_app E d) (λ p, p = d ++ [repoName]).
Proof.
  intros HE Hd. unfold main_app.
  eapply stays_bind; [apply stays_Println|intros _ _].
  eapply stays_bind; [apply stays_on_out|intros r _].
  eapply stays_bind; [apply stays_orExit|intros appZip _].
  eapply stays_bind;
    [apply stays_on_fs_op, op_stays_unzipTo; [done|done|apply under_refl]
    |intros err _].
  eapply stays_bind; [apply stays_checkExit|intros _ _].
  eapply stays_bind with (P := λ r, ∀ p, r = inr p → p = d ++ [repoName]).
  - apply stays_on_fs. intros f Hf.
    by apply (moveIntoPlace_stays d repoName f).
  - intros r2 Hr. eapply stays_weaken; [apply stays_orExit|].
    intros p Hp. by apply Hr.
Qed.

Lemma stays_main_components (E : env) d :
  no_dotdot E → valid_path d →
  stays_in d (main_components E d) (λ _, True).
Proof.
  intros HE Hd. unfold main_components, main_components_body.
  assert (valid_path (tmpDir d) ∧ os.under d (tmpDir d)) as [? ?].
  { unfold tmpDir. split; [by apply Join_valid_path|].
    apply under_Join; [done|apply under_refl]. }
  assert (valid_path (mcpDir d) ∧ os.under d (mcpDir d)) as [? ?].
  { unfold mcpDir. split; [by apply Join_valid_path|].
    apply under_Join; [done|apply under_refl]. }
  assert (valid_path (docsDir d) ∧ os.under d (docsDir d)) as [? ?].
  { unfold docsDir. split; [by apply Join_valid_path|by apply under_Join]. }
  assert (valid_path (srcDir d) ∧ os.under d (srcDir d)) as [? ?].
  { unfold srcDir. split; [by apply Join_valid_path|by apply under_Join]. }
  eapply stays_bind with (P := λ _, True); [|intros _ _;
    eapply stays_bind; [by apply stays_on_fs_op, op_stays_RemoveAll|intros _ _];
    eapply stays_weaken; [apply stays_ret|done]].
  eapply stays_bind; [apply stays_Println|intros _ _].
  eapply stays_bind; [apply stays_on_out|intros r _].
  eapply stays_bind; [apply stays_orExit|intros xmluiZip _].
  eapply stays_bind; [by apply stays_on_fs_op, op_stays_MkdirAll|intros _ _].
  eapply stays_bind; [by apply stays_on_fs_op, op_stays_unzipTo|intros err _].
  eapply stays_bind; [apply stays_checkExit|intros _ _].
  eapply stays_bind with (P := λ _, True).
  { apply stays_on_fs. intros f Hf. simpl. split; [done|].
    split; [apply confined_refl|done]. }
  intros r' _. cbv zeta.
  eapply stays_bind; [by apply stays_on_fs_op, op_stays_MkdirAll|intros _ _].
  eapply stays_bind; [by apply stays_on_fs_op, op_stays_MkdirAll|intros _ _].
  eapply stays_bind; [by apply stays_on_fs_op, op_stays_MkdirAll|intros _ _].
  destruct (findSourceRoot _ _) as [sourceRoot|];
    [|eapply stays_weaken; [apply stays_ret|done]].
  assert (valid_path (filepath.Join (filepath.Join (docsDir d) "pages")
                        "components")
          ∧ os.under d (filepath.Join (filepath.Join (docsDir d) "pages")
                          "components")) as [? ?].
  { split; [by do 2 apply Join_valid_path|].
    do 2 (apply under_Join; [done|]). done. }
  assert (valid_path (filepath.Join (srcDir d) "components")
          ∧ os.under d (filepath.Join (srcDir d) "components")) as [? ?].
  { split; [by apply Join_valid_path|by apply under_Join]. }
  eapply stays_bind; [by apply stays_on_fs_op, op_stays_MkdirAll|intros _ _].
  eapply stays_bind; [by apply stays_on_fs_op, op_stays_MkdirAll|intros _ _].
  eapply stays_bind; [by apply stays_on_fs_op, op_stays_copyFiles|intros _ _].
  eapply stays_bind; [by apply stays_on_fs_op, op_stays_copyFiles|intros _ _].
  apply stays_Println.
Qed.

Lemma stays_main_tools (E : env) d :
  no_dotdot E → valid_path d →
  stays_in d (main_tools E d) (λ _, True).
Proof.
  intros HE Hd. unfold main_tools, main_tools_body.
  assert (valid_path (tmpMCP d) ∧ os.under d (tmpMCP d)) as [? ?].
  { unfold tmpMCP. split; [by apply Join_valid_path|].
    apply under_Join; [done|apply under_refl]. }
  eapply stays_bind with (P := λ _, True); [|intros _ _;
    eapply stays_bind; [by apply stays_on_fs_op, op_stays_RemoveAll|intros _ _];
    eapply stays_weaken; [apply stays_ret|done]].
  eapply stays_bind; [apply stays_Println|intros _ _]. cbv zeta.
  eapply stays_bind; [apply stays_on_out|intros r _].
  eapply stays_bind; [apply stays_orExit|intros mcpArchive _].
  eapply stays_bind; [by apply stays_on_fs_op, op_stays_MkdirAll|intros _ _].
  eapply stays_bind; [by apply stays_extract|intros err _].
  eapply stays_bind; [apply stays_checkExit|intros _ _].
  intros w Hw. unfold on_world. simpl.
  destruct (relocate_stays E d (expectedFiles E) w Hd
              (proj2 (expectedFiles_proper E)) Hw) as [H1 H2].
  done.
Qed.

Lemma stays_moveStray d (name : string) (target : path) :
  filepath.valid_name name = true → valid_path target → os.under d target →
  stays_in d (moveStray d name target) (λ _, True).
Proof.
  intros Hn Ht Hu. unfold moveStray.
  eapply stays_bind with (P := λ _, True).
  { apply stays_on_fs. intros f Hf. simpl. split; [done|].
    split; [apply confined_refl|done]. }
  intros [st|] _; [|eapply stays_weaken; [apply stays_ret|done]].
  eapply stays_bind.
  { apply stays_on_fs_op, op_stays_Rename; [done| |done].
    apply under_Join; [done|apply under_refl]. }
  intros [err|] _; [apply stays_Println|].
  eapply stays_weaken; [apply stays_ret|done].
Qed.

Lemma stays_main_server (E : env) d (appDir : path) :
  no_dotdot E → valid_path appDir → os.under d appDir →
  stays_in d (main_server E appDir) (λ _, True).
Proof.
  intros HE Ha Hu. unfold main_server.
  eapply stays_bind; [apply stays_Println|intros _ _]. cbv zeta.
  eapply stays_bind; [apply stays_on_out|intros r _].
  eapply stays_bind; [apply stays_orExit|intros serverArchive _].
  eapply stays_bind; [by apply stays_extract|intros err _].
  eapply stays_bind; [apply stays_checkExit|intros _ _].
  destruct (negb _); [|eapply stays_weaken; [apply stays_ret|done]].
  eapply stays_bind; [|intros _ _; eapply stays_weaken; [apply stays_ret|done]].
  apply stays_on_fs_op, op_stays_Chmod.
  - by apply Join_valid_path.
  - by apply under_Join.
Qed.

Lemma stays_main_cleanup (E : env) d :
  valid_path d → stays_in d (main_cleanup E d) (λ _, True).
Proof.
  intros Hd. unfold main_cleanup. cbv zeta.
  eapply stays_bind; [|intros _ _;
    eapply stays_bind; [apply stays_Println|intros _ _];
    eapply stays_bind; [apply stays_Println|intros _ _];
    apply stays_Println].
  destruct (String.eqb (GOOS E) "windows").
  - eapply stays_bind; [|intros _ _; apply stays_Println].
    apply stays_on_fs_op, op_stays_WriteFile.
    + by apply Join_valid_path.
    + apply under_Join; [done|apply under_refl].
  - eapply stays_bind; [|intros _ _;
      eapply stays_bind; [|intros _ _; apply stays_Println]].
    + apply stays_on_fs_op, op_stays_WriteFile.
      * by apply Join_valid_path.
      * apply under_Join; [done|apply under_refl].
    + apply stays_on_fs_op, op_stays_Chmod.
      * by apply Join_valid_path.
      * apply under_Join; [done|apply under_refl].
Qed.

(** X14: a run writes nothing outside its working directory when no
    archive has an entry with a [..] component in its name: whether
    the run ends or exits, every path that is not at or below the
    working directory holds what it held, new directories on the way
    down to the working directory apart. *)
Theorem main_stays_in_working_directory (E : env) (w : world) :
  no_dotdot E → valid_path (Getwd E) → names_valid (w_fs w) →
  confined (Getwd E) (w_fs w) (w_fs (main E w).1).
Proof.
  intros HE Hd Hw.
  assert (H : stays_in (Getwd E) (main E) (λ _, True)).
  { unfold main. cbv zeta.
    eapply stays_bind;
      [apply stays_on_fs_op, op_stays_MkdirAll; [done|apply under_refl]
      |intros _ _].
    eapply stays_bind; [by apply stays_main_app|intros appDir ->].
    eapply stays_bind; [by apply stays_main_components|intros _ _].
    eapply stays_bind; [by apply stays_main_tools|intros _ _].
    eapply stays_bind.
    { unfold main_stray.
      eapply stays_bind; [|intros _ _].
      - apply stays_moveStray; [done|..].
        + unfold docsDir, mcpDir. by do 2 apply Join_valid_path.
        + unfold docsDir, mcpDir. do 2 (apply under_Join; [done|]).
          apply under_refl.
      - apply stays_moveStray; [done|..].
        + unfold srcDir, mcpDir. by do 2 apply Join_valid_path.
        + unfold srcDir, mcpDir. do 2 (apply under_Join; [done|]).
          apply under_refl. }
    intros _ _.
    eapply stays_bind; [|intros _ _; by apply stays_main_cleanup].
    apply stays_main_server; [done|..].
    - by apply valid_path_snoc.
    - apply under_snoc. }
  by destruct (H w Hw) as (_ & ? & _).
Qed.

End StaysMain.

(** ** How a run ends *)
Section Exits.

Lemma exits_bind {A B} (m : M A) (k : A → M B) :
  exits_reported m → (∀ a, exits_reported (k a)) → exits_reported (m ≫= k).
Proof.
  intros Hm Hk w w' c. unfold mbind, M_bind.
  destruct (m w) as [w1 [a|c1]] eqn:Hmw.
  - apply Hk.
  - intros [= <- <-]. by apply (Hm w).
Qed.

Lemma exits_ret {A} (a : A) : exits_reported (mret a : M A).
Proof. intros w w' c. done. Qed.

Lemma exits_Println (s : string) : exits_reported (Println s).
Proof. intros w w' c. done. Qed.

Lemma exits_on_fs {A} (op : fs → fs * A) : exits_reported (on_fs op).
Proof. intros w w' c. unfold on_fs. by destruct (op (w_fs w)). Qed.

Lemma exits_on_out {A} (op : stdout → stdout * A) : exits_reported (on_out op).
Proof. intros w w' c. unfold on_out. by destruct (op (w_out w)). Qed.

Lemma exits_on_world (op : world → world) : exits_reported (on_world op).
Proof. intros w w' c. done. Qed.

Lemma prefix_append_l (p a b : string) :
  String.prefix p a = true → String.prefix p (a +:+ b) = true.
Proof.
  revert a. induction p as [|c p IH]; intros a; [by destruct (a +:+ b)|].
  destruct a as [|c' a]; [done|]. rewrite append_cons. simpl.
  destruct (ascii_dec c c'); [apply IH|done].
Qed.

Lemma exits_orExit {A} (msg : string) (r : error + A) :
  strings.HasPrefix msg "Failed to " = true → exits_reported (orExit msg r).
Proof.
  intros Hmsg w w' c. destruct r as [err|a]; [|done].
  intros [= <- <-]. split; [done|]. eexists. split; [apply last_snoc|].
  by apply prefix_append_l.
Qed.

Lemma exits_checkExit (msg : string) (r : option error) :
  strings.HasPrefix msg "Failed to " = true → exits_reported (checkExit msg r).
Proof.
  intros Hmsg w w' c. destruct r as [err|]; [|done].
  intros [= <- <-]. split; [done|]. eexists. split; [apply last_snoc|].
  by apply prefix_append_l.
Qed.

Lemma exits_moveStray d (name : string) (target : path) :
  exits_reported (moveStray d name target).
Proof.
  unfold moveStray. apply exits_bind; [apply exits_on_fs|].
  intros [st|]; [|apply exits_ret].
  apply exits_bind; [apply exits_on_fs|].
  intros [err|]; [apply exits_Println|apply exits_ret].
Qed.

Lemma ends_bind {A B} (l : string) (m : M A) (k : A → M B) :
  (∀ a, ends_with l (k a)) → ends_with l (m ≫= k).
Proof.
  intros Hk w w' b. unfold mbind, M_bind.
  destruct (m w) as [w1 [a|c1]]; [apply Hk|done].
Qed.

Lemma ends_Println (s : string) : ends_with s (Println s).
Proof. intros w w' a [= <-]. simpl. apply last_snoc. Qed.

End Exits.

Create HintDb exits.
#[local] Hint Resolve exits_ret exits_Println exits_on_fs exits_on_out
  exits_on_world exits_moveStray : exits.
#[local] Hint Extern 1 (exits_reported (orExit _ _)) =>
  apply exits_orExit; reflexivity : exits.
#[local] Hint Extern 1 (exits_reported (checkExit _ _)) =>
  apply exits_checkExit; reflexivity : exits.
#[local] Hint Extern 2 (exits_reported (_ ≫= _)) =>
  apply exits_bind; [|intros ?] : exits.
#[local] Hint Extern 3 (exits_reported (if ?b then _ else _)) =>
  destruct b : exits.
#[local] Hint Extern 3 (exits_reported (match ?o with Some _ => _ | None => _ end)) =>
  destruct o : exits.

(** X15: a run ends in one of two ways.  Either it runs to its end,
    with status 0 and the install location as its last line, or it
    leaves with status 1 right after a line that begins with
    [Failed to]; there is no other exit status, and no exit without
    that line. *)
Theorem main_ends (E : env) (w : world) :
  let r := main E w in
  (exit_status r = 0%Z
   ∧ last (w_out r.1)
     = Some ("Install location: " +:+ filepath.to_string (Getwd E)))
  ∨ (exit_status r = 1%Z
     ∧ ∃ l, last (w_out r.1) = Some l
            ∧ strings.HasPrefix l "Failed to " = true).
Proof.
  intros r. subst r. unfold exit_status.
  destruct (main E w) as [w' [[]|c]] eqn:Hrun; simpl.
  - left. split; [done|]. revert Hrun. apply ends_bind. intros _.
    apply ends_bind. intros appDir. do 4 (apply ends_bind; intros _).
    unfold main_cleanup. cbv zeta. do 3 (apply ends_bind; intros _).
    apply ends_Println.
  - right.
    assert (H : exits_reported (main E)).
    { unfold main, main_app, main_components, main_components_body,
        main_tools, main_tools_body, main_stray, main_server, main_cleanup.
      cbv zeta. auto 30 with exits. }
    destruct (H w w' c Hrun) as [-> Hl]. done.
Qed.

(** ** The result of a download

    It does not depend on what was printed before it. *)
Lemma download_result_any_output (E : env) (url filename : string)
    (out out' : stdout) :
  (downloadWithProgress E url filename out).2
  = (downloadWithProgress E url filename out').2.
Proof.
  unfold downloadWithProgress.
  destruct (http_NewRequest E url); [done|].
  destruct (strings.Contains url privateHost); simpl.
  - destruct (negb (String.eqb _ _)); simpl;
      destruct (client_Do E _) as [e|resp]; try done;
      destruct (negb (StatusCode resp =? http.StatusOK)%Z);
      try (by destruct (StatusCode resp =? http.StatusUnauthorized)%Z);
      by destruct (io.ReadAll (Body resp)).
  - destruct (client_Do E _) as [e|resp]; [done|].
    destruct (negb (StatusCode resp =? http.StatusOK)%Z); [done|].
    by destruct (io.ReadAll (Body resp)).
Qed.

(** ** [filepath.Base] of a name

    The values of [filepath.Base] on names that are not clean, and on
    the usual ones. *)
Lemma Base_string_examples :
  filepath.Base_string "" = "."
  ∧ filepath.Base_string "." = "."
  ∧ filepath.Base_string ".." = ".."
  ∧ filepath.Base_string "bin/." = "."
  ∧ filepath.Base_string "bin/.." = ".."
  ∧ filepath.Base_string "/" = "/"
  ∧ filepath.Base_string "///" = "/"
  ∧ filepath.Base_string "a/b//" = "b"
  ∧ filepath.Base_string "./xmlui-bundler" = "xmlui-bundler"
  ∧ filepath.Base_string "/usr/local/bin/xmlui-bundler" = "xmlui-bundler".
Proof. repeat split. Qed.

Lemma split_from_component (c rest cur : string) :
  filepath.no_slash c = true →
  filepath.split_from cur (c +:+ String "/" rest)
  = (cur +:+ c) :: filepath.split_from "" rest.
Proof.
  revert cur. induction c as [|x c IH]; intros cur Hc.
  - change ("" +:+ String "/" rest) with (String "/" rest). simpl.
    by rewrite append_empty_r.
  - simpl in Hc. apply andb_prop in Hc as [Hx Hc].
    apply negb_true_iff in Hx. rewrite append_cons. simpl. rewrite Hx.
    rewrite (IH _ Hc). f_equal. apply append_snoc.
Qed.

Lemma split_to_string (p : path) :
  valid_path p → p ≠ [] → filepath.split (filepath.to_string p) = "" :: p.
Proof.
  intros Hp Hne.
  assert (H : ∀ q, valid_path q → q ≠ [] →
              filepath.split_from "" (String.concat "" ((λ c, "/" +:+ c) <$> q))
              = "" :: q).
  { clear. induction q as [|c q IH]; intros Hq Hne; [done|].
    apply Forall_cons in Hq as [Hc Hq].
    assert (Hs : filepath.no_slash c = true).
    { unfold filepath.valid_name in Hc. by apply andb_prop in Hc as [_ ?]. }
    destruct q as [|c' q].
    - simpl. change ("/" +:+ c) with (String "/" c). simpl.
      by rewrite (split_from_no_slash _ _ Hs).
    - specialize (IH Hq ltac:(done)).
      assert (Hrest : ∃ rest, String.concat "" ((λ c0, "/" +:+ c0) <$> c' :: q)
                              = String "/" rest) by (destruct q; by eexists).
      destruct Hrest as [rest Hrest].
      change (String.concat "" ((λ c0, "/" +:+ c0) <$> c :: c' :: q))
        with (String "/" (c +:+
                String.concat "" ((λ c0, "/" +:+ c0) <$> c' :: q))).
      rewrite Hrest in IH |- *. simpl in IH. injection IH as IH.
      simpl. by rewrite (split_from_component _ _ _ Hs), IH. }
  unfold filepath.split, filepath.to_string. destruct p; [done|]. by apply H.
Qed.

Lemma last_element_snoc (l : list string) (c : string) :
  c ≠ "" → filepath.last_element (List.rev (l ++ [c])) = c.
Proof.
  intros Hc. rewrite rev_unit. simpl.
  by destruct (String.eqb_spec c "").
Qed.

(** On the name of a path of proper names, [filepath.Base] of the name
    is [filepath.Base] of the path. *)
Lemma Base_string_to_string (p : path) :
  valid_path p →
  filepath.Base_string (filepath.to_string p) = filepath.Base p.
Proof.
  intros Hp. destruct p as [|c p] using rev_ind; [reflexivity|].
  clear IHp. unfold filepath.Base_string, filepath.Base.
  rewrite split_to_string by (done || by destruct p).
  rewrite last_last.
  assert (Hc : c ≠ "").
  { apply Forall_app in Hp as [_ Hc]. apply Forall_inv in Hc.
    intros ->. vm_compute in Hc. discriminate Hc. }
  replace (String.eqb (filepath.to_string (p ++ [c])) "") with false.
  - by rewrite (app_comm_cons p [c] ""), last_element_snoc.
  - unfold filepath.to_string. destruct (p ++ [c]) as [|x l] eqn:Hl.
    + by destruct p.
    + destruct l; reflexivity.
Qed.

(** ** The scripts a run leaves *)
Section Scripts.

Lemma Chmod_file (p : path) (mode : N) (f : fs) (data : string) (m : N) :
  p ≠ [] → f !! p = Some (File data m) →
  (os.Chmod p mode f).1 !! p = Some (File data mode).
Proof.
  intros Hp Hf. unfold os.Chmod. destruct p as [|c p]; [done|].
  change (os.node_at f (c :: p)) with (f !! (c :: p)). rewrite Hf. simpl.
  apply lookup_insert_eq.
Qed.

Lemma Chmod_mode (p : path) (mode : N) (f : fs) (data : string) (m : N) :
  p ≠ [] → (os.Chmod p mode f).1 !! p = Some (File data m) → m = mode.
Proof.
  intros Hp. unfold os.Chmod. destruct p as [|c p]; [done|].
  change (os.node_at f (c :: p)) with (f !! (c :: p)).
  destruct (f !! (c :: p)) as [[d' m'|]|] eqn:Hf; simpl.
  - rewrite lookup_insert_eq. by intros [= _ <-].
  - by rewrite Hf.
  - by rewrite Hf.
Qed.

(** X16: off Windows, step 4 runs to its end whenever the download of
    the server archive and its extraction succeed, whether or not
    there is a [start.sh] to make executable: the result of
    [os.Chmod] is not looked at, so a missing [start.sh] does not stop
    the step.  And when the step has run to its end, [start.sh] in the
    application directory, if it is a file, has mode 0755, whatever
    the archive and its extraction gave it. *)
Theorem server_start_script (E : env) (appDir : path) (w : world) :
  String.eqb (GOOS E) "windows" = false →
  let serverURL := getPlatformSpecificServerURL (GOOS E) (GOARCH E) in
  let r := main_server E appDir w in
  (∀ data,
     (downloadWithProgress E serverURL "test server" []).2 = inr data →
     (if strings.HasSuffix serverURL ".zip"
      then unzipTo E data appDir (w_fs w)
      else untarGzTo E data appDir (w_fs w)).2 = None →
     r.2 = Done tt)
  ∧ (r.2 = Done tt →
     match w_fs r.1 !! (appDir ++ ["start.sh"]) with
     | Some (File _ m) => m = 493%N
     | _ => True
     end).
Proof.
  intros Hos serverURL r. subst serverURL r. split.
  - intros data Hdl Hex. unfold main_server. cbv zeta. rewrite Hos.
    simpl negb. cbv iota. unfold mbind, M_bind, Println, on_out.
    cbn [w_out w_fs].
    set (dl := downloadWithProgress E _ "test server" (_ ++ _)).
    assert (Hany : dl.2 = inr data).
    { subst dl. rewrite (download_result_any_output E _ _ _ []). exact Hdl. }
    clearbody dl. destruct dl as [o r0]. simpl in Hany. subst r0. simpl.
    destruct (strings.HasSuffix _ ".zip"); unfold on_fs; simpl.
    + destruct (unzipTo E data appDir (w_fs w)) as [f e]. simpl in Hex.
      subst e. simpl. by destruct (os.Chmod _ _ f).
    + destruct (untarGzTo E data appDir (w_fs w)) as [f e]. simpl in Hex.
      subst e. simpl. by destruct (os.Chmod _ _ f).
  - unfold main_server. cbv zeta. rewrite Hos. simpl negb. cbv iota.
    rewrite (Join_valid appDir "start.sh" eq_refl).
    unfold mbind, M_bind.
    destruct (Println _ w) as [w1 [[]|c]]; [|done].
    destruct (on_out _ w1) as [w2 [r|c]]; [|done].
    destruct (orExit _ r w2) as [w3 [serverArchive|c]]; [|done].
    match goal with
    | |- context [(if ?b then ?x else ?y) w3] =>
        destruct ((if b then x else y) w3) as [w4 [err|c]]; [|done]
    end.
    destruct (checkExit _ err w4) as [w5 [[]|c]]; [|done].
    unfold on_fs.
    destruct (os.Chmod (appDir ++ ["start.sh"]) 493 (w_fs w5)) as [f e] eqn:Hc.
    simpl. intros _.
    destruct (f !! (appDir ++ ["start.sh"])) as [[data m|]|] eqn:Hf; [|done..].
    apply (Chmod_mode (appDir ++ ["start.sh"]) 493 (w_fs w5) data m).
    + by destruct appDir.
    + by rewrite Hc.
Qed.

(** X17: off Windows, in a working directory that is a directory and
    has no directory named [cleanup.sh], the last step leaves the file
    [cleanup.sh] with the script, which names the program by
    [filepath.Base] of [os.Args[0]] as the program holds it, and with
    mode 0755, also where a file of that name with another mode was
    there before; it changes no other path and does not exit. *)
Theorem cleanup_script_written (E : env) (d : path) (w : world) :
  String.eqb (GOOS E) "windows" = false →
  os.is_dir (w_fs w) d = true →
  os.node_at (w_fs w) (d ++ ["cleanup.sh"]) ≠ Some Dir →
  let r := main_cleanup E d w in
  r.2 = Done tt
  ∧ w_fs r.1 !! (d ++ ["cleanup.sh"])
    = Some (File (cleanup_sh (filepath.Base_string (Args0 E))) 493)
  ∧ ∀ q, q ≠ d ++ ["cleanup.sh"] → w_fs r.1 !! q = w_fs w !! q.
Proof.
  intros Hos Hd Hfree r. subst r. unfold main_cleanup. cbv zeta.
  rewrite Hos. rewrite (Join_valid d "cleanup.sh" eq_refl).
  set (p := d ++ ["cleanup.sh"]) in *.
  set (script := (_ +:+ "rm -f cleanup.sh" +:+ lf)).
  assert (Hscript : script
            = cleanup_sh (filepath.Base_string (Args0 E))).
  { subst script. unfold cleanup_sh. by rewrite !append_assoc. }
  assert (Hp : p ≠ []) by (subst p; by destruct d).
  assert (Hw : ∃ m, (os.WriteFile p script 493 (w_fs w)).1 !! p
                    = Some (File script m)).
  { apply WriteFile_ok; [done|]. unfold os.WriteFile.
    destruct (os.node_at (w_fs w) p) as [[d0 m0|]|]; [done|done|].
    subst p. rewrite Dir_snoc. unfold os.is_dir in Hd.
    by destruct (os.node_at (w_fs w) d) as [[]|]. }
  destruct Hw as [m Hw].
  pose proof (WriteFile_other p script 493 (w_fs w)) as Ho1.
  unfold mbind, M_bind, on_fs.
  destruct (os.WriteFile p script 493 (w_fs w)) as [f1 e1]. simpl in *.
  pose proof (Chmod_file p 493 f1 script m Hp Hw) as Hc.
  pose proof (Chmod_other p 493 f1) as Ho2.
  destruct (os.Chmod p 493 f1) as [f2 e2]. simpl in *.
  split; [done|]. split; [by rewrite <- Hscript|].
  intros q Hq. by rewrite Ho2, Ho1.
Qed.

End Scripts.

Lemma server_start_script_witness :
  (let r := main_server (withClient Sample.linux Sample.serve_tools)
              ["w"; "xmlui-invoice"]
              {| w_fs := <[ ["w"; "xmlui-invoice"] := Dir ]> Sample.fresh;
                 w_out := [] |} in
   r.2 = Done tt
   ∧ w_fs r.1 !! (["w"; "xmlui-invoice"] ++ ["start.sh"]) = None)
  ∧ match w_fs (main_server Sample.linux ["w"; "xmlui-invoice"]
                  {| w_fs := <[ ["w"; "xmlui-invoice"] := Dir ]> Sample.fresh;
                     w_out := [] |}).1
          !! (["w"; "xmlui-invoice"] ++ ["start.sh"]) with
    | Some (File _ m) => m = 493%N
    | _ => True
    end.
Proof.
  split.
  - split; [|vm_compute; reflexivity].
    apply (proj1 (server_start_script
                    (withClient Sample.linux Sample.serve_tools)
                    ["w"; "xmlui-invoice"]
                    {| w_fs := <[ ["w"; "xmlui-invoice"] := Dir ]> Sample.fresh;
                       w_out := [] |} eq_refl) "MCP").
    + vm_compute. reflexivity.
    + vm_compute. reflexivity.
  - apply (proj2 (server_start_script Sample.linux ["w"; "xmlui-invoice"]
                    {| w_fs := <[ ["w"; "xmlui-invoice"] := Dir ]> Sample.fresh;
                       w_out := [] |} eq_refl)).
    vm_compute. reflexivity.
Defined.

Lemma cleanup_script_written_witness :
  w_fs (main_cleanup Sample.linux ["w"]
          {| w_fs := <[ ["w"; "cleanup.sh"] := File "old" 420 ]> Sample.fresh;
             w_out := [] |}).1
    !! (["w"] ++ ["cleanup.sh"])
  = Some (File (cleanup_sh (filepath.Base_string (Args0 Sample.linux))) 493).
Proof.
  destruct (cleanup_script_written Sample.linux ["w"]
              {| w_fs := <[ ["w"; "cleanup.sh"] := File "old" 420 ]> Sample.fresh;
                 w_out := [] |}) as (_ & H & _).
  - reflexivity.
  - vm_compute. reflexivity.
  - vm_compute. discriminate.
  - exact H.
Defined.

(** ** A run whose first download fails *)

(** X18: when the download of the application archive fails, the run
    leaves with status 1 and [Failed to download app:] followed by the
    error as its last line, and has done nothing to the file system
    but [os.MkdirAll] of the working directory: nothing is extracted
    and no other archive is asked for. *)
Theorem first_download_failure (E : env) (w : world) (err : error) :
  (downloadWithProgress E appZipURL "XMLUI invoice app" []).2 = inl err →
  let r := main E w in
  exit_status r = 1%Z
  ∧ w_fs r.1 = (os.MkdirAll (Getwd E) 493 (w_fs w)).1
  ∧ last (w_out r.1) = Some ("Failed to download app: " +:+ error_string err).
Proof.
  intros Hdl r. subst r. unfold main, main_app, exit_status. cbv zeta.
  unfold mbind, M_bind, on_fs, on_out, Println.
  destruct (os.MkdirAll (Getwd E) 493 (w_fs w)) as [f1 e1]. simpl.
  pose proof (download_result_any_output E appZipURL "XMLUI invoice app"
                (w_out w ++ ["Step 1/5: Downloading XMLUI invoice app..."]) [])
    as Hany.
  destruct (downloadWithProgress E appZipURL "XMLUI invoice app"
              (w_out w ++ ["Step 1/5: Downloading XMLUI invoice app..."]))
    as [o r].
  simpl in Hany. rewrite Hdl in Hany. subst r. simpl.
  split; [done|]. split; [done|]. apply last_snoc.
Qed.

Lemma first_download_failure_witness :
  exit_status (main Sample.linux_unauthorized
                 {| w_fs := Sample.fresh; w_out := [] |}) = 1%Z.
Proof.
  destruct (first_download_failure Sample.linux_unauthorized
              {| w_fs := Sample.fresh; w_out := [] |}
              (Errorf ("request failed: 401 Unauthorized for URL: " +:+ appZipURL)))
    as (H & _ & _).
  - vm_compute. reflexivity.
  - exact H.
Defined.

(** ** The sample run stays in its working directory *)

Lemma sample_no_dotdot : no_dotdot Sample.linux.
Proof.
  split.
  - intros data files zf Hr Hin. change (Sample.zip_of data = inr files) in Hr.
    unfold Sample.zip_of in Hr.
    repeat (destruct (String.eqb data _);
            [injection Hr as <-;
             repeat (apply elem_of_cons in Hin as [->|Hin];
                     [apply (bool_decide_unpack _); vm_compute; exact I|]);
             by apply elem_of_nil in Hin|]).
    done.
  - intros data s Hr. change (Sample.targz_of data = inr s) in Hr.
    unfold Sample.targz_of in Hr.
    repeat (destruct (String.eqb data _);
            [injection Hr as <-; apply (bool_decide_unpack _); vm_compute; exact I|]).
    done.
Qed.

Lemma fresh_valid : names_valid Sample.fresh.
Proof.
  intros p n Hp. unfold Sample.fresh in Hp.
  apply lookup_singleton_Some in Hp as [<- _].
  by apply Forall_singleton.
Qed.

Lemma main_stays_in_working_directory_witness :
  confined (Getwd Sample.linux) Sample.fresh
    (w_fs (main Sample.linux {| w_fs := Sample.fresh; w_out := [] |}).1).
Proof.
  apply (main_stays_in_working_directory Sample.linux
           {| w_fs := Sample.fresh; w_out := [] |}).
  - exact sample_no_dotdot.
  - by apply Forall_singleton.
  - exact fresh_valid.
Defined.

(** ** The extraction theorems on the sample tool archive *)

Lemma extraction_confined_witness :
  confined ["w"; "mcpTmp"] Sample.fresh
    (unzipTo Sample.linux "MCP" ["w"; "mcpTmp"] Sample.fresh).1.
Proof.
  apply (proj1 (extraction_confined Sample.linux "MCP" ["w"; "mcpTmp"]
                  Sample.fresh)
           [Sample.zfile "xmlui-mcp" "ELF"; Sample.zfile "xmlui-mcp-client" "ELF";
            Sample.zfile "run-mcp-client.sh" "#!/bin/sh"]).
  - reflexivity.
  - intros zf Hin.
    repeat (apply elem_of_cons in Hin as [->|Hin];
            [apply (bool_decide_unpack _); vm_compute; exact I|]).
    by apply elem_of_nil in Hin.
Defined.

Lemma extraction_content_witness :
  ∃ m, (unzip_files
          ([Sample.zfile "xmlui-mcp" "ELF"]
           ++ Sample.zfile "run-mcp-client.sh" "#!/bin/sh"
           :: [Sample.zfile "xmlui-mcp-client" "ELF"])
          ["w"; "mcpTmp"] Sample.fresh).1
         !! filepath.Join ["w"; "mcpTmp"] "run-mcp-client.sh"
       = Some (File "#!/bin/sh" m).
Proof.
  apply (proj1 (extraction_content ["w"; "mcpTmp"] Sample.fresh)
           [Sample.zfile "xmlui-mcp" "ELF"]
           (Sample.zfile "run-mcp-client.sh" "#!/bin/sh")
           [Sample.zfile "xmlui-mcp-client" "ELF"]
           {| rd_data := "#!/bin/sh"; rd_err := None |}).
  - reflexivity.
  - reflexivity.
  - intros z Hz _. apply list_elem_of_singleton in Hz as ->.
    vm_compute. discriminate.
  - vm_compute. reflexivity.
Defined.
